(** * Route Safety Engine: a shallow embedding of the flood-detection frontend

    The development follows the Python sources of the frontend:

    - [flood_detection.py]          tile grid, cached hazard-tile lookup, route
                                    intersection analysis, tile processing loop;
    - [disaster_management.py]      road-feature impact classification;
    - [tabs/disaster_management.py] road attribution, stored analysis result and
                                    the results panel, the alternative routes;
    - [tabs/route_planner.py]       the routing model handed to the solver and
                                    the session-state update after solving.

    Conventions of the embedding.

    - Python floats (longitudes, latitudes, tile sizes) are exact rationals
      [Q]; comparisons and arithmetic are therefore exact.  IEEE rounding is
      outside the model.
    - Python ints (pixel indices, counts, demands, capacities) are [Z] or
      [nat]; [//] with a positive divisor is [Z.div].
    - A numpy 2-D array is a list of rows, [shape[0]] its length and
      [shape[1]] the length of its first row.
    - Code that can raise returns a [result]; a [try]/[except] is a [match]
      on it.
    - The external services (n8n webhook, GeoTIFF download, Overpass,
      OpenRouteService, pyproj, rasterio, the OR-tools solver) are fields of
      the record [services], a parameter of the functions that call them.
      [st.cache_data] on the two hazard-tile functions is a memo table
      threaded through the calls, together with the log of the calls that
      reached the provider; [st.session_state] is a finite map.  The cached
      wrappers of [route_analysis.py] are functions of their argument.
      Widgets that only display ([st.write], the progress bar, folium) are
      left out; of the map only the layers of the alternative routes are
      kept, as a list. *)

From Stdlib Require Import QArith Qround Qminmax Lqa Lia ZArith List Bool Sorted.
From stdpp Require Import gmap strings list fin_maps.

Local Open Scope Q_scope.

(** * Part I: the embedding *)

(** ** Numbers *)

Definition Qleb (x y : Q) : bool := Qle_bool x y.
Definition Qltb (x y : Q) : bool := negb (Qle_bool y x).

#[global] Instance Q_eq_dec : EqDecision Q.
Proof. solve_decision. Defined.

(** Keys of the memo tables are compared as Python compares the argument
    tuples: component by component. *)
#[global] Program Instance Q_countable : Countable Q :=
  inj_countable' (fun q => (Qnum q, Qden q)) (fun p => Qmake p.1 p.2) _.
Next Obligation. by intros []. Qed.

(** [(min_lon, min_lat, max_lon, max_lat)], as the 4-tuples of the source. *)
Definition bbox : Type := (Q * Q * Q * Q)%type.

(** A (lon, lat) pair. *)
Definition coord : Type := (Q * Q)%type.

(** ** numpy

    [np.arange(start, stop, step)] has [ceil((stop - start) / step)]
    elements (none when that is not positive), the [i]-th being
    [start + i * step]. *)
Definition arange_len (start stop step : Q) : nat :=
  Z.to_nat (Qceiling ((stop - start) / step)).

Definition arange (start stop step : Q) : list Q :=
  List.map (fun i : nat => start + inject_Z (Z.of_nat i) * step)
           (seq 0 (arange_len start stop step)).

(** A single-band raster: [pixels.shape] and [pixels[py, px]]. *)
Definition ndarray : Type := list (list Z).

Definition shape0 (a : ndarray) : Z := Z.of_nat (length a).
Definition shape1 (a : ndarray) : Z :=
  match a with
  | [] => 0%Z
  | row :: _ => Z.of_nat (length row)
  end.

Definition pixel_at (a : ndarray) (py px : Z) : Z :=
  nth (Z.to_nat px) (nth (Z.to_nat py) a []) 0%Z.

(** The integers [lo, lo + 1, ..., hi - 1] of a slice [lo:hi] whose ends are
    already within the array. *)
Definition zrange (lo hi : Z) : list Z :=
  List.map (fun i : nat => (lo + Z.of_nat i)%Z) (seq 0 (Z.to_nat (hi - lo))).

(** [np.any(a[min_y:max_y, min_x:max_x] == 1)]. *)
Definition any_eq_1 (a : ndarray) (min_y max_y min_x max_x : Z) : bool :=
  existsb (fun y => existsb (fun x => (pixel_at a y x =? 1)%Z) (zrange min_x max_x))
          (zrange min_y max_y).

(** ** Exceptions *)

Inductive exn : Type :=
  | RequestException   (* requests.exceptions.RequestException and subclasses *)
  | RuntimeError (msg : string)
  | OutOfTransform     (* rasterio.errors.OutOfTransform *)
  | OtherException.    (* any other subclass of Exception *)

Inductive result (A : Type) : Type :=
  | Ok (a : A)
  | Raise (e : exn).
Arguments Ok {A} a.
Arguments Raise {A} e.

(** ** Rasters and the data of the external services *)

(** rasterio's affine geotransform [(a, b, c, d, e, f)]. *)
Definition affine : Type := (Q * Q * Q * Q * Q * Q)%type.

Definition rgba : Type := (Z * Z * Z * Z)%type.

(** A GeoTIFF as [rasterio.open] presents it. *)
Record geotiff : Type := {
  band1 : ndarray;          (* src.read(1) *)
  src_transform : affine;
  src_crs : string;
  src_bounds : bbox
}.

(** The overlay payload of [fetch_flood_geotiff]; [bounds] is folium's
    [[[south, west], [north, east]]]. *)
Record raster_data : Type := {
  overlay_image : list (list rgba);
  bounds : (Q * Q) * (Q * Q);
  pixels : ndarray;
  transform : affine;
  crs : string
}.

(** The JSON body of the webhook's answer, as far as the code reads it. *)
Record n8n_json : Type := {
  status : option string;
  result_url : option string
}.

(** An HTTP response: [raise_for_status] raises unless [http_ok];
    [payload] is [None] when the body cannot be decoded. *)
Record response (A : Type) : Type := {
  http_ok : bool;
  payload : option A
}.
Arguments http_ok {A} r.
Arguments payload {A} r.

(** A GeoJSON feature with a line geometry, and what the code reads of its
    properties ([name], [highway], ...). *)
Record feature : Type := {
  geometry_type : string;
  coordinates : list coord;
  properties : gmap string string
}.

(** One element of an Overpass answer. *)
Record overpass_element : Type := {
  el_type : option string;
  el_geometry : option (list coord);     (* [{'lon': .., 'lat': ..}, ...] *)
  el_tags : option (gmap string string);
  el_id : option string
}.

(** The routing model handed to OR-tools: node 0..[num_nodes - 1], the
    disjunctions added with [AddDisjunction], the demands behind the unary
    transit callback, the capacities of the 'Capacity' dimension and the arc
    costs. *)
Record routing_model : Type := {
  num_nodes : nat;
  num_vehicles : Z;
  depot : nat;
  disjunctions : list (list nat * Z);
  demands : list Z;
  vehicle_capacities : list Z;
  arc_cost : list (list Z)
}.

(** A solution, read as [render] reads it: for each vehicle the nodes
    visited after the start, up to the end node (excluded). *)
Definition assignment : Type := list (list nat).

(** A call that reached an external provider of hazard data. *)
Inductive call : Type :=
  | WebhookPost (b : bbox) (analysis_date : string)
  | Download (url : string).

#[global] Instance call_eq_dec : EqDecision call.
Proof. solve_decision. Defined.

(** The external collaborators.  The two HTTP calls see the calls made so
    far, so a provider may answer the same request differently over time. *)
Record services : Type := {
  (* _resolve_env *)
  N8N_WEBHOOK_URL : option string;
  BACKEND_MCP_URL : option string;
  (* datetime.fromisoformat(s).timestamp() *)
  iso_timestamp : string -> result Q;
  (* requests.post(webhook_url, json=payload), before raise_for_status *)
  requests_post : list call -> bbox -> string -> result (response n8n_json);
  (* requests.get(result_url), before raise_for_status *)
  requests_get : list call -> string -> result (response geotiff);
  (* rasterio.warp.transform_bounds(src_crs, dst_crs, *bounds) *)
  transform_bounds : string -> string -> bbox -> result bbox;
  (* pyproj.Transformer.from_crs(src, dst, always_xy=True), then .transform *)
  transformer_from_crs : string -> string -> result (coord -> result coord);
  (* rasterio.transform.rowcol(transform, x, y): (row, col) *)
  rowcol : affine -> coord -> result (Z * Z);
  (* route_analysis.get_directions: the features of the answer, [None] when
     the answer is empty or has no 'features' *)
  get_directions : list coord -> result (option (list feature));
  (* disaster_management.get_road_data(south, west, north, east): the
     'elements' of the Overpass answer *)
  get_road_data : Q -> Q -> Q -> Q -> result (list overpass_element);
  (* route_analysis.get_distance_matrix *)
  get_distance_matrix : list coord -> result (list (list Z));
  (* routing.SolveWithParameters: [None] when no solution was found *)
  solve_with_parameters : routing_model -> option assignment
}.

(** Python truthiness of [os.environ.get(name) or secret]. *)
Definition truthy_str (s : option string) : bool :=
  match s with
  | Some (String _ _) => true
  | _ => false
  end.

(** ** The process state: memo tables and provider calls *)

Abbreviation tile_key := (bbox * string)%type (only parsing).

Record world : Type := {
  (* st.cache_data of get_flood_overlay_from_n8n *)
  overlay_cache : gmap tile_key (option raster_data);
  (* st.cache_data of request_flood_map_from_n8n *)
  url_cache : gmap tile_key string;
  (* the provider calls issued so far, oldest first *)
  calls : list call
}.

Definition set_overlay_cache (c : gmap tile_key (option raster_data)) (w : world) : world :=
  {| overlay_cache := c; url_cache := url_cache w; calls := calls w |}.
Definition set_url_cache (c : gmap tile_key string) (w : world) : world :=
  {| overlay_cache := overlay_cache w; url_cache := c; calls := calls w |}.
Definition log_call (c : call) (w : world) : world :=
  {| overlay_cache := overlay_cache w; url_cache := url_cache w;
     calls := calls w ++ [c] |}.

Definition empty_world : world :=
  {| overlay_cache := ∅; url_cache := ∅; calls := [] |}.

(** Computations that read and update the process state and may raise. *)
Definition M (A : Type) : Type := world -> result A * world.

Definition ret {A} (a : A) : M A := fun w => (Ok a, w).
Definition raise {A} (e : exn) : M A := fun w => (Raise e, w).
Definition bind {A B} (m : M A) (k : A -> M B) : M B :=
  fun w => match m w with
           | (Ok a, w') => k a w'
           | (Raise e, w') => (Raise e, w')
           end.
Definition lift {A} (r : result A) : M A := fun w => (r, w).

(** [try: m  except Exception as e: h e]. *)
Definition try_except {A} (m : M A) (h : exn -> M A) : M A :=
  fun w => match m w with
           | (Ok a, w') => (Ok a, w')
           | (Raise e, w') => h e w'
           end.

Notation "x <- m ;; k" := (bind m (fun x => k))
  (at level 100, m at next level, right associativity).

(** [@st.cache_data]: a call whose arguments are in the table returns the
    stored value and does not run the body; otherwise the body runs and its
    return value (also [None]) is stored.  A raised exception is not
    stored. *)
Definition cache_data {A} (table : world -> gmap tile_key A)
    (store : gmap tile_key A -> world -> world)
    (body : tile_key -> M A) (k : tile_key) : M A :=
  fun w => match table w !! k with
           | Some v => (Ok v, w)
           | None =>
               match body k w with
               | (Ok v, w') => (Ok v, store (<[k := v]> (table w')) w')
               | (Raise e, w') => (Raise e, w')
               end
           end.

(** ** flood_detection.py *)

Module flood_detection.

(** [generate_tiles(bbox, tile_size_deg)]: the outer loop runs over the
    longitudes, the inner one over the latitudes. *)
Definition generate_tiles (b : bbox) (tile_size_deg : Q) : list bbox :=
  let '(min_lon, min_lat, max_lon, max_lat) := b in
  let lon_steps := arange min_lon max_lon tile_size_deg in
  let lat_steps := arange min_lat max_lat tile_size_deg in
  flat_map (fun lon =>
    List.map (fun lat => (lon, lat, lon + tile_size_deg, lat + tile_size_deg))
             lat_steps) lon_steps.

(** The body of [request_flood_map_from_n8n]. *)
Definition request_flood_map_from_n8n_body (sv : services) (k : tile_key) : M string :=
  let '(b, analysis_date) := k in
  if negb (truthy_str (N8N_WEBHOOK_URL sv)) then
    raise (RuntimeError "N8N_WEBHOOK_URL is not configured.")
  else if negb (truthy_str (BACKEND_MCP_URL sv)) then
    raise (RuntimeError "BACKEND_MCP_URL is not configured.")
  else
    _timestamp <- lift (iso_timestamp sv analysis_date) ;;
    resp <- (fun w => (requests_post sv (calls w) b analysis_date,
                       log_call (WebhookPost b analysis_date) w)) ;;
    if negb (http_ok resp) then raise RequestException   (* raise_for_status *)
    else
      match payload resp with
      | None => raise OtherException                     (* response.json() *)
      | Some data =>
          if negb (bool_decide (status data = Some "success"%string)) then
            raise (RuntimeError "n8n returned error")
          else
            match result_url data with
            | Some (String c u) => ret (String c u)
            | _ => raise (RuntimeError "n8n response missing result_url")
            end
      end.

Definition request_flood_map_from_n8n (sv : services) (b : bbox)
    (analysis_date : string) : M string :=
  cache_data url_cache set_url_cache (request_flood_map_from_n8n_body sv)
             (b, analysis_date).

(** [overlay_image[pixels == 1] = [0, 100, 255, 150]] on a zero image. *)
Definition overlay_of (px : ndarray) : list (list rgba) :=
  List.map (List.map (fun v : Z =>
     if (v =? 1)%Z then (0, 100, 255, 150)%Z else (0, 0, 0, 0)%Z)) px.

Definition fetch_flood_geotiff (sv : services) (url : string) : M raster_data :=
  resp <- (fun w => (requests_get sv (calls w) url, log_call (Download url) w)) ;;
  if negb (http_ok resp) then raise RequestException     (* raise_for_status *)
  else
    match payload resp with
    | None => raise OtherException                       (* rasterio.open *)
    | Some src =>
        wgs84_bounds <-
           lift (transform_bounds sv (src_crs src) "EPSG:4326" (src_bounds src)) ;;
        let '(west, south, east, north) := wgs84_bounds in
        ret {| overlay_image := overlay_of (band1 src);
               bounds := ((south, west), (north, east));
               pixels := band1 src;
               transform := src_transform src;
               crs := src_crs src |}
    end.

(** The body of [get_flood_overlay_from_n8n]: both handlers return [None]. *)
Definition get_flood_overlay_from_n8n_body (sv : services) (k : tile_key)
    : M (option raster_data) :=
  let '(b, analysis_date) := k in
  try_except
    (url <- request_flood_map_from_n8n sv b analysis_date ;;
     r <- fetch_flood_geotiff sv url ;;
     ret (Some r))
    (fun e => match e with
              | RequestException => ret None
              | _ => ret None
              end).

Definition get_flood_overlay_from_n8n (sv : services) (b : bbox)
    (analysis_date : string) : M (option raster_data) :=
  cache_data overlay_cache set_overlay_cache (get_flood_overlay_from_n8n_body sv)
             (b, analysis_date).

(** The loop of [process_flood_tiles]; a payload is always truthy. *)
Fixpoint process_tiles_loop (sv : services) (tiles : list bbox)
    (analysis_date : string) (all_flood_rasters : list raster_data)
    : M (list raster_data) :=
  match tiles with
  | [] => ret all_flood_rasters
  | tile_bbox :: rest =>
      tile_flood_data <- get_flood_overlay_from_n8n sv tile_bbox analysis_date ;;
      process_tiles_loop sv rest analysis_date
        (match tile_flood_data with
         | Some r => all_flood_rasters ++ [r]
         | None => all_flood_rasters
         end)
  end.

Definition process_flood_tiles (sv : services) (tiles_to_process : list bbox)
    (analysis_date : string) : M (list raster_data) :=
  match tiles_to_process with
  | [] => ret []
  | _ => process_tiles_loop sv tiles_to_process analysis_date []
  end.

(** *** Route intersection analysis *)

(** What the body of the [try] does with one raster for one coordinate:
    it finds the exact pixel flooded, or falls through to the next raster. *)
Inductive probe : Type :=
  | Flooded (px py pixel_value : Z)
  | NotFlooded.

(** The transformer memo kept in the session state is left out:
    [transformer_from_crs] is a function of the CRS. *)
Definition probe_raster (sv : services) (c : coord) (raster : raster_data)
    : result probe :=
  let '(lon, lat) := c in
  match transformer_from_crs sv "EPSG:4326" (crs raster) with
  | Raise e => Raise e
  | Ok transformer =>
      let min_tile_lon := (bounds raster).1.2 in
      let min_tile_lat := (bounds raster).1.1 in
      let max_tile_lon := (bounds raster).2.2 in
      let max_tile_lat := (bounds raster).2.1 in
      if negb (Qleb min_tile_lon lon && Qleb lon max_tile_lon &&
               Qleb min_tile_lat lat && Qleb lat max_tile_lat) then
        Ok NotFlooded                                    (* continue *)
      else
        match transformer (lon, lat) with
        | Raise e => Raise e
        | Ok proj =>
            match rowcol sv (transform raster) proj with
            | Raise e => Raise e
            | Ok (py, px) =>
                if (0 <=? py)%Z && (py <? shape0 (pixels raster))%Z &&
                   (0 <=? px)%Z && (px <? shape1 (pixels raster))%Z then
                  let pixel_value := pixel_at (pixels raster) py px in
                  if (pixel_value =? 1)%Z then Ok (Flooded px py pixel_value)
                  else Ok NotFlooded
                else Ok NotFlooded
            end
        end
  end.

(** The loop over the rasters for one coordinate: the first raster whose
    exact pixel is flooded ends it ([break]); an exception moves on to the
    next raster ([continue]). *)
Fixpoint scan_rasters (sv : services) (c : coord) (rasters : list raster_data)
    (raster_idx : nat) : option (nat * raster_data * (Z * Z) * Z) :=
  match rasters with
  | [] => None
  | raster :: rest =>
      match probe_raster sv c raster with
      | Ok (Flooded px py v) => Some (raster_idx, raster, (px, py), v)
      | Ok NotFlooded => scan_rasters sv c rest (S raster_idx)
      | Raise _ => scan_rasters sv c rest (S raster_idx)
      end
  end.

(** An entry of [affected_segments] of [analyze_road_flood_impact]. *)
Record basic_segment : Type := {
  b_segment : nat;
  b_coordinate : coord;
  b_raster_index : raster_data;
  b_pixel_coords : Z * Z;
  b_flood_value : Z
}.

Fixpoint basic_loop (sv : services) (route_coords : list coord) (i : nat)
    (rasters : list raster_data) : list basic_segment :=
  match route_coords with
  | [] => []
  | c :: rest =>
      match scan_rasters sv c rasters 0 with
      | Some (_, raster, pc, v) =>
          {| b_segment := i; b_coordinate := c; b_raster_index := raster;
             b_pixel_coords := pc; b_flood_value := v |}
          :: basic_loop sv rest (S i) rasters
      | None => basic_loop sv rest (S i) rasters
      end
  end.

Definition analyze_road_flood_impact (sv : services) (route_coords : list coord)
    (list_of_flood_rasters : list raster_data) : list basic_segment :=
  match list_of_flood_rasters with
  | [] => []
  | _ => basic_loop sv route_coords 0 list_of_flood_rasters
  end.

(** An entry of [affected_segments] of [analyze_road_flood_impact_improved]. *)
Record affected_segment : Type := {
  vehicle : nat;
  segment : nat;
  coordinate : coord;
  raster_index : nat;
  pixel_coords : Z * Z;
  flood_value : Z
}.

(** A value of [route_data]; its key ["vehicle_<id>"] is the number [id]. *)
Record route_info : Type := {
  coords : list coord;
  display : list string;
  distance : Z
}.

(** The dictionary [route_data], in insertion order. *)
Definition route_data_t : Type := list (nat * route_info).

(** The coordinates checked for one vehicle: the dense geometry of the
    directions when they were obtained, else the basic route points. *)
Definition coords_to_check (sv : services) (route_coords : list coord) : list coord :=
  match get_directions sv route_coords with
  | Ok (Some features) =>
      if (0 <? length features)%nat then
        flat_map (fun f => if String.eqb (geometry_type f) "LineString"
                           then coordinates f else []) features
      else route_coords
  | Ok None => route_coords
  | Raise _ => route_coords
  end.

Fixpoint improved_loop (sv : services) (vehicle_num : nat) (cs : list coord)
    (i : nat) (rasters : list raster_data) : list affected_segment :=
  match cs with
  | [] => []
  | c :: rest =>
      match scan_rasters sv c rasters 0 with
      | Some (raster_idx, _, pc, v) =>
          {| vehicle := vehicle_num; segment := i; coordinate := c;
             raster_index := raster_idx; pixel_coords := pc; flood_value := v |}
          :: improved_loop sv vehicle_num rest (S i) rasters
      | None => improved_loop sv vehicle_num rest (S i) rasters
      end
  end.

Definition analyze_road_flood_impact_improved (sv : services)
    (route_data : route_data_t) (list_of_flood_rasters : list raster_data)
    : list affected_segment :=
  match list_of_flood_rasters with
  | [] => []
  | _ =>
      flat_map (fun '(vehicle_id, route_info) =>
                  improved_loop sv (vehicle_id + 1)
                    (coords_to_check sv (coords route_info)) 0
                    list_of_flood_rasters)
               route_data
  end.

End flood_detection.

(** ** disaster_management.py *)

Module disaster_management.

(** [overpass_to_geojson]: the ways that carry a geometry become LineString
    features whose properties are the tags and the id; a way without an id
    raises (KeyError). *)
Fixpoint overpass_to_geojson (elements : list overpass_element) : result (list feature) :=
  match elements with
  | [] => Ok []
  | element :: rest =>
      if bool_decide (el_type element = Some "way"%string) then
        match el_geometry element with
        | Some geometry =>
            match el_id element with
            | None => Raise OtherException
            | Some id =>
                match overpass_to_geojson rest with
                | Ok features =>
                    Ok ({| geometry_type := "LineString";
                           coordinates := geometry;
                           properties := <["id"%string := id]> (default ∅ (el_tags element)) |}
                        :: features)
                | Raise e => Raise e
                end
            end
        | None => overpass_to_geojson rest
        end
      else overpass_to_geojson rest
  end.

(** The clamped neighbourhood test of one vertex whose exact pixel is not
    flooded: [buffer = 3]. *)
Definition buffer : Z := 3.

Definition near_flood_at (flood_pixels : ndarray) (py px : Z) : bool :=
  let min_x := Z.max 0 (px - buffer) in
  let max_x := Z.min (shape1 flood_pixels) (px + buffer + 1) in
  let min_y := Z.max 0 (py - buffer) in
  let max_y := Z.min (shape0 flood_pixels) (py + buffer + 1) in
  any_eq_1 flood_pixels min_y max_y min_x max_x.

(** The loop over the vertices of one feature, from the flags
    [(is_flooded, is_near_flood)] so far.  Only [OutOfTransform] is caught. *)
Fixpoint coords_loop (sv : services) (transformer : coord -> result coord)
    (flood_pixels : ndarray) (flood_transform : affine)
    (cs : list coord) (is_near_flood : bool) : result (bool * bool) :=
  match cs with
  | [] => Ok (false, is_near_flood)
  | c :: rest =>
      match transformer c with
      | Raise e => Raise e
      | Ok proj =>
          match rowcol sv flood_transform proj with
          | Raise OutOfTransform =>
              coords_loop sv transformer flood_pixels flood_transform rest is_near_flood
          | Raise e => Raise e
          | Ok (py, px) =>
              if (0 <=? px)%Z && (px <? shape1 flood_pixels)%Z &&
                 (0 <=? py)%Z && (py <? shape0 flood_pixels)%Z then
                if (pixel_at flood_pixels py px =? 1)%Z then
                  Ok (true, is_near_flood)                           (* break *)
                else
                  coords_loop sv transformer flood_pixels flood_transform rest
                    (if near_flood_at flood_pixels py px then true else is_near_flood)
              else
                coords_loop sv transformer flood_pixels flood_transform rest is_near_flood
          end
      end
  end.

Fixpoint features_loop (sv : services) (transformer : coord -> result coord)
    (flood_pixels : ndarray) (flood_transform : affine) (features : list feature)
    (affected_roads near_flood_roads : list feature)
    : result (list feature * list feature) :=
  match features with
  | [] => Ok (affected_roads, near_flood_roads)
  | f :: rest =>
      match coords_loop sv transformer flood_pixels flood_transform (coordinates f) false with
      | Raise e => Raise e
      | Ok (is_flooded, is_near_flood) =>
          if is_flooded then
            features_loop sv transformer flood_pixels flood_transform rest
              (affected_roads ++ [f]) near_flood_roads
          else if is_near_flood then
            features_loop sv transformer flood_pixels flood_transform rest
              affected_roads (near_flood_roads ++ [f])
          else
            features_loop sv transformer flood_pixels flood_transform rest
              affected_roads near_flood_roads
      end
  end.

Definition analyze_road_impact (sv : services) (roads_geojson : list feature)
    (flood_pixels : ndarray) (flood_transform : affine)
    (map_crs road_crs : string) : result (list feature * list feature) :=
  match transformer_from_crs sv road_crs map_crs with
  | Raise e => Raise e
  | Ok transformer =>
      features_loop sv transformer flood_pixels flood_transform roads_geojson [] []
  end.

End disaster_management.

(** ** What the tabs keep in [st.session_state] *)

(** An entry of [road_impacts]. *)
Record road_impact : Type := {
  ri_description : string;
  ri_name : string;
  ri_severity : string;
  ri_affected_points : nat;
  ri_coordinates : list (Q * Q)          (* [lat, lon] pairs *)
}.

(** The dictionary stored under ["improved_analysis_results"]. *)
Record analysis_results : Type := {
  total_affected : nat;
  flood_data_found : bool;
  all_flood_rasters : list raster_data;
  road_impacts : list road_impact;
  affected_segments : list flood_detection.affected_segment;
  error : option exn
}.

Inductive session_value : Type :=
  | VRouteData (d : flood_detection.route_data_t)
  | VBool (b : bool)
  | VFloat (q : Q)
  | VResults (r : analysis_results).

Definition ROUTE_DATA : string := "route_data".
Definition RUN_IMPROVED_ANALYSIS : string := "run_improved_analysis".
Definition SELECTED_TILE_SIZE : string := "selected_tile_size".
Definition IMPROVED_ANALYSIS_RESULTS : string := "improved_analysis_results".

(** ** tabs/disaster_management.py *)

Module tabs_disaster_management.
Import flood_detection.

(** A distance [d] is kept as its square [d * d]: on non-negative numbers
    [(...) ** 0.5] is increasing, so distances compare as their squares do. *)
Definition distance2 (lon lat : Q) (road_coord : coord) : Q :=
  let '(road_lon, road_lat) := road_coord in
  (lon - road_lon) * (lon - road_lon) + (lat - road_lat) * (lat - road_lat).

(** [min_distance < 0.001], on squares. *)
Definition threshold2 : Q := (1 # 1000) * (1 # 1000).

(** [(closest_road, min_distance)]; [min_distance = None] is
    [float('inf')]. *)
Definition closest_state : Type := (option feature * option Q)%type.

Definition closer (d : Q) (min_distance : option Q) : bool :=
  match min_distance with
  | None => true
  | Some m => Qltb d m
  end.

Fixpoint closest_in_coords (lon lat : Q) (f : feature) (cs : list coord)
    (st : closest_state) : closest_state :=
  match cs with
  | [] => st
  | road_coord :: rest =>
      let d := distance2 lon lat road_coord in
      closest_in_coords lon lat f rest
        (if closer d st.2 then (Some f, Some d) else st)
  end.

Fixpoint closest_loop (lon lat : Q) (features : list feature)
    (st : closest_state) : closest_state :=
  match features with
  | [] => st
  | f :: rest =>
      closest_loop lon lat rest
        (if String.eqb (geometry_type f) "LineString"
         then closest_in_coords lon lat f (coordinates f) st
         else st)
  end.

(** A value of [road_groups]. *)
Record road_group : Type := {
  rg_name : string;
  rg_type : string;
  rg_description : string;
  rg_affected_points : nat;
  rg_coordinates : list (Q * Q)
}.

(** [road_groups], a dictionary in insertion order. *)
Definition road_groups_t : Type := list (string * road_group).

Definition road_desc_of (road_name road_type : string) : string :=
  if bool_decide (road_type ∈ ["motorway"; "trunk"]%string) then
    "🛣️ " +:+ road_name +:+ " (Major road)"
  else if bool_decide (road_type ∈ ["primary"; "secondary"]%string) then
    "🚗 " +:+ road_name +:+ " (Main road)"
  else
    "🛤️ " +:+ road_name +:+ " (Local road)".

Definition has_group (road_desc : string) (groups : road_groups_t) : bool :=
  existsb (fun kv => String.eqb kv.1 road_desc) groups.

(** [road_groups[road_desc]['affected_points'] += 1] and the append to its
    ['coordinates']. *)
Fixpoint add_point (road_desc : string) (lat lon : Q) (groups : road_groups_t)
    : road_groups_t :=
  match groups with
  | [] => []
  | (k, g) :: rest =>
      if String.eqb k road_desc then
        (k, {| rg_name := rg_name g; rg_type := rg_type g;
               rg_description := rg_description g;
               rg_affected_points := rg_affected_points g + 1;
               rg_coordinates := rg_coordinates g ++ [(lat, lon)] |}) :: rest
      else (k, g) :: add_point road_desc lat lon rest
  end.

(** The body of the loop over the affected segments. *)
Definition attribute_segment (features : list feature) (seg : affected_segment)
    (road_groups : road_groups_t) : road_groups_t :=
  let '(lon, lat) := coordinate seg in
  match closest_loop lon lat features (None, None) with
  | (Some closest_road, Some min_distance) =>
      if Qltb min_distance threshold2 then
        let road_name := default "Unnamed Road"%string (properties closest_road !! "name"%string) in
        let road_type := default "local"%string (properties closest_road !! "highway"%string) in
        let road_desc := road_desc_of road_name road_type in
        let road_groups :=
          if has_group road_desc road_groups then road_groups
          else road_groups ++
               [(road_desc, {| rg_name := road_name; rg_type := road_type;
                               rg_description := road_desc;
                               rg_affected_points := 0;
                               rg_coordinates := [] |})] in
        add_point road_desc lat lon road_groups
      else road_groups
  | _ => road_groups
  end.

Definition group_segments (features : list feature) (segs : list affected_segment)
    : road_groups_t :=
  fold_left (fun groups seg => attribute_segment features seg groups) segs [].

Definition severity_of (affected_points : nat) : string :=
  if (5 <? affected_points)%nat then "Severely flooded" else "Partially flooded".

Definition impact_of_group (road_info : road_group) : road_impact :=
  {| ri_description := rg_description road_info;
     ri_name := rg_name road_info;
     ri_severity := severity_of (rg_affected_points road_info);
     ri_affected_points := rg_affected_points road_info;
     ri_coordinates := rg_coordinates road_info |}.

(** The entry appended by the [except] branch. *)
Definition fallback_impact (segs : list affected_segment) : road_impact :=
  {| ri_description := "🛤️ Roads near Fishlake area";
     ri_name := "Local roads";
     ri_severity := "Multiple sections flooded";
     ri_affected_points := length segs;
     ri_coordinates := List.map (fun seg => ((coordinate seg).2, (coordinate seg).1)) segs |}.

Definition convert_coordinates_to_road_names (sv : services)
    (segs : list affected_segment) (all_flood_rasters : list raster_data)
    : list road_impact :=
  match List.map coordinate segs with
  | [] => []
  | c :: cs =>
      let min_lon := fold_left Qmin (List.map fst cs) c.1 - (5 # 1000) in
      let max_lon := fold_left Qmax (List.map fst cs) c.1 + (5 # 1000) in
      let min_lat := fold_left Qmin (List.map snd cs) c.2 - (5 # 1000) in
      let max_lat := fold_left Qmax (List.map snd cs) c.2 + (5 # 1000) in
      let attempt :=
        match get_road_data sv min_lat min_lon max_lat max_lon with
        | Raise e => Raise e
        | Ok road_data =>
            match disaster_management.overpass_to_geojson road_data with
            | Raise e => Raise e
            | Ok road_geojson =>
                Ok (List.map (fun kv => impact_of_group kv.2)
                             (group_segments road_geojson segs))
            end
        end in
      match attempt with
      | Ok impacts => impacts
      | Raise _ => [fallback_impact segs]
      end
  end.

(** The loop over the vehicles in the analysis run. *)
Fixpoint vehicles_loop (sv : services) (route_data : route_data_t)
    (rasters : list raster_data) (total : nat) (all_affected : list affected_segment)
    : nat * list affected_segment :=
  match route_data with
  | [] => (total, all_affected)
  | kv :: rest =>
      match analyze_road_flood_impact_improved sv [kv] rasters with
      | [] => vehicles_loop sv rest rasters total all_affected
      | segs => vehicles_loop sv rest rasters (total + 1) (all_affected ++ segs)
      end
  end.

(** The results stored when the analysis raises. *)
Definition failed_results (e : exn) : analysis_results :=
  {| total_affected := 0; flood_data_found := false; all_flood_rasters := [];
     road_impacts := []; affected_segments := []; error := Some e |}.

(** [overall_bbox] of the analysis run, from the non-empty list of all
    route coordinates. *)
Definition overall_bbox (c : coord) (cs : list coord) : bbox :=
  (fold_left Qmin (List.map fst cs) c.1 - (1 # 100),
   fold_left Qmin (List.map snd cs) c.2 - (1 # 100),
   fold_left Qmax (List.map fst cs) c.1 + (1 # 100),
   fold_left Qmax (List.map snd cs) c.2 + (1 # 100)).

Definition all_coords (route_data : route_data_t) : list coord :=
  flat_map (fun kv => coords kv.2) route_data.

(** The [try] block of the analysis run, with its [except]: the value
    stored under ["improved_analysis_results"]. *)
Definition run_analysis (sv : services) (route_data : route_data_t)
    (analysis_date : string) (selected_tile_size : Q) : M analysis_results :=
  try_except
    (match all_coords route_data with
     | [] => raise OtherException                        (* min() of nothing *)
     | c :: cs =>
         let tiles_to_process :=
           generate_tiles (overall_bbox c cs) selected_tile_size in
         rasters <- process_flood_tiles sv tiles_to_process analysis_date ;;
         let '(total, segs) := vehicles_loop sv route_data rasters 0 [] in
         ret {| total_affected := total;
                flood_data_found := match rasters with [] => false | _ => true end;
                all_flood_rasters := rasters;
                road_impacts := convert_coordinates_to_road_names sv segs rasters;
                affected_segments := segs;
                error := None |}
     end)
    (fun e => ret (failed_results e)).

(** The widgets of one script run. *)
Record widgets : Type := {
  analysis_date_iso : string;      (* the date input, as [isoformat()] gives it *)
  tile_size : Q;
  analyze_clicked : bool;
  clear_clicked : bool
}.

(** What the tab reports to the user. *)
Inductive message : Type :=
  | InfoGenerateRouteFirst
  | WarningNoOverlays
  | ErrorAnalysisFailed (e : exn)
  | InfoClickAnalyze
  | ErrorRouteSafetyAlert (impacts : list road_impact)
  | SuccessRouteClear
  | WarningNoFloodData.

(** How the script run ends: to its end, or with [st.rerun()]. *)
Inductive ending : Type := Finished | Rerun.

(** The results panel. *)
Definition results_panel (results : analysis_results) : list message :=
  if (0 <? total_affected results)%nat then
    [ErrorRouteSafetyAlert (road_impacts results)]
  else if flood_data_found results then [SuccessRouteClear]
  else [WarningNoFloodData].

(** [st.session_state.get('selected_tile_size', 0.1)]. *)
Definition selected_tile_size_of (ss : gmap string session_value) : Q :=
  match ss !! SELECTED_TILE_SIZE with
  | Some (VFloat q) => q
  | _ => 1 # 10
  end.

Definition render_improved_hazard_analysis (sv : services) (wd : widgets)
    (ss : gmap string session_value)
    : M (gmap string session_value * list message * ending) :=
  match ss !! ROUTE_DATA with
  | None | Some (VRouteData []) => ret (ss, [InfoGenerateRouteFirst], Finished)
  | Some (VRouteData route_data) =>
      if analyze_clicked wd then
        ret (<[SELECTED_TILE_SIZE := VFloat (tile_size wd)]>
               (<[RUN_IMPROVED_ANALYSIS := VBool true]> ss), [], Rerun)
      else if clear_clicked wd then
        ret (delete RUN_IMPROVED_ANALYSIS (delete IMPROVED_ANALYSIS_RESULTS ss),
             [], Rerun)
      else
        match ss !! RUN_IMPROVED_ANALYSIS with
        | Some (VBool true) =>
            results <- run_analysis sv route_data (analysis_date_iso wd)
                                    (selected_tile_size_of ss) ;;
            ret (<[RUN_IMPROVED_ANALYSIS := VBool false]>
                   (<[IMPROVED_ANALYSIS_RESULTS := VResults results]> ss),
                 match error results with
                 | Some e => [ErrorAnalysisFailed e]
                 | None => match all_flood_rasters results with
                           | [] => [WarningNoOverlays]
                           | _ => []
                           end
                 end,
                 Rerun)
        | _ =>
            match ss !! IMPROVED_ANALYSIS_RESULTS with
            | Some (VResults results) => ret (ss, results_panel results, Finished)
            | _ => ret (ss, [InfoClickAnalyze], Finished)
            end
        end
  | Some _ => ret (ss, [InfoGenerateRouteFirst], Finished)
  end.

End tabs_disaster_management.

(** ** The contract of the routing solver

    What OR-tools guarantees of a solution of a routing model: one route per
    vehicle, from the depot and back; every route node is a non-depot node
    and is visited at most once over all routes; a node that is in no
    disjunction is visited (only a node of a disjunction may be dropped, at
    its penalty); and the demands collected along a route, the depot's
    included, do not exceed the capacity of its vehicle. *)

Definition in_disjunction (m : routing_model) (node : nat) : bool :=
  existsb (fun d => existsb (Nat.eqb node) d.1) (disjunctions m).

Definition route_load (m : routing_model) (stops : list nat) : Z :=
  fold_right Z.add 0%Z (List.map (fun n => nth n (demands m) 0%Z) (depot m :: stops)).

Fixpoint within_capacities (m : routing_model) (sol : assignment)
    (capacities : list Z) : bool :=
  match sol, capacities with
  | [], _ => true
  | stops :: sol', cap :: capacities' =>
      (route_load m stops <=? cap)%Z && within_capacities m sol' capacities'
  | _ :: _, [] => false
  end.

Definition feasible (m : routing_model) (sol : assignment) : bool :=
  (Z.of_nat (length sol) =? num_vehicles m)%Z &&
  forallb (fun n => negb (n =? depot m)%nat && (n <? num_nodes m)%nat) (concat sol) &&
  bool_decide (NoDup (concat sol)) &&
  forallb (fun n => (n =? depot m)%nat || in_disjunction m n ||
                    bool_decide (n ∈ concat sol))
          (seq 0 (num_nodes m)) &&
  within_capacities m sol (vehicle_capacities m).

(** ** tabs/route_planner.py *)

Module route_planner.
Import flood_detection.

(** A row of [logistics_locations]. *)
Record location : Type := {
  loc_type : string;
  loc_name : string;
  latitude : Q;
  longitude : Q
}.

Definition label_of (l : location) : string :=
  loc_type l +:+ " - " +:+ loc_name l.

(** [Series.unique()]: the values in order of first appearance. *)
Fixpoint unique (l : list string) : list string :=
  match l with
  | [] => []
  | x :: rest => x :: List.filter (fun y => negb (String.eqb x y)) (unique rest)
  end.

(** [sum(demands)]. *)
Definition sum (l : list Z) : Z := fold_right Z.add 0%Z l.

(** The routing problem set up between "Set up optimization problem" and
    "Solve the problem", from the distance matrix, the number of vehicles
    and [len(selected_destinations)]. *)
Definition build_model (distance_matrix : list (list Z)) (num_vehicles : Z)
    (n_selected : nat) : routing_model :=
  let n := length distance_matrix in
  let demands := 0%Z :: repeat 1%Z (n - 1) in
  {| num_nodes := n;
     num_vehicles := num_vehicles;
     depot := 0;
     disjunctions :=
       if (1 <? n_selected)%nat then
         List.map (fun node => ([node], 1000000%Z)) (seq 1 (n - 1))
       else [];
     demands := demands;
     vehicle_capacities :=
       if (n_selected =? 1)%nat then
         repeat (Z.of_nat (length demands)) (Z.to_nat num_vehicles)
       else
         let total_demand := sum demands in
         let vehicle_capacity := Z.max (total_demand / num_vehicles + 1) 1 in
         repeat vehicle_capacity (Z.to_nat num_vehicles);
     arc_cost := distance_matrix |}.

(** [routing.GetArcCostForVehicle], summed along a path of nodes. *)
Fixpoint path_cost (distance_matrix : list (list Z)) (nodes : list nat) : Z :=
  match nodes with
  | from_node :: ((to_node :: _) as rest) =>
      (nth to_node (nth from_node distance_matrix []) 0 + path_cost distance_matrix rest)%Z
  | _ => 0%Z
  end.

(** The "Build route" loop and the final depot visit for one vehicle whose
    route visits [stops] after the depot.  The nodes of a solution are rows
    of [selected_df]. *)
Definition build_route (labels : list string) (matrix_coords : list coord)
    (distance_matrix : list (list Z)) (stops : list nat) : route_info :=
  let nodes := 0%nat :: stops in
  {| coords := List.map (fun n => nth n matrix_coords (0, 0)) nodes
               ++ [nth 0%nat matrix_coords (0, 0)];
     display := List.map (fun n => nth n labels ""%string) nodes;
     distance := path_cost distance_matrix (nodes ++ [0%nat]) |}.

(** The loop over the vehicles: a route is kept only when it has more than
    two coordinates. *)
Fixpoint routes_loop (labels : list string) (matrix_coords : list coord)
    (distance_matrix : list (list Z)) (solution : assignment)
    (vehicle_ids : list nat) : route_data_t :=
  match vehicle_ids with
  | [] => []
  | vehicle_id :: rest =>
      let r := build_route labels matrix_coords distance_matrix
                           (nth vehicle_id solution []) in
      if (2 <? length (coords r))%nat then
        (vehicle_id, r) :: routes_loop labels matrix_coords distance_matrix solution rest
      else routes_loop labels matrix_coords distance_matrix solution rest
  end.

(** The widgets of one script run. *)
Record widgets : Type := {
  depot_label : string;
  num_vehicles_input : Z;            (* number_input, between 1 and 5 *)
  checked : string -> bool           (* the destination checkboxes *)
}.

(** What the tab reports to the user. *)
Inductive message : Type :=
  | WarningSelectDestination
  | InfoTipSelectMultiple
  | ErrorCalculatingDistances (e : exn)
  | VehicleRoute (vehicle_id : nat) (r : route_info)
  | MetricTotalFleetDistance (d : Z)
  | SuccessRoutesGenerated
  | ErrorCouldNotGenerateRoute.

Definition selected_destinations (logistics_locations : list location)
    (wd : widgets) : list string :=
  let labels := List.map label_of logistics_locations in
  let available_destinations :=
    List.filter (fun l => negb (String.eqb l (depot_label wd))) (unique labels) in
  List.filter (checked wd) available_destinations.

(** The rows kept in [selected_df]. *)
Definition selected_df (logistics_locations : list location) (wd : widgets)
    : list location :=
  let route_locations := depot_label wd :: selected_destinations logistics_locations wd in
  List.filter (fun l => bool_decide (label_of l ∈ route_locations))
              logistics_locations.

Definition matrix_coords (logistics_locations : list location) (wd : widgets)
    : list coord :=
  List.map (fun l => (longitude l, latitude l)) (selected_df logistics_locations wd).

(** The labels of [selected_df] after row 0 was renamed. *)
Definition df_labels (logistics_locations : list location) (wd : widgets)
    : list string :=
  match List.map label_of (selected_df logistics_locations wd) with
  | [] => []
  | _ :: rest => "🏭 DEPOT"%string :: rest
  end.

Definition render (sv : services) (logistics_locations : list location)
    (wd : widgets) (ss : gmap string session_value)
    : gmap string session_value * list message :=
  match selected_destinations logistics_locations wd with
  | [] => (ss, [WarningSelectDestination])
  | _ =>
      let n_selected := length (selected_destinations logistics_locations wd) in
      let tip := if (n_selected =? 1)%nat then [InfoTipSelectMultiple] else [] in
      match get_distance_matrix sv (matrix_coords logistics_locations wd) with
      | Raise e => (ss, tip ++ [ErrorCalculatingDistances e])
      | Ok distance_matrix =>
          let model := build_model distance_matrix (num_vehicles_input wd) n_selected in
          match solve_with_parameters sv model with
          | Some solution =>
              let new_route_data :=
                routes_loop (df_labels logistics_locations wd)
                            (matrix_coords logistics_locations wd)
                            distance_matrix solution
                            (seq 0 (Z.to_nat (num_vehicles_input wd))) in
              let total_distance := sum (List.map (fun kv => distance kv.2) new_route_data) in
              (<[ROUTE_DATA := VRouteData new_route_data]> ss,
               tip ++ List.map (fun kv => VehicleRoute kv.1 kv.2) new_route_data
                   ++ (if (0 <? total_distance)%Z
                       then [MetricTotalFleetDistance total_distance] else [])
                   ++ (match new_route_data with
                       | [] => []
                       | _ => [SuccessRoutesGenerated]
                       end))
          | None =>
              (delete ROUTE_DATA ss, tip ++ [ErrorCouldNotGenerateRoute])
          end
      end
  end.

End route_planner.

(** ** Example inputs

    Small services and inputs on which the functions above are run. *)

Module examples.

(** A north-up raster with one pixel per unit: the row is the integer part
    of [y], the column that of [x]. *)
Definition unit_rowcol (_ : affine) (p : coord) : result (Z * Z) :=
  Ok (Qfloor p.2, Qfloor p.1).

Definition unit_affine : affine := (1, 0, 0, 0, 1, 0).

(** Every external service is unreachable; projections are the identity. *)
Definition offline : services :=
  {| N8N_WEBHOOK_URL := Some "http://n8n/webhook"%string;
     BACKEND_MCP_URL := Some "http://backend:8080/"%string;
     iso_timestamp := fun _ => Ok 0;
     requests_post := fun _ _ _ => Raise RequestException;
     requests_get := fun _ _ => Raise RequestException;
     transform_bounds := fun _ _ b => Ok b;
     transformer_from_crs := fun _ _ => Ok (fun c => Ok c);
     rowcol := unit_rowcol;
     get_directions := fun _ => Raise RequestException;
     get_road_data := fun _ _ _ _ => Raise RequestException;
     get_distance_matrix := fun _ => Raise RequestException;
     solve_with_parameters := fun _ => None |}.

Definition date : string := "2019-11-14T00:00:00".

Definition tile0 : bbox := (0, 0, 1 # 10, 1 # 10).

(** Three selectable places around a depot, as rows of
    [logistics_locations]. *)
Definition locations : list route_planner.location :=
  [ {| route_planner.loc_type := "Depot"; route_planner.loc_name := "Doncaster";
       route_planner.latitude := 535 # 10; route_planner.longitude := -(11 # 10) |};
    {| route_planner.loc_type := "Shop"; route_planner.loc_name := "Thorne";
       route_planner.latitude := 536 # 10; route_planner.longitude := -(96 # 100) |};
    {| route_planner.loc_type := "Shop"; route_planner.loc_name := "Fishlake";
       route_planner.latitude := 5361 # 100; route_planner.longitude := -(1 # 1) |};
    {| route_planner.loc_type := "Shop"; route_planner.loc_name := "Bawtry";
       route_planner.latitude := 5343 # 100; route_planner.longitude := -(102 # 100) |} ].

(** Depot Doncaster, two vehicles, every destination ticked. *)
Definition all_ticked : route_planner.widgets :=
  {| route_planner.depot_label := "Depot - Doncaster";
     route_planner.num_vehicles_input := 2;
     route_planner.checked := fun _ => true |}.

(** Travel costs between a depot and three stops. *)
Definition matrix4 : list (list Z) :=
  [ [0; 900; 1200; 1500];
    [900; 0; 400; 2100];
    [1200; 400; 0; 2300];
    [1500; 2100; 2300; 0] ]%Z.

(** Travel costs between a depot and one stop. *)
Definition matrix2 : list (list Z) := [ [0; 900]; [900; 0] ]%Z.

(** The distance service answers, the solver finds nothing. *)
Definition no_route_found : services :=
  {| N8N_WEBHOOK_URL := N8N_WEBHOOK_URL offline;
     BACKEND_MCP_URL := BACKEND_MCP_URL offline;
     iso_timestamp := iso_timestamp offline;
     requests_post := requests_post offline;
     requests_get := requests_get offline;
     transform_bounds := transform_bounds offline;
     transformer_from_crs := transformer_from_crs offline;
     rowcol := rowcol offline;
     get_directions := get_directions offline;
     get_road_data := get_road_data offline;
     get_distance_matrix := fun _ => Ok matrix4;
     solve_with_parameters := fun _ => None |}.

(** Routes left in the session by an earlier run. *)
Definition stale_routes : flood_detection.route_data_t :=
  [ (0%nat, {| flood_detection.coords := [(-(11 # 10), 535 # 10); (-(1 # 1), 5361 # 100);
                                          (-(11 # 10), 535 # 10)];
               flood_detection.display := ["DEPOT"; "Shop - Fishlake"]%string;
               flood_detection.distance := 2400 |}) ].

(** A 2 x 5 flood raster over [0, 5] x [0, 2] whose only flooded pixel is
    row 0, column 1. *)
Definition flood_pixels : ndarray :=
  [ [0; 1; 0; 0; 0]; [0; 0; 0; 0; 0] ]%Z.

Definition raster1 : raster_data :=
  {| overlay_image := flood_detection.overlay_of flood_pixels;
     bounds := ((0, 0), (2, 5));
     pixels := flood_pixels;
     transform := unit_affine;
     crs := "EPSG:32630" |}.

(** A point on the dry pixel (0, 0), next to the flooded one. *)
Definition dry_point : coord := (1 # 2, 1 # 2).

(** A point on the flooded pixel (0, 1). *)
Definition wet_point : coord := (3 # 2, 1 # 2).

(** A route of one vehicle through the dry point only. *)
Definition dry_route : flood_detection.route_data_t :=
  [ (0%nat, {| flood_detection.coords := [dry_point; dry_point; dry_point];
               flood_detection.display := ["DEPOT"; "Shop - Thorne"]%string;
               flood_detection.distance := 1800 |}) ].

(** A road whose only vertex is the dry point. *)
Definition dry_road : feature :=
  {| geometry_type := "LineString"; coordinates := [dry_point];
     properties := {[ "name"%string := "Fishlake Road"%string ]} |}.



(** The record of a flooded route point at the wet point. *)
Definition wet_segment : flood_detection.affected_segment :=
  {| flood_detection.vehicle := 1; flood_detection.segment := 0;
     flood_detection.coordinate := wet_point; flood_detection.raster_index := 0;
     flood_detection.pixel_coords := (1, 0)%Z; flood_detection.flood_value := 1 |}.

(** The line features made of an Overpass answer (none when the conversion
    raises). *)
Definition features_of (elements : list overpass_element) : list feature :=
  match disaster_management.overpass_to_geojson elements with
  | Ok features => features
  | Raise _ => []
  end.

(** The Overpass answer: one secondary road passing a few metres from the
    wet point. *)
Definition near_elements : list overpass_element :=
  [ {| el_type := Some "way"%string;
       el_geometry := Some [(3 # 2, (1 # 2) + (1 # 10000)); (2, 1)];
       el_tags := Some {[ "name"%string := "Fishlake Road"%string;
                          "highway"%string := "secondary"%string ]};
       el_id := Some "815"%string |} ].

(** Overpass answers with the near road; the rest is unreachable. *)
Definition near_roads : services :=
  {| N8N_WEBHOOK_URL := N8N_WEBHOOK_URL offline;
     BACKEND_MCP_URL := BACKEND_MCP_URL offline;
     iso_timestamp := iso_timestamp offline;
     requests_post := requests_post offline;
     requests_get := requests_get offline;
     transform_bounds := transform_bounds offline;
     transformer_from_crs := transformer_from_crs offline;
     rowcol := rowcol offline;
     get_directions := get_directions offline;
     get_road_data := fun _ _ _ _ => Ok near_elements;
     get_distance_matrix := get_distance_matrix offline;
     solve_with_parameters := solve_with_parameters offline |}.

(** A GeoTIFF over [0, 5] x [0, 2] without any flooded pixel. *)
Definition dry_geotiff : geotiff :=
  {| band1 := [ [0; 0; 0; 0; 0]; [0; 0; 0; 0; 0] ]%Z;
     src_transform := unit_affine;
     src_crs := "EPSG:32630";
     src_bounds := (0, 0, 5, 2) |}.

(** The hazard provider answers every tile with the dry GeoTIFF. *)
Definition dry_provider : services :=
  {| N8N_WEBHOOK_URL := N8N_WEBHOOK_URL offline;
     BACKEND_MCP_URL := BACKEND_MCP_URL offline;
     iso_timestamp := iso_timestamp offline;
     requests_post := fun _ _ _ =>
       Ok {| http_ok := true;
             payload := Some {| status := Some "success"%string;
                                result_url := Some "http://store/flood.tif"%string |} |};
     requests_get := fun _ _ => Ok {| http_ok := true; payload := Some dry_geotiff |};
     transform_bounds := transform_bounds offline;
     transformer_from_crs := transformer_from_crs offline;
     rowcol := rowcol offline;
     get_directions := get_directions offline;
     get_road_data := get_road_data offline;
     get_distance_matrix := get_distance_matrix offline;
     solve_with_parameters := solve_with_parameters offline |}.



End examples.

(** ** Provider calls and cached tiles *)

Definition is_webhook_post (c : call) : bool :=
  match c with WebhookPost _ _ => true | Download _ => false end.

Definition is_download (c : call) : bool :=
  match c with WebhookPost _ _ => false | Download _ => true end.

(** The uncached provider round trip of one tile: the webhook request, then
    the download of the raster it points to. *)
Definition provider_round_trip (sv : services) (b : bbox) (analysis_date : string)
    : M raster_data :=
  url <- flood_detection.request_flood_map_from_n8n sv b analysis_date ;;
  flood_detection.fetch_flood_geotiff sv url.

(** The data held for a tile in the memo table of the lookups, if any. *)
Definition cached_data (w : world) (analysis_date : string) (tile : bbox)
    : option raster_data :=
  mjoin (overlay_cache w !! (tile, analysis_date)).

(** The calls of one lookup of tile [(b, d)]: at most one webhook request,
    for that tile, and at most one download. *)
Definition calls_of_lookup (b : bbox) (d : string) (new : list call) : Prop :=
  (forall c, In c new -> is_webhook_post c = true -> c = WebhookPost b d) /\
  (length (List.filter is_webhook_post new) <= 1)%nat /\
  (length (List.filter is_download new) <= 1)%nat.

(** The process state after a series of tile lookups. *)
Fixpoint lookup_all (sv : services) (keys : list (bbox * string)) (w : world) : world :=
  match keys with
  | [] => w
  | (b, analysis_date) :: rest =>
      lookup_all sv rest
        (snd (flood_detection.get_flood_overlay_from_n8n sv b analysis_date w))
  end.

(** ** Points and pixels *)

(** The WGS84 bounds of a raster contain a coordinate. *)
Definition in_raster_bounds (c : coord) (raster : raster_data) : Prop :=
  let '((south, west), (north, east)) := bounds raster in
  west <= c.1 /\ c.1 <= east /\ south <= c.2 /\ c.2 <= north.

(** The exact pixel of a route coordinate in a raster that contains it is
    pixel [(py, px)], and it is flooded. *)
Definition exact_pixel_flooded (sv : services) (c : coord) (raster : raster_data)
    (py px : Z) : Prop :=
  exists transformer proj,
    transformer_from_crs sv "EPSG:4326" (crs raster) = Ok transformer /\
    in_raster_bounds c raster /\
    transformer c = Ok proj /\
    rowcol sv (transform raster) proj = Ok (py, px) /\
    (0 <= py < shape0 (pixels raster))%Z /\ (0 <= px < shape1 (pixels raster))%Z /\
    pixel_at (pixels raster) py px = 1%Z.

(** A vertex of a road feature falls on pixel [(py, px)] of the flood
    raster. *)
Definition vertex_pixel (sv : services) (transformer : coord -> result coord)
    (flood_pixels : ndarray) (flood_transform : affine) (c : coord) (py px : Z) : Prop :=
  exists proj,
    transformer c = Ok proj /\ rowcol sv flood_transform proj = Ok (py, px) /\
    (0 <= px < shape1 flood_pixels)%Z /\ (0 <= py < shape0 flood_pixels)%Z.

(** Some pixel within 3 pixels of [(py, px)] in each axis, inside the
    raster, is flooded. *)
Definition flooded_within_3 (flood_pixels : ndarray) (py px : Z) : Prop :=
  exists y x,
    (Z.max 0 (py - 3) <= y < Z.min (shape0 flood_pixels) (py + 3 + 1))%Z /\
    (Z.max 0 (px - 3) <= x < Z.min (shape1 flood_pixels) (px + 3 + 1))%Z /\
    pixel_at flood_pixels y x = 1%Z.

(** The exact pixel of some vertex of the feature is flooded. *)
Definition has_flooded_vertex (sv : services) (transformer : coord -> result coord)
    (flood_pixels : ndarray) (flood_transform : affine) (f : feature) : Prop :=
  exists c py px,
    In c (coordinates f) /\
    vertex_pixel sv transformer flood_pixels flood_transform c py px /\
    pixel_at flood_pixels py px = 1%Z.

(** Some vertex of the feature falls on a pixel with a flooded pixel within
    3 pixels. *)
Definition has_near_vertex (sv : services) (transformer : coord -> result coord)
    (flood_pixels : ndarray) (flood_transform : affine) (f : feature) : Prop :=
  exists c py px,
    In c (coordinates f) /\
    vertex_pixel sv transformer flood_pixels flood_transform c py px /\
    flooded_within_3 flood_pixels py px.

(** ** Roads and affected points *)

Section attribution_spec.
Import tabs_disaster_management.









End attribution_spec.



(** ** Rounding up

    [ceil(a / b)] for a positive [b]. *)
Definition ceil_div (a b : Z) : Z := (- ((- a) / b))%Z.


(** ** Further functions and inputs *)

Module more_examples.
Import examples.


(** The payload made of the dry GeoTIFF. *)
Definition dry_raster : raster_data :=
  {| overlay_image := flood_detection.overlay_of (band1 dry_geotiff);
     bounds := ((0, 0), (2, 5));
     pixels := band1 dry_geotiff;
     transform := src_transform dry_geotiff;
     crs := src_crs dry_geotiff |}.

(** One vehicle passing the dry point, then the wet point. *)
Definition wet_route : flood_detection.route_data_t :=
  [ (0%nat, {| flood_detection.coords := [dry_point; wet_point];
               flood_detection.display := [];
               flood_detection.distance := 0 |}) ].

(** The record of the wet point of [wet_route]. *)
Definition wet_record : flood_detection.affected_segment :=
  {| flood_detection.vehicle := 1; flood_detection.segment := 1;
     flood_detection.coordinate := wet_point; flood_detection.raster_index := 0;
     flood_detection.pixel_coords := (1, 0)%Z; flood_detection.flood_value := 1 |}.

(** A way with a geometry and no id. *)
Definition way_without_id : overpass_element :=
  {| el_type := Some "way"%string;
     el_geometry := Some [(3 # 2, 1 # 2)];
     el_tags := Some {[ "name"%string := "Fishlake Road"%string ]};
     el_id := None |}.

Definition ways_without_id : list overpass_element := [way_without_id].

(** The road provider answers with the way that has no id; the rest is
    unreachable. *)
Definition nameless_ways : services :=
  {| N8N_WEBHOOK_URL := N8N_WEBHOOK_URL offline;
     BACKEND_MCP_URL := BACKEND_MCP_URL offline;
     iso_timestamp := iso_timestamp offline;
     requests_post := requests_post offline;
     requests_get := requests_get offline;
     transform_bounds := transform_bounds offline;
     transformer_from_crs := transformer_from_crs offline;
     rowcol := rowcol offline;
     get_directions := get_directions offline;
     get_road_data := fun _ _ _ _ => Ok ways_without_id;
     get_distance_matrix := get_distance_matrix offline;
     solve_with_parameters := solve_with_parameters offline |}.


(** Depot Thorne, the second row of the table; two vehicles, every
    destination ticked. *)
Definition depot_thorne : route_planner.widgets :=
  {| route_planner.depot_label := "Shop - Thorne";
     route_planner.num_vehicles_input := 2;
     route_planner.checked := fun _ => true |}.

(** The distance service answers and the solver sends the first vehicle
    to two stops and the second to the third. *)
Definition route_found : services :=
  {| N8N_WEBHOOK_URL := N8N_WEBHOOK_URL offline;
     BACKEND_MCP_URL := BACKEND_MCP_URL offline;
     iso_timestamp := iso_timestamp offline;
     requests_post := requests_post offline;
     requests_get := requests_get offline;
     transform_bounds := transform_bounds offline;
     transformer_from_crs := transformer_from_crs offline;
     rowcol := rowcol offline;
     get_directions := get_directions offline;
     get_road_data := get_road_data offline;
     get_distance_matrix := fun _ => Ok matrix4;
     solve_with_parameters := fun _ => Some [[1%nat; 2%nat]; [3%nat]] |}.

(** The hazard tab on a run in which "Analyze Route Safety" is clicked
    with the slider at 0.05. *)
Definition analyze_click : tabs_disaster_management.widgets :=
  {| tabs_disaster_management.analysis_date_iso := date;
     tabs_disaster_management.tile_size := 5 # 100;
     tabs_disaster_management.analyze_clicked := true;
     tabs_disaster_management.clear_clicked := false |}.

(** A feature that is a point, not a line. *)
Definition point_feature : feature :=
  {| geometry_type := "Point"; coordinates := [wet_point]; properties := ∅ |}.

(** The directions service answers with the point feature alone; the rest
    is unreachable. *)
Definition points_only : services :=
  {| N8N_WEBHOOK_URL := N8N_WEBHOOK_URL offline;
     BACKEND_MCP_URL := BACKEND_MCP_URL offline;
     iso_timestamp := iso_timestamp offline;
     requests_post := requests_post offline;
     requests_get := requests_get offline;
     transform_bounds := transform_bounds offline;
     transformer_from_crs := transformer_from_crs offline;
     rowcol := rowcol offline;
     get_directions := fun _ => Ok (Some [point_feature]);
     get_road_data := get_road_data offline;
     get_distance_matrix := get_distance_matrix offline;
     solve_with_parameters := solve_with_parameters offline |}.

End more_examples.

(** A record of the improved analysis and a record of the basic analysis
    tell the same: same position, coordinate, pixel and value, and the
    raster of the basic record is the one at the index of the improved
    record. *)
Definition same_record (vehicle_num : nat) (rasters : list raster_data)
    (s : flood_detection.affected_segment) (b : flood_detection.basic_segment) : Prop :=
  flood_detection.vehicle s = vehicle_num /\
  flood_detection.segment s = flood_detection.b_segment b /\
  flood_detection.coordinate s = flood_detection.b_coordinate b /\
  flood_detection.pixel_coords s = flood_detection.b_pixel_coords b /\
  flood_detection.flood_value s = flood_detection.b_flood_value b /\
  nth_error rasters (flood_detection.raster_index s) = Some (flood_detection.b_raster_index b).

(** An element of an Overpass answer that [overpass_to_geojson] turns into a
    feature: a way that carries a geometry. *)
Definition is_way_with_geometry (element : overpass_element) : bool :=
  bool_decide (el_type element = Some "way"%string) &&
  match el_geometry element with Some _ => true | None => false end.

(** The flags the vertex loop of [analyze_road_impact] ends with for a
    feature, read as the class of the feature. *)
Definition is_flooded_road (sv : services) (transformer : coord -> result coord)
    (flood_pixels : ndarray) (flood_transform : affine) (f : feature) : bool :=
  match disaster_management.coords_loop sv transformer flood_pixels flood_transform
          (coordinates f) false with
  | Ok (true, _) => true
  | _ => false
  end.

Definition is_near_flood_road (sv : services) (transformer : coord -> result coord)
    (flood_pixels : ndarray) (flood_transform : affine) (f : feature) : bool :=
  match disaster_management.coords_loop sv transformer flood_pixels flood_transform
          (coordinates f) false with
  | Ok (false, true) => true
  | _ => false
  end.




(** The box [(south, west, north, east)] for which
    [convert_coordinates_to_road_names] asks the road provider: the extent
    of the affected coordinates, widened by 0.005 degrees. *)
Definition road_query_box (c : coord) (cs : list coord) : Q * Q * Q * Q :=
  (fold_left Qmin (List.map snd cs) c.2 - (5 # 1000),
   fold_left Qmin (List.map fst cs) c.1 - (5 # 1000),
   fold_left Qmax (List.map snd cs) c.2 + (5 # 1000),
   fold_left Qmax (List.map fst cs) c.1 + (5 # 1000)).


(** The route of the vehicle visits a stop in the solution. *)
Definition has_stops (solution : assignment) (vehicle_id : nat) : bool :=
  match nth vehicle_id solution [] with [] => false | _ :: _ => true end.

(** The stops dealt out to [k] vehicles, [cap] stops to each as long as
    stops are left. *)
Fixpoint deal (cap : nat) (stops : list nat) (k : nat) : assignment :=
  match k with
  | O => []
  | S k' => firstn cap stops :: deal cap (skipn cap stops) k'
  end.

(** The vehicle has a record in the improved analysis. *)
Definition vehicle_is_affected (sv : services) (rasters : list raster_data)
    (kv : nat * flood_detection.route_info) : bool :=
  match flood_detection.analyze_road_flood_impact_improved sv [kv] rasters with
  | [] => false
  | _ :: _ => true
  end.


(** *** tabs/disaster_management.py: the alternative routes drawn on the
    hazard map *)







(** * Part II: properties *)

(** * Tile grid *)

Section arange_facts.
Variables start stop step : Q.
Hypothesis step_pos : 0 < step.




End arange_facts.




(** * Lists *)

Lemma filter_none {A} (P : A -> bool) (l : list A) :
  (forall x, In x l -> P x = false) -> List.filter P l = [].
Proof.
  induction l as [| x l IH]; intros H; [reflexivity |].
  simpl. rewrite (H x) by (left; reflexivity). apply IH.
  intros y Hy. apply H. right. exact Hy.
Qed.

(** * Hazard tile cache *)

Ltac run_m :=
  unfold bind, lift, raise, ret, try_except in *; simpl in *;
  repeat (case_match; simplify_eq/=).

Section hazard_tile_cache.
Import flood_detection.
Variable sv : services.

Lemma request_body_effect k w r w' :
  request_flood_map_from_n8n_body sv k w = (r, w') ->
  overlay_cache w' = overlay_cache w /\ url_cache w' = url_cache w /\
  (calls w' = calls w \/ calls w' = calls w ++ [WebhookPost k.1 k.2]).
Proof.
  unfold request_flood_map_from_n8n_body. destruct k as [b d]. intros H.
  run_m; auto.
Qed.

Lemma request_effect b d w r w' :
  request_flood_map_from_n8n sv b d w = (r, w') ->
  overlay_cache w' = overlay_cache w /\
  (calls w' = calls w \/ calls w' = calls w ++ [WebhookPost b d]).
Proof.
  unfold request_flood_map_from_n8n, cache_data.
  destruct (url_cache w !! _) as [u|] eqn:Hhit; [intros; simplify_eq; auto |].
  destruct (request_flood_map_from_n8n_body sv (b, d) w) as [[u1|e] w1] eqn:Hb;
    intros; simplify_eq;
    apply request_body_effect in Hb as (? & ? & ?); simpl in *; auto.
Qed.

Lemma fetch_effect url w r w' :
  fetch_flood_geotiff sv url w = (r, w') ->
  overlay_cache w' = overlay_cache w /\ calls w' = calls w ++ [Download url].
Proof.
  unfold fetch_flood_geotiff. intros H. run_m; auto.
Qed.

Lemma calls_of_lookup_cases b d u new :
  new = [] \/ new = [Download u] \/ new = [WebhookPost b d] \/
  new = [WebhookPost b d; Download u] ->
  calls_of_lookup b d new.
Proof.
  intros [-> | [-> | [-> | ->]]]; (split; [| simpl; auto]); simpl;
    intros c Hc Hw; repeat (destruct Hc as [<- | Hc]); try discriminate Hw;
      try reflexivity; destruct Hc.
Qed.

(** The body of the lookup never raises, leaves the table of the lookups
    alone and issues at most one webhook request and one download. *)
Lemma overlay_body_effect b d w r w' :
  get_flood_overlay_from_n8n_body sv (b, d) w = (r, w') ->
  (exists v, r = Ok v) /\ overlay_cache w' = overlay_cache w /\
  exists new, calls w' = calls w ++ new /\ calls_of_lookup b d new.
Proof.
  unfold get_flood_overlay_from_n8n_body, try_except, bind. intros H.
  destruct (request_flood_map_from_n8n sv b d w) as [[u|e] w1] eqn:Hr.
  - apply request_effect in Hr as (Ho1 & Hc1).
    destruct (fetch_flood_geotiff sv u w1) as [[x|e] w2] eqn:Hf;
      apply fetch_effect in Hf as (Ho2 & Hc2).
    + unfold ret in H. simplify_eq. split; [eauto |]. split; [congruence |].
      destruct Hc1 as [Hc1 | Hc1]; rewrite Hc2, Hc1.
      * exists [Download u]. split; [reflexivity |].
        apply (calls_of_lookup_cases b d u). auto.
      * exists [WebhookPost b d; Download u]. rewrite <- app_assoc.
        split; [reflexivity |]. apply (calls_of_lookup_cases b d u). auto.
    + assert (r = Ok None /\ w' = w2) as [-> ->]
        by (destruct e; unfold ret in H; simplify_eq; auto).
      split; [eauto |]. split; [congruence |].
      destruct Hc1 as [Hc1 | Hc1]; rewrite Hc2, Hc1.
      * exists [Download u]. split; [reflexivity |].
        apply (calls_of_lookup_cases b d u). auto.
      * exists [WebhookPost b d; Download u]. rewrite <- app_assoc.
        split; [reflexivity |]. apply (calls_of_lookup_cases b d u). auto.
  - apply request_effect in Hr as (Ho1 & Hc1).
    assert (r = Ok None /\ w' = w1) as [-> ->]
      by (destruct e; unfold ret in H; simplify_eq; auto).
    split; [eauto |]. split; [congruence |].
    destruct Hc1 as [Hc1 | Hc1]; rewrite Hc1.
    + exists []. rewrite app_nil_r. split; [reflexivity |].
      apply (calls_of_lookup_cases b d ""). auto.
    + exists [WebhookPost b d]. split; [reflexivity |].
      apply (calls_of_lookup_cases b d ""). auto.
Qed.

(** A lookup returns a value, which the table then holds for its key; the
    entries already in the table stay; a lookup whose key is in the table
    changes nothing. *)
Lemma lookup_effect b d w r w' :
  get_flood_overlay_from_n8n sv b d w = (r, w') ->
  exists v, r = Ok v /\ overlay_cache w' !! (b, d) = Some v /\
            (forall k x, overlay_cache w !! k = Some x -> overlay_cache w' !! k = Some x) /\
            exists new, calls w' = calls w ++ new /\ calls_of_lookup b d new.
Proof.
  unfold get_flood_overlay_from_n8n, cache_data.
  destruct (overlay_cache w !! _) as [v|] eqn:Hhit.
  - intros. simplify_eq. exists v. repeat split; auto.
    exists []. rewrite app_nil_r. split; [reflexivity |].
    apply (calls_of_lookup_cases b d ""). auto.
  - destruct (get_flood_overlay_from_n8n_body sv (b, d) w) as [r0 w1] eqn:Hb.
    apply overlay_body_effect in Hb as ((v & ->) & Ho & Hnew).
    intros. simplify_eq. exists v. simpl. split; [reflexivity |].
    split; [apply lookup_insert_eq |]. split; [| exact Hnew].
    intros k x Hk. rewrite Ho. destruct (decide ((b, d) = k)) as [<- | Hne].
    + congruence.
    + rewrite lookup_insert_ne by exact Hne. exact Hk.
Qed.

Lemma lookup_hit b d w v :
  overlay_cache w !! (b, d) = Some v ->
  get_flood_overlay_from_n8n sv b d w = (Ok v, w).
Proof.
  intros Hhit. unfold get_flood_overlay_from_n8n, cache_data. rewrite Hhit. reflexivity.
Qed.

(** Once a tile is in the table, later lookups keep it there and send no
    webhook request for it. *)
Lemma lookup_all_keeps keys : forall w b d v,
  overlay_cache w !! (b, d) = Some v ->
  overlay_cache (lookup_all sv keys w) !! (b, d) = Some v /\
  exists new, calls (lookup_all sv keys w) = calls w ++ new /\
              ~ In (WebhookPost b d) new.
Proof.
  induction keys as [| [b' d'] keys IH]; intros w b d v Hhit.
  - split; [exact Hhit |]. exists []. rewrite app_nil_r. auto.
  - cbn [lookup_all].
    destruct (get_flood_overlay_from_n8n sv b' d' w) as [r w1] eqn:Hget. cbn [snd].
    destruct (decide ((b', d') = (b, d))) as [[= -> ->] | Hne].
    + rewrite (lookup_hit b d w v Hhit) in Hget. simplify_eq. apply IH, Hhit.
    + apply lookup_effect in Hget as (v' & _ & _ & Hmono & new1 & Hc1 & Hposts & _).
      destruct (IH w1 b d v (Hmono _ _ Hhit)) as (Hkept & new2 & Hc2 & Hnone).
      split; [exact Hkept |]. exists (new1 ++ new2).
      rewrite Hc2, Hc1, app_assoc. split; [reflexivity |].
      intros [Hin | Hin]%in_app_or; [| exact (Hnone Hin)].
      apply Hposts in Hin; [| reflexivity]. congruence.
Qed.
End hazard_tile_cache.

(** C3.  Two lookups of a hazard tile with the same (bounding box, analysis
    date) key, with any lookups in between: the second returns what the
    first returned and leaves the process state as it was, so it issues no
    provider call; the first issues at most one webhook request and one
    download, and over the whole series at most one webhook request is sent
    for that key. *)
Theorem repeated_lookup_hits_cache (sv : services) (b : bbox)
    (analysis_date : string) (between : list (bbox * string)) (w : world) :
  let first := flood_detection.get_flood_overlay_from_n8n sv b analysis_date w in
  let later := lookup_all sv between (snd first) in
  let second := flood_detection.get_flood_overlay_from_n8n sv b analysis_date later in
  fst second = fst first /\ snd second = later /\
  (exists new, calls (snd first) = calls w ++ new /\
               (length (List.filter is_webhook_post new) <= 1)%nat /\
               (length (List.filter is_download new) <= 1)%nat) /\
  exists new_all,
    calls (snd second) = calls w ++ new_all /\
    (length (List.filter (fun c => bool_decide (c = WebhookPost b analysis_date)) new_all)
     <= 1)%nat.
Proof.
  intros first later second. subst second later.
  destruct first as [r w1] eqn:Hfirst. subst first. cbn [fst snd].
  apply lookup_effect in Hfirst as (v & -> & Hcached & _ & new1 & Hc1 & Hposts & Hw & Hd).
  destruct (lookup_all_keeps sv between w1 b analysis_date v Hcached)
    as (Hkept & new2 & Hc2 & Hnone).
  rewrite (lookup_hit sv b analysis_date _ v Hkept). cbn [fst snd].
  split; [reflexivity |]. split; [reflexivity |]. split; [eauto |].
  exists (new1 ++ new2). rewrite Hc2, Hc1, app_assoc. split; [reflexivity |].
  rewrite List.filter_app, length_app.
  rewrite (filter_none _ new2); cycle 1.
  { intros c Hc. apply bool_decide_eq_false_2. intros ->. exact (Hnone Hc). }
  cbn [length]. rewrite Nat.add_0_r.
  etransitivity; [| exact Hw]. clear. induction new1 as [| c l IH]; [simpl; lia |].
  cbn [List.filter]. destruct (bool_decide (c = WebhookPost b analysis_date)) eqn:E.
  - apply bool_decide_eq_true in E. subst c. cbn [is_webhook_post length]. lia.
  - destruct (is_webhook_post c); cbn [length]; lia.
Qed.

Section tile_loop.
Import flood_detection.
Variable sv : services.
Variable analysis_date : string.

Lemma round_trip_raises b w e w1 :
  provider_round_trip sv b analysis_date w = (Raise e, w1) ->
  get_flood_overlay_from_n8n_body sv (b, analysis_date) w = (Ok None, w1).
Proof.
  unfold provider_round_trip, get_flood_overlay_from_n8n_body, try_except, bind.
  destruct (request_flood_map_from_n8n sv b analysis_date w) as [[u|e1] w2].
  - destruct (fetch_flood_geotiff sv u w2) as [[x|e2] w3]; intros; simplify_eq.
    destruct e; reflexivity.
  - intros. simplify_eq. destruct e; reflexivity.
Qed.

(** The ways a webhook request fails: the request itself raises (network
    failure), the HTTP status is an error, the body is not JSON, its status
    is not "success", or it has no result URL.  Each makes the round trip
    raise. *)
Lemma webhook_failures_raise b w :
  url_cache w !! (b, analysis_date) = None ->
  match requests_post sv (calls w) b analysis_date with
  | Raise _ => True
  | Ok resp =>
      http_ok resp = false \/ payload resp = None \/
      exists data, payload resp = Some data /\
                   (status data <> Some "success"%string \/
                    result_url data = None \/ result_url data = Some ""%string)
  end ->
  exists e w1, provider_round_trip sv b analysis_date w = (Raise e, w1).
Proof.
  intros Hmiss Hfail.
  unfold provider_round_trip, request_flood_map_from_n8n, cache_data, bind at 1.
  rewrite Hmiss. unfold request_flood_map_from_n8n_body.
  destruct (truthy_str (N8N_WEBHOOK_URL sv)); cbn [negb]; [| unfold raise; eauto].
  destruct (truthy_str (BACKEND_MCP_URL sv)); cbn [negb]; [| unfold raise; eauto].
  unfold bind, lift.
  destruct (iso_timestamp sv analysis_date); [| eauto].
  destruct (requests_post sv (calls w) b analysis_date) as [resp | e]; [| eauto].
  destruct Hfail as [-> | [Hp | (data & Hp & Hd)]]; cbn [negb]; [unfold raise; eauto | |].
  - destruct (http_ok resp); cbn [negb]; rewrite ?Hp; unfold raise; eauto.
  - destruct (http_ok resp); cbn [negb]; [| unfold raise; eauto]. rewrite Hp.
    destruct Hd as [Hs | [Hu | Hu]].
    + rewrite bool_decide_eq_false_2 by exact Hs. unfold raise. eauto.
    + rewrite Hu. destruct (bool_decide _); unfold raise; eauto.
    + rewrite Hu. destruct (bool_decide _); unfold raise; eauto.
Qed.

(** The ways a download fails: the request raises, the HTTP status is an
    error, the bytes are no GeoTIFF, or its bounds cannot be transformed. *)
Lemma download_failures_raise b w url w1 :
  request_flood_map_from_n8n sv b analysis_date w = (Ok url, w1) ->
  match requests_get sv (calls w1) url with
  | Raise _ => True
  | Ok resp =>
      http_ok resp = false \/ payload resp = None \/
      exists src err, payload resp = Some src /\
        transform_bounds sv (src_crs src) "EPSG:4326" (src_bounds src) = Raise err
  end ->
  exists e w2, provider_round_trip sv b analysis_date w = (Raise e, w2).
Proof.
  intros Hreq Hfail. unfold provider_round_trip, bind at 1. rewrite Hreq.
  unfold fetch_flood_geotiff, bind, lift.
  destruct (requests_get sv (calls w1) url) as [resp | e]; [| eauto].
  destruct Hfail as [-> | [Hp | (src & err & Hp & Hb)]]; cbn [negb]; [unfold raise; eauto | |].
  - destruct (http_ok resp); cbn [negb]; rewrite ?Hp; unfold raise; eauto.
  - destruct (http_ok resp); cbn [negb]; [| unfold raise; eauto]. rewrite Hp, Hb. eauto.
Qed.

Lemma process_tiles_loop_spec tiles : forall acc w,
  exists w', process_tiles_loop sv tiles analysis_date acc w
               = (Ok (acc ++ omap (cached_data w' analysis_date) tiles), w') /\
             (forall k x, overlay_cache w !! k = Some x -> overlay_cache w' !! k = Some x) /\
             (forall t, In t tiles -> is_Some (overlay_cache w' !! (t, analysis_date))).
Proof.
  induction tiles as [| t rest IH]; intros acc w; simpl.
  - exists w. unfold ret. rewrite app_nil_r. split; [reflexivity |].
    split; [auto | intros t []].
  - unfold bind.
    destruct (get_flood_overlay_from_n8n sv t analysis_date w) as [r w1] eqn:Hget.
    apply lookup_effect in Hget as (v & -> & Hcached & Hmono & _).
    destruct (IH (match v with Some r => acc ++ [r] | None => acc end) w1)
      as (w' & Hloop & Hmono' & Hall).
    exists w'. split; [| split].
    + rewrite Hloop. f_equal. f_equal. unfold cached_data at 2.
      rewrite (Hmono' _ _ Hcached). simpl.
      destruct v; simpl; [rewrite <- app_assoc |]; reflexivity.
    + intros k x Hk. apply Hmono', Hmono, Hk.
    + intros t' [<- | Hin]; [| apply Hall, Hin].
      rewrite (Hmono' _ _ Hcached). eauto.
Qed.
End tile_loop.

(** C4.  A tile lookup whose provider round trip raises (network failure,
    HTTP error, malformed answer, missing field) returns [None] and does not
    raise; the loop over the tiles never raises either: it looks up every
    tile of its list, whatever the earlier tiles gave, and returns, in
    order, the data of the tiles that have some. *)
Theorem failed_tile_is_no_data (sv : services) (analysis_date : string) :
  (forall b w e w1,
      overlay_cache w !! (b, analysis_date) = None ->
      provider_round_trip sv b analysis_date w = (Raise e, w1) ->
      flood_detection.get_flood_overlay_from_n8n sv b analysis_date w
      = (Ok None,
         set_overlay_cache (<[(b, analysis_date) := None]> (overlay_cache w1)) w1)) /\
  (forall tiles w,
      exists rasters w',
        flood_detection.process_flood_tiles sv tiles analysis_date w = (Ok rasters, w') /\
        (forall t, In t tiles -> is_Some (overlay_cache w' !! (t, analysis_date))) /\
        rasters = omap (cached_data w' analysis_date) tiles).
Proof.
  split.
  - intros b w e w1 Hmiss Hfail.
    unfold flood_detection.get_flood_overlay_from_n8n, cache_data.
    rewrite Hmiss, (round_trip_raises sv analysis_date b w e w1 Hfail). reflexivity.
  - intros tiles w. unfold flood_detection.process_flood_tiles.
    destruct tiles as [| t rest].
    + exists [], w. split; [reflexivity |]. split; [intros t [] | reflexivity].
    + destruct (process_tiles_loop_spec sv analysis_date (t :: rest) [] w)
        as (w' & Hloop & _ & Hall).
      eexists _, w'. split; [exact Hloop |]. split; [exact Hall | reflexivity].
Qed.

Lemma failed_tile_is_no_data_witness :
  flood_detection.get_flood_overlay_from_n8n examples.offline examples.tile0
    examples.date empty_world
  = (Ok None,
     set_overlay_cache
       (<[(examples.tile0, examples.date) := None]>
          (overlay_cache (log_call (WebhookPost examples.tile0 examples.date) empty_world)))
       (log_call (WebhookPost examples.tile0 examples.date) empty_world)).
Proof.
  apply (proj1 (failed_tile_is_no_data examples.offline examples.date)
               examples.tile0 empty_world RequestException);
    reflexivity.
Defined.

(** * Vehicle routing model *)

Section routing_model_facts.
Import route_planner.

Lemma sum_demands n : sum (0%Z :: repeat 1%Z n) = Z.of_nat n.
Proof.
  unfold sum. cbn [fold_right].
  assert (fold_right Z.add 0%Z (repeat 1%Z n) = Z.of_nat n) as ->; [| lia].
  induction n as [| n IH]; [reflexivity |].
  cbn [repeat fold_right]. rewrite IH. lia.
Qed.

Lemma ceil_div_floor (a b : Z) :
  (0 < b)%Z ->
  (a mod b = 0 -> ceil_div a b = a / b)%Z /\
  (a mod b <> 0 -> ceil_div a b = a / b + 1)%Z.
Proof.
  intros Hb. unfold ceil_div. split; intros Hm.
  - rewrite Z.div_opp_l_z by lia. lia.
  - rewrite Z.div_opp_l_nz by lia. lia.
Qed.
End routing_model_facts.

(** C5, as the code has it.  With more than one selected stop (and at least
    one vehicle) every vehicle's capacity is the total non-depot demand
    divided by the vehicle count rounded DOWN, plus one.  That is the
    rounded-up quotient when the count does not divide the demand, and the
    rounded-up quotient plus one only when it does. *)
Theorem vehicle_capacity_floor_plus_one (distance_matrix : list (list Z))
    (num_vehicles : Z) (n_selected : nat) :
  (1 < n_selected)%nat -> (1 <= num_vehicles)%Z ->
  let m := route_planner.build_model distance_matrix num_vehicles n_selected in
  let total_demand := route_planner.sum (demands m) in
  total_demand = Z.of_nat (length distance_matrix - 1) /\
  vehicle_capacities m
    = repeat (total_demand / num_vehicles + 1)%Z (Z.to_nat num_vehicles) /\
  (total_demand mod num_vehicles <> 0 ->
     total_demand / num_vehicles + 1 = ceil_div total_demand num_vehicles)%Z /\
  (total_demand mod num_vehicles = 0 ->
     total_demand / num_vehicles + 1 = ceil_div total_demand num_vehicles + 1)%Z.
Proof.
  intros Hsel Hv m total_demand.
  assert (Htot : total_demand = Z.of_nat (length distance_matrix - 1))
    by apply sum_demands.
  split; [exact Htot |].
  assert (Hq : (0 <= total_demand / num_vehicles)%Z)
    by (apply Z.div_pos; lia).
  destruct (ceil_div_floor total_demand num_vehicles) as [Hz Hnz]; [lia |].
  split; [| split; intros Hm; [rewrite (Hnz Hm) | rewrite (Hz Hm)]; reflexivity].
  unfold m, route_planner.build_model. cbn [vehicle_capacities].
  destruct (n_selected =? 1)%nat eqn:E; [apply Nat.eqb_eq in E; lia |].
  change (route_planner.sum (0%Z :: repeat 1%Z (length distance_matrix - 1)))
    with total_demand.
  f_equal. lia.
Qed.

Lemma vehicle_capacity_floor_plus_one_witness :
  let m := route_planner.build_model examples.matrix4 2 3 in
  let total_demand := route_planner.sum (demands m) in
  total_demand = Z.of_nat (length examples.matrix4 - 1) /\
  vehicle_capacities m = repeat (total_demand / 2 + 1)%Z (Z.to_nat 2) /\
  (total_demand mod 2 <> 0 -> total_demand / 2 + 1 = ceil_div total_demand 2)%Z /\
  (total_demand mod 2 = 0 -> total_demand / 2 + 1 = ceil_div total_demand 2 + 1)%Z.
Proof.
  apply (vehicle_capacity_floor_plus_one examples.matrix4 2 3); lia.
Defined.

(** C5, as the claim has it, fails: three stops and two vehicles give each
    vehicle the capacity 2, and the rounded-up quotient plus one is 3. *)
Lemma vehicle_capacity_not_ceil_plus_one :
  let m := route_planner.build_model examples.matrix4 2 3 in
  route_planner.sum (demands m) = 3%Z /\
  vehicle_capacities m = [2; 2]%Z /\
  (ceil_div (route_planner.sum (demands m)) (num_vehicles m) + 1 = 3)%Z /\
  ~ Forall (fun c => c = ceil_div (route_planner.sum (demands m)) (num_vehicles m) + 1)%Z
           (vehicle_capacities m).
Proof.
  cbv zeta. repeat split; try reflexivity.
  intros H. apply Forall_inv in H. vm_compute in H. discriminate H.
Qed.

Section single_stop.
Import route_planner.

Lemma demand_le_1 n i : (nth i (0%Z :: repeat 1%Z n) 0 <= 1)%Z.
Proof.
  destruct i as [| i]; [simpl; lia |]. simpl.
  destruct (nth_in_or_default i (repeat 1%Z n) 0%Z) as [Hin | ->]; [| lia].
  apply repeat_spec in Hin. lia.
Qed.

Lemma load_le_length n (stops : list nat) :
  (fold_right Z.add 0
     (List.map (fun i => nth i (0%Z :: repeat 1%Z n) 0%Z) stops)
   <= Z.of_nat (length stops))%Z.
Proof.
  induction stops as [| s stops IH]; [simpl; lia |].
  cbn [List.map fold_right length]. pose proof (demand_le_1 n s). lia.
Qed.

(** Distinct numbers below [n] are at most [n]. *)
Lemma NoDup_below_length (l : list nat) (n : nat) :
  NoDup l -> (forall x, In x l -> (x < n)%nat) -> (length l <= n)%nat.
Proof.
  intros Hnd Hlt.
  assert (length (seq 0 n) = n) as Hn by apply List.length_seq.
  rewrite <- Hn at 1.
  apply List.NoDup_incl_length; [apply NoDup_ListNoDup, Hnd |].
  intros x Hx. apply in_seq. specialize (Hlt x Hx). lia.
Qed.

(** A duplicate-free list of ones that holds a one is [[1]]. *)
Lemma only_ones (l : list nat) :
  NoDup l -> (forall x, In x l -> x = 1%nat) -> In 1%nat l -> l = [1%nat].
Proof.
  intros Hnd Hone Hin. destruct l as [| x [| y l]].
  - destruct Hin.
  - rewrite (Hone x) by (left; reflexivity). reflexivity.
  - exfalso. assert (x = 1%nat) by (apply Hone; simpl; auto).
    assert (y = 1%nat) by (apply Hone; simpl; auto). subst.
    apply NoDup_cons in Hnd as [Hnotin _]. apply Hnotin. left.
Qed.
End single_stop.

(** C7.  With exactly one selected stop no disjunction is added and every
    vehicle's capacity is the number of nodes, which no route of distinct
    nodes can exceed.  With two nodes and two vehicles every solution of the
    model serves the stop with one vehicle and leaves the other at the
    depot, and exactly one route is kept. *)
Theorem single_stop_relaxed (distance_matrix : list (list Z)) (num_vehicles : Z) :
  let m := route_planner.build_model distance_matrix num_vehicles 1 in
  disjunctions m = [] /\
  (distance_matrix <> [] ->
     vehicle_capacities m = repeat (Z.of_nat (num_nodes m)) (Z.to_nat num_vehicles) /\
     forall stops, NoDup stops -> (forall s, In s stops -> (s < num_nodes m)%nat) ->
                   (route_load m stops <= Z.of_nat (num_nodes m))%Z) /\
  (length distance_matrix = 2%nat -> num_vehicles = 2%Z ->
     forall sol, feasible m sol = true ->
       (sol = [[1%nat]; []] \/ sol = [[]; [1%nat]]) /\
       forall labels matrix_coords,
         length (route_planner.routes_loop labels matrix_coords distance_matrix sol
                   (seq 0 (Z.to_nat num_vehicles))) = 1%nat).
Proof.
  intros m. split; [reflexivity |]. split.
  - intros Hne.
    assert (Hlen : length (demands m) = num_nodes m).
    { unfold m. simpl. rewrite repeat_length.
      destruct distance_matrix; [congruence | simpl; lia]. }
    split.
    + unfold m at 1. unfold route_planner.build_model. cbn [vehicle_capacities].
      simpl Nat.eqb. cbv iota. f_equal. f_equal. exact Hlen.
    + intros stops Hnd Hlt. unfold route_load.
      change (demands m) with (0%Z :: repeat 1%Z (length distance_matrix - 1)).
      change (depot m) with 0%nat. cbn [List.map fold_right].
      change (nth 0 (0%Z :: repeat 1%Z (length distance_matrix - 1)) 0%Z) with 0%Z.
      pose proof (load_le_length (length distance_matrix - 1) stops).
      pose proof (NoDup_below_length stops (num_nodes m) Hnd Hlt). lia.
  - intros Hlen -> sol Hfeas.
    destruct distance_matrix as [| r1 [| r2 [| ? ?]]]; try discriminate Hlen.
    unfold feasible in Hfeas. subst m. cbn in Hfeas.
    rewrite !andb_true_iff in Hfeas.
    destruct Hfeas as ((((Hl & Hnodes) & Hnd) & Hvisit) & _).
    apply bool_decide_eq_true in Hnd.
    destruct Hvisit as [Hvisit _].
    apply bool_decide_eq_true, list_elem_of_In in Hvisit.
    rewrite forallb_forall in Hnodes.
    assert (Hones : forall x, In x (concat sol) -> x = 1%nat).
    { intros x Hx. apply Hnodes in Hx. apply andb_true_iff in Hx as [H0 H2].
      apply negb_true_iff, Nat.eqb_neq in H0. apply Nat.leb_le in H2. lia. }
    pose proof (only_ones (concat sol) Hnd Hones Hvisit) as Hcat.
    apply Z.eqb_eq in Hl.
    destruct sol as [| a [| b [| ? ?]]]; try (cbn [length] in Hl; lia).
    simpl in Hcat. rewrite app_nil_r in Hcat.
    destruct a as [| x a].
    + simpl in Hcat. subst b. split; [right; reflexivity | reflexivity].
    + injection Hcat as -> Hab. apply app_eq_nil in Hab as [-> ->].
      split; [left; reflexivity | reflexivity].
Qed.

Lemma single_stop_relaxed_witness :
  ([[1%nat]; []] = [[1%nat]; []] \/ [[1%nat]; []] = [[]; [1%nat]]) /\
  forall labels matrix_coords,
    length (route_planner.routes_loop labels matrix_coords examples.matrix2
              [[1%nat]; []] (seq 0 (Z.to_nat 2))) = 1%nat.
Proof.
  apply (proj2 (proj2 (single_stop_relaxed examples.matrix2 2)));
    reflexivity.
Defined.

(** * Session state after the solver *)

(** C10.  When destinations are selected, the distance matrix was obtained
    and the solver returns no solution, the route planner reports the
    failure and leaves no ["route_data"] in the session state (the other
    keys stay as they were); the hazard tab then only asks for a route:
    it analyses nothing, calls no service and changes nothing. *)
Theorem no_solution_clears_route_data (sv : services)
    (logistics_locations : list route_planner.location)
    (wd : route_planner.widgets) (ss : gmap string session_value)
    (distance_matrix : list (list Z)) :
  route_planner.selected_destinations logistics_locations wd <> [] ->
  get_distance_matrix sv (route_planner.matrix_coords logistics_locations wd)
    = Ok distance_matrix ->
  solve_with_parameters sv
    (route_planner.build_model distance_matrix (route_planner.num_vehicles_input wd)
       (length (route_planner.selected_destinations logistics_locations wd)))
    = None ->
  let after := route_planner.render sv logistics_locations wd ss in
  In route_planner.ErrorCouldNotGenerateRoute (snd after) /\
  fst after !! ROUTE_DATA = None /\
  (forall k, k <> ROUTE_DATA -> fst after !! k = ss !! k) /\
  forall sv' wd' w,
    tabs_disaster_management.render_improved_hazard_analysis sv' wd' (fst after) w
    = (Ok (fst after, [tabs_disaster_management.InfoGenerateRouteFirst],
           tabs_disaster_management.Finished), w).
Proof.
  intros Hsel Hdm Hsolve after.
  assert (Hafter : after =
            (delete ROUTE_DATA ss,
             (if (length (route_planner.selected_destinations logistics_locations wd) =? 1)%nat
              then [route_planner.InfoTipSelectMultiple] else [])
             ++ [route_planner.ErrorCouldNotGenerateRoute])).
  { unfold after, route_planner.render.
    destruct (route_planner.selected_destinations logistics_locations wd) eqn:E;
      [congruence |].
    rewrite Hdm, Hsolve. reflexivity. }
  rewrite Hafter. cbn [fst snd]. split; [| split; [| split]].
  - apply in_or_app. right. left. reflexivity.
  - apply lookup_delete_eq.
  - intros k Hk. apply lookup_delete_ne. congruence.
  - intros sv' wd' w. unfold tabs_disaster_management.render_improved_hazard_analysis.
    rewrite lookup_delete_eq. reflexivity.
Qed.

Lemma no_solution_clears_route_data_witness :
  let ss : gmap string session_value :=
    {[ ROUTE_DATA := VRouteData examples.stale_routes ]} in
  let after := route_planner.render examples.no_route_found examples.locations
                 examples.all_ticked ss in
  In route_planner.ErrorCouldNotGenerateRoute (snd after) /\
  fst after !! ROUTE_DATA = None /\
  (forall k, k <> ROUTE_DATA -> fst after !! k = ss !! k) /\
  forall sv' wd' w,
    tabs_disaster_management.render_improved_hazard_analysis sv' wd' (fst after) w
    = (Ok (fst after, [tabs_disaster_management.InfoGenerateRouteFirst],
           tabs_disaster_management.Finished), w).
Proof.
  intros ss.
  apply (no_solution_clears_route_data examples.no_route_found examples.locations
           examples.all_ticked ss examples.matrix4);
    [vm_compute; discriminate | reflexivity | reflexivity].
Defined.

(** * Route intersection analysis *)

Section route_intersection.
Import flood_detection.
Variable sv : services.

Lemma Qleb_le x y : Qleb x y = true <-> x <= y.
Proof. apply Qle_bool_iff. Qed.

(** The body of the [try] reports a flooded pixel exactly when the exact
    pixel of the coordinate in that raster is flooded. *)
Lemma probe_flooded_iff c raster px py v :
  probe_raster sv c raster = Ok (Flooded px py v) <->
  exact_pixel_flooded sv c raster py px /\ v = 1%Z.
Proof.
  unfold probe_raster, exact_pixel_flooded, in_raster_bounds.
  destruct c as [lon lat]. destruct (bounds raster) as [[south west] [north east]].
  cbn [fst snd]. split.
  - destruct (transformer_from_crs sv _ (crs raster)) as [transformer | e] eqn:Htr;
      [| discriminate].
    destruct (Qleb west lon && Qleb lon east && Qleb south lat && Qleb lat north)
      eqn:Hb; cbn [negb]; [| discriminate].
    rewrite !andb_true_iff, !Qleb_le in Hb. destruct Hb as (((? & ?) & ?) & ?).
    destruct (transformer (lon, lat)) as [proj | e] eqn:Hproj; [| discriminate].
    destruct (rowcol sv (transform raster) proj) as [[py' px'] | e] eqn:Hrc;
      [| discriminate].
    destruct ((0 <=? py')%Z && (py' <? shape0 (pixels raster))%Z &&
              (0 <=? px')%Z && (px' <? shape1 (pixels raster))%Z) eqn:Hv;
      [| discriminate].
    destruct (pixel_at (pixels raster) py' px' =? 1)%Z eqn:Hp; [| discriminate].
    intros [= <- <- <-]. apply Z.eqb_eq in Hp.
    rewrite !andb_true_iff, !Z.leb_le, !Z.ltb_lt in Hv.
    destruct Hv as (((? & ?) & ?) & ?).
    split; [| exact Hp]. exists transformer, proj.
    repeat split; auto; lia.
  - intros [(transformer & proj & -> & (? & ? & ? & ?) & Hproj & Hrc & ? & ? & Hp) ->].
    assert (Qleb west lon && Qleb lon east && Qleb south lat && Qleb lat north = true) as ->
      by (rewrite !andb_true_iff, !Qleb_le; auto).
    cbn [negb]. rewrite Hproj, Hrc.
    assert ((0 <=? py)%Z && (py <? shape0 (pixels raster))%Z &&
            (0 <=? px)%Z && (px <? shape1 (pixels raster))%Z = true) as ->
      by (rewrite !andb_true_iff, !Z.leb_le, !Z.ltb_lt; repeat split; lia).
    rewrite Hp. reflexivity.
Qed.

(** The loop over the rasters stops at the first raster in which the exact
    pixel is flooded, and reports that raster. *)
Lemma scan_rasters_some c rasters : forall k idx raster px py v,
  scan_rasters sv c rasters k = Some (idx, raster, (px, py), v) ->
  exists pre post,
    rasters = pre ++ raster :: post /\ idx = (k + length pre)%nat /\
    (forall r y x, In r pre -> ~ exact_pixel_flooded sv c r y x) /\
    exact_pixel_flooded sv c raster py px /\ v = 1%Z.
Proof.
  induction rasters as [| r rest IH]; intros k idx raster px py v; [discriminate |].
  cbn [scan_rasters].
  destruct (probe_raster sv c r) as [[px0 py0 v0 |] | e] eqn:Hprobe.
  - intros [= <- <- <- <- <-]. apply probe_flooded_iff in Hprobe as [Hf ->].
    exists [], rest. split; [reflexivity |]. split; [simpl; lia |].
    split; [intros ? ? ? [] |]. split; [exact Hf | reflexivity].
  - intros H. apply IH in H as (pre & post & -> & -> & Hpre & Hf & ->).
    exists (r :: pre), post. split; [reflexivity |]. split; [simpl; lia |].
    split; [| split; [exact Hf | reflexivity]].
    intros r' y x [<- | Hin] Hfl; [| exact (Hpre _ _ _ Hin Hfl)].
    assert (probe_raster sv c r = Ok (Flooded x y 1)) as Hc
      by (apply probe_flooded_iff; auto).
    congruence.
  - intros H. apply IH in H as (pre & post & -> & -> & Hpre & Hf & ->).
    exists (r :: pre), post. split; [reflexivity |]. split; [simpl; lia |].
    split; [| split; [exact Hf | reflexivity]].
    intros r' y x [<- | Hin] Hfl; [| exact (Hpre _ _ _ Hin Hfl)].
    assert (probe_raster sv c r = Ok (Flooded x y 1)) as Hc
      by (apply probe_flooded_iff; auto).
    congruence.
Qed.

Lemma scan_rasters_none c rasters : forall k,
  scan_rasters sv c rasters k = None ->
  forall r y x, In r rasters -> ~ exact_pixel_flooded sv c r y x.
Proof.
  induction rasters as [| r rest IH]; intros k Hscan r' y x; [intros [] |].
  cbn [scan_rasters] in Hscan. intros [<- | Hin] Hfl.
  - assert (probe_raster sv c r = Ok (Flooded x y 1)) as Hc
      by (apply probe_flooded_iff; auto).
    rewrite Hc in Hscan. discriminate.
  - destruct (probe_raster sv c r) as [[? ? ? |] | e]; [discriminate | |];
      exact (IH _ Hscan _ _ _ Hin Hfl).
Qed.

(** The records of the basic loop are numbered from [i] on, in order. *)
Lemma basic_loop_segment_ge cs rasters : forall i s,
  In s (basic_loop sv cs i rasters) -> (i <= b_segment s)%nat.
Proof.
  induction cs as [| c cs IH]; intros i s; [intros [] |].
  cbn [basic_loop]. destruct (scan_rasters sv c rasters 0) as [[[[? ?] ?] ?] |].
  - intros [<- | Hin]; [simpl; lia | apply IH in Hin; lia].
  - intros Hin. apply IH in Hin. lia.
Qed.

(** The records kept for the coordinate at position [j]. *)
Lemma basic_loop_at cs rasters : forall i j c,
  nth_error cs j = Some c ->
  List.filter (fun s => (b_segment s =? i + j)%nat) (basic_loop sv cs i rasters)
  = match scan_rasters sv c rasters 0 with
    | Some (_, raster, pc, v) =>
        [{| b_segment := (i + j)%nat; b_coordinate := c; b_raster_index := raster;
            b_pixel_coords := pc; b_flood_value := v |}]
    | None => []
    end.
Proof.
  induction cs as [| c0 cs IH]; intros i j c Hj; [destruct j; discriminate |].
  cbn [basic_loop]. destruct j as [| j].
  - injection Hj as ->. rewrite Nat.add_0_r.
    assert (Hrest : List.filter (fun s => (b_segment s =? i)%nat)
                      (basic_loop sv cs (S i) rasters) = []).
    { apply filter_none. intros s Hs. apply basic_loop_segment_ge in Hs.
      apply Nat.eqb_neq. lia. }
    destruct (scan_rasters sv c rasters 0) as [[[[? ?] ?] ?] |].
    + cbn [List.filter b_segment]. rewrite Nat.eqb_refl, Hrest. reflexivity.
    + exact Hrest.
  - cbn [nth_error] in Hj. specialize (IH (S i) j c Hj).
    replace (S i + j)%nat with (i + S j)%nat in IH by lia.
    destruct (scan_rasters sv c0 rasters 0) as [[[[? ?] ?] ?] |]; [| exact IH].
    cbn [List.filter b_segment].
    destruct (i =? i + S j)%nat eqn:E; [apply Nat.eqb_eq in E; lia | exact IH].
Qed.

(** Every record of the improved analysis is an exact-pixel hit. *)
Lemma improved_loop_hits vehicle_num cs rasters : forall i seg,
  In seg (improved_loop sv vehicle_num cs i rasters) ->
  exists raster,
    nth_error rasters (raster_index seg) = Some raster /\
    exact_pixel_flooded sv (coordinate seg) raster (pixel_coords seg).2 (pixel_coords seg).1 /\
    flood_value seg = 1%Z.
Proof.
  induction cs as [| c cs IH]; intros i seg; [intros [] |].
  cbn [improved_loop].
  destruct (scan_rasters sv c rasters 0) as [[[[idx r] [px py]] v] |] eqn:Hscan;
    [| apply IH].
  intros [<- | Hin]; [| exact (IH _ _ Hin)].
  apply scan_rasters_some in Hscan as (pre & post & -> & -> & _ & Hf & ->).
  exists r. cbn. split; [| auto].
  rewrite nth_error_app2 by lia. rewrite Nat.sub_diag. reflexivity.
Qed.
End route_intersection.

(** * Road-feature impact *)

Lemma zrange_In (lo hi y : Z) : In y (zrange lo hi) <-> (lo <= y < hi)%Z.
Proof.
  unfold zrange. rewrite in_map_iff. split.
  - intros (i & <- & Hi). apply in_seq in Hi. lia.
  - intros Hy. exists (Z.to_nat (y - lo)). split; [lia | apply in_seq; lia].
Qed.

(** The clamped slice test is the neighbourhood of the claim. *)
Lemma near_flood_at_spec (flood_pixels : ndarray) (py px : Z) :
  disaster_management.near_flood_at flood_pixels py px = true <->
  flooded_within_3 flood_pixels py px.
Proof.
  unfold disaster_management.near_flood_at, any_eq_1, flooded_within_3,
    disaster_management.buffer.
  rewrite existsb_exists. split.
  - intros (y & Hy & Hrow). apply existsb_exists in Hrow as (x & Hx & Hp).
    apply zrange_In in Hy. apply zrange_In in Hx. apply Z.eqb_eq in Hp.
    exists y, x. auto.
  - intros (y & x & Hy & Hx & Hp). exists y. split; [apply zrange_In, Hy |].
    apply existsb_exists. exists x. split; [apply zrange_In, Hx |].
    apply Z.eqb_eq, Hp.
Qed.

Section road_impact.
Import disaster_management.
Variable sv : services.
Variable transformer : coord -> result coord.
Variable flood_pixels : ndarray.
Variable flood_transform : affine.

Let vertex := vertex_pixel sv transformer flood_pixels flood_transform.
Let loop := coords_loop sv transformer flood_pixels flood_transform.

Lemma in_range_iff (py px : Z) :
  (0 <=? px)%Z && (px <? shape1 flood_pixels)%Z &&
  (0 <=? py)%Z && (py <? shape0 flood_pixels)%Z = true <->
  (0 <= px < shape1 flood_pixels)%Z /\ (0 <= py < shape0 flood_pixels)%Z.
Proof. rewrite !andb_true_iff, !Z.leb_le, !Z.ltb_lt. tauto. Qed.

Lemma coords_loop_step c rest is_near :
  (exists e, loop (c :: rest) is_near = Raise e) \/
  (loop (c :: rest) is_near = loop rest is_near /\ forall py px, ~ vertex c py px) \/
  (exists py px, vertex c py px /\ pixel_at flood_pixels py px = 1%Z /\
                 loop (c :: rest) is_near = Ok (true, is_near)) \/
  (exists py px, vertex c py px /\ pixel_at flood_pixels py px <> 1%Z /\
                 (forall py' px', vertex c py' px' -> py' = py /\ px' = px) /\
                 loop (c :: rest) is_near
                 = loop rest (if near_flood_at flood_pixels py px then true else is_near)).
Proof.
  unfold loop, vertex, vertex_pixel. cbn [coords_loop].
  destruct (transformer c) as [proj | e] eqn:Hproj; [| left; eauto].
  destruct (rowcol sv flood_transform proj) as [[py px] | e] eqn:Hrc.
  - destruct ((0 <=? px)%Z && (px <? shape1 flood_pixels)%Z &&
              (0 <=? py)%Z && (py <? shape0 flood_pixels)%Z) eqn:Hr.
    + apply in_range_iff in Hr as [Hx Hy].
      destruct (pixel_at flood_pixels py px =? 1)%Z eqn:Hp.
      * apply Z.eqb_eq in Hp. right; right; left. exists py, px.
        split; [exists proj; auto | auto].
      * apply Z.eqb_neq in Hp. right; right; right. exists py, px.
        split; [exists proj; auto |]. split; [exact Hp |]. split; [| reflexivity].
        intros py' px' (proj' & Hproj' & Hrc' & _). split; congruence.
    + right; left. split; [reflexivity |].
      intros py' px' (proj' & Hproj' & Hrc' & Hin).
      assert (py' = py /\ px' = px) as [-> ->] by (split; congruence).
      apply in_range_iff in Hin. congruence.
  - destruct e; [left; eauto | left; eauto | | left; eauto].
    right; left. split; [reflexivity |].
    intros py' px' (proj' & Hproj' & Hrc' & _). congruence.
Qed.

(** A flooded vertex makes the feature flooded, whatever was seen before
    it. *)
Lemma coords_loop_flooded cs : forall is_near fl nr,
  loop cs is_near = Ok (fl, nr) ->
  (exists c py px, In c cs /\ vertex c py px /\ pixel_at flood_pixels py px = 1%Z) ->
  fl = true.
Proof.
  induction cs as [| c rest IH]; intros is_near fl nr Hloop (c' & py & px & Hin & Hv & Hp);
    [destruct Hin |].
  destruct (coords_loop_step c rest is_near)
    as [(e & He) | [(Hskip & Hno) | [(py0 & px0 & _ & _ & Hbreak)
                                    | (py0 & px0 & Hv0 & Hdry & Huniq & Hnext)]]].
  - congruence.
  - rewrite Hskip in Hloop. destruct Hin as [<- | Hin]; [destruct (Hno _ _ Hv) |].
    apply (IH _ _ _ Hloop). eauto 6.
  - congruence.
  - rewrite Hnext in Hloop. destruct Hin as [<- | Hin].
    + destruct (Huniq _ _ Hv) as [-> ->]. contradiction.
    + apply (IH _ _ _ Hloop). eauto 6.
Qed.

(** Without a flooded vertex the feature is not flooded, and it is near a
    flood exactly when some vertex has a flooded pixel within 3 pixels. *)
Lemma coords_loop_dry cs : forall is_near fl nr,
  loop cs is_near = Ok (fl, nr) ->
  (forall c py px, In c cs -> vertex c py px -> pixel_at flood_pixels py px <> 1%Z) ->
  fl = false /\
  (nr = true <->
   is_near = true \/
   exists c py px, In c cs /\ vertex c py px /\ flooded_within_3 flood_pixels py px).
Proof.
  induction cs as [| c rest IH]; intros is_near fl nr Hloop Hdry.
  - unfold loop in Hloop. simpl in Hloop. injection Hloop as <- <-.
    split; [reflexivity |]. split; [auto |].
    intros [? | (? & ? & ? & [] & _)]; assumption.
  - assert (Hdry' : forall c0 py px, In c0 rest -> vertex c0 py px ->
                                     pixel_at flood_pixels py px <> 1%Z)
      by (intros; eapply Hdry; [right |]; eassumption).
    destruct (coords_loop_step c rest is_near)
      as [(e & He) | [(Hskip & Hno) | [(py0 & px0 & Hv0 & Hp0 & _)
                                      | (py0 & px0 & Hv0 & _ & Huniq & Hnext)]]].
    + congruence.
    + rewrite Hskip in Hloop. destruct (IH _ _ _ Hloop Hdry') as [-> Hiff].
      split; [reflexivity |]. rewrite Hiff. split.
      * intros [? | (c0 & py & px & Hin & Hv & Hw)]; [auto |].
        right. exists c0, py, px. simpl. auto.
      * intros [? | (c0 & py & px & [<- | Hin] & Hv & Hw)]; [auto | |].
        -- destruct (Hno _ _ Hv).
        -- right. eauto 6.
    + destruct (Hdry c py0 px0 (or_introl eq_refl) Hv0 Hp0).
    + rewrite Hnext in Hloop. destruct (IH _ _ _ Hloop Hdry') as [-> Hiff].
      split; [reflexivity |]. rewrite Hiff. split.
      * intros [Hn | (c0 & py & px & Hin & Hv & Hw)].
        -- destruct (near_flood_at flood_pixels py0 px0) eqn:Hnear; [| auto].
           right. exists c, py0, px0. split; [left; reflexivity |].
           split; [exact Hv0 | apply near_flood_at_spec, Hnear].
        -- right. exists c0, py, px. simpl. auto.
      * intros [-> | (c0 & py & px & [<- | Hin] & Hv & Hw)].
        -- left. destruct (near_flood_at flood_pixels py0 px0); reflexivity.
        -- destruct (Huniq _ _ Hv) as [-> ->].
           apply near_flood_at_spec in Hw. rewrite Hw. auto.
        -- right. eauto 6.
Qed.

(** What the loop over the features appends to its two lists. *)
Lemma features_loop_spec features : forall affected near affected' near',
  features_loop sv transformer flood_pixels flood_transform features affected near
    = Ok (affected', near') ->
  (forall f, In f features -> exists fl nr, loop (coordinates f) false = Ok (fl, nr)) /\
  (forall f, In f affected' <->
             In f affected \/
             (In f features /\ exists nr, loop (coordinates f) false = Ok (true, nr))) /\
  (forall f, In f near' <->
             In f near \/
             (In f features /\ loop (coordinates f) false = Ok (false, true))).
Proof.
  induction features as [| f0 rest IH]; intros affected near affected' near' H.
  - simpl in H. injection H as <- <-. split; [intros ? [] |].
    split; intros f; (split; [auto | intros [? | [[] _]]; assumption]).
  - cbn [features_loop] in H. fold loop in H.
    destruct (loop (coordinates f0) false) as [[fl nr] | e] eqn:Hf0; [| discriminate].
    assert (Hcase :
      exists a n, features_loop sv transformer flood_pixels flood_transform rest a n
                    = Ok (affected', near') /\
        (forall f, In f a <-> In f affected \/ (f = f0 /\ fl = true)) /\
        (forall f, In f n <-> In f near \/ (f = f0 /\ fl = false /\ nr = true))).
    { destruct fl; [| destruct nr].
      - exists (affected ++ [f0]), near. split; [exact H |]. split; intros f.
        + rewrite in_app_iff. simpl. intuition congruence.
        + intuition congruence.
      - exists affected, (near ++ [f0]). split; [exact H |]. split; intros f.
        + intuition congruence.
        + rewrite in_app_iff. simpl. intuition congruence.
      - exists affected, near. split; [exact H |]. split; intros f; intuition congruence. }
    destruct Hcase as (a & n & Hrest & Ha & Hn).
    destruct (IH _ _ _ _ Hrest) as (Hok & Haff & Hnear).
    split; [| split].
    + intros f [<- | Hin]; [eauto | apply Hok, Hin].
    + intros f. rewrite Haff, Ha. split.
      * intros [[? | [-> ->]] | [Hin Hex]]; [auto | right | right].
        -- split; [left; reflexivity | eauto].
        -- split; [right; exact Hin | exact Hex].
      * intros [? | [[<- | Hin] (nr' & Hex)]]; [auto | |].
        -- left; right. split; [reflexivity | congruence].
        -- right. eauto.
    + intros f. rewrite Hnear, Hn. split.
      * intros [[? | (-> & -> & ->)] | [Hin Hex]]; [auto | right | right].
        -- split; [left; reflexivity | exact Hf0].
        -- split; [right; exact Hin | exact Hex].
      * intros [? | [[<- | Hin] Hex]]; [auto | |].
        -- left; right. split; [reflexivity | split; congruence].
        -- right. auto.
Qed.

(** The analysis returns when the projection is defined on every vertex and
    [rowcol] raises nothing but [OutOfTransform]. *)
Lemma coords_loop_total cs : forall is_near,
  (forall c, In c cs -> exists p, transformer c = Ok p) ->
  (forall p e, rowcol sv flood_transform p = Raise e -> e = OutOfTransform) ->
  exists res, loop cs is_near = Ok res.
Proof.
  induction cs as [| c rest IH]; intros is_near Htr Hrc; [unfold loop; simpl; eauto |].
  assert (Hrest : forall b, exists res, loop rest b = Ok res)
    by (intros b; apply IH; [intros; apply Htr; right; assumption | exact Hrc]).
  destruct (coords_loop_step c rest is_near)
    as [(e & He) | [(Hskip & _) | [(? & ? & _ & _ & Hbreak) | (? & ? & _ & _ & _ & Hnext)]]].
  - exfalso. unfold loop in He. cbn [coords_loop] in He.
    destruct (Htr c (or_introl eq_refl)) as (p & Hp). rewrite Hp in He.
    destruct (rowcol sv flood_transform p) as [[py px] | e'] eqn:Hr.
    + fold loop in He. repeat case_match; try discriminate;
        match goal with
        | H : loop rest ?b = Raise _ |- _ => destruct (Hrest b) as (? & ?); congruence
        end.
    + pose proof (Hrc _ _ Hr) as ->. fold loop in He.
      destruct (Hrest is_near) as (? & ?). congruence.
  - rewrite Hskip. apply Hrest.
  - eauto.
  - rewrite Hnext. apply Hrest.
Qed.

Lemma features_loop_total features : forall affected near,
  (forall f c, In f features -> In c (coordinates f) -> exists p, transformer c = Ok p) ->
  (forall p e, rowcol sv flood_transform p = Raise e -> e = OutOfTransform) ->
  exists res,
    features_loop sv transformer flood_pixels flood_transform features affected near = Ok res.
Proof.
  induction features as [| f rest IH]; intros affected near Htr Hrc; [simpl; eauto |].
  cbn [features_loop].
  destruct (coords_loop_total (coordinates f) false) as ([fl nr] & Hf);
    [intros c Hc; apply (Htr f c); [left; reflexivity | exact Hc] | exact Hrc |].
  fold loop. rewrite Hf.
  assert (Hrest : forall a n, exists res,
    features_loop sv transformer flood_pixels flood_transform rest a n = Ok res)
    by (intros a n; apply IH; [intros f' c Hf' Hc; apply (Htr f' c); [right |]; assumption
                              | exact Hrc]).
  destruct fl; [| destruct nr]; apply Hrest.
Qed.
End road_impact.

(** C6.  A road feature with a vertex whose exact pixel is flooded is put
    with the flooded roads and not with the near-flood roads, whatever the
    pixels around it are (and the analysis returns when the projection is
    defined and [rowcol] raises nothing but [OutOfTransform]).  A route
    point whose exact pixel is flooded in some raster that contains it gets
    exactly one record, for the first such raster of the list: the rasters
    after it play no part. *)
Theorem exact_flooded_pixel_is_flooded (sv : services) :
  (forall roads flood_pixels flood_transform map_crs road_crs transformer,
     transformer_from_crs sv road_crs map_crs = Ok transformer ->
     ((forall f c, In f roads -> In c (coordinates f) -> exists p, transformer c = Ok p) ->
      (forall p e, rowcol sv flood_transform p = Raise e -> e = OutOfTransform) ->
      exists res,
        disaster_management.analyze_road_impact sv roads flood_pixels flood_transform
          map_crs road_crs = Ok res) /\
     forall affected near f,
       disaster_management.analyze_road_impact sv roads flood_pixels flood_transform
         map_crs road_crs = Ok (affected, near) ->
       In f roads ->
       has_flooded_vertex sv transformer flood_pixels flood_transform f ->
       In f affected /\ ~ In f near) /\
  (forall route_coords rasters i c,
     nth_error route_coords i = Some c ->
     (exists r py px, In r rasters /\ exact_pixel_flooded sv c r py px) ->
     exists pre raster post py px,
       rasters = pre ++ raster :: post /\
       (forall r y x, In r pre -> ~ exact_pixel_flooded sv c r y x) /\
       exact_pixel_flooded sv c raster py px /\
       List.filter (fun s => (flood_detection.b_segment s =? i)%nat)
                   (flood_detection.analyze_road_flood_impact sv route_coords rasters)
       = [{| flood_detection.b_segment := i;
             flood_detection.b_coordinate := c;
             flood_detection.b_raster_index := raster;
             flood_detection.b_pixel_coords := (px, py);
             flood_detection.b_flood_value := 1 |}]).
Proof.
  split.
  - intros roads flood_pixels flood_transform map_crs road_crs transformer Htr.
    unfold disaster_management.analyze_road_impact. rewrite Htr. split.
    + intros Hdef Hrc. apply features_loop_total; assumption.
    + intros affected near f Hrun Hin (c & py & px & Hc & Hv & Hp).
      apply features_loop_spec in Hrun as (Hok & Haff & Hnear).
      destruct (Hok f Hin) as (fl & nr & Hf).
      assert (fl = true) as ->
        by (eapply coords_loop_flooded; [exact Hf | eauto 6]).
      split.
      * apply Haff. right. eauto.
      * intros Hn. apply Hnear in Hn as [[] | [_ Hn]]. congruence.
  - intros route_coords rasters i c Hi (r & py & px & Hr & Hfl).
    destruct (flood_detection.scan_rasters sv c rasters 0)
      as [[[[idx raster] [px0 py0]] v] |] eqn:Hscan.
    + pose proof Hscan as Hsome.
      apply scan_rasters_some in Hsome as (pre & post & Hsplit & _ & Hpre & Hf & ->).
      exists pre, raster, post, py0, px0. repeat split; auto.
      pose proof (basic_loop_at sv route_coords rasters 0 i c Hi) as Hat.
      rewrite Hscan in Hat. cbn [Nat.add] in Hat.
      unfold flood_detection.analyze_road_flood_impact.
      destruct rasters; [destruct Hr | exact Hat].
    + destruct (scan_rasters_none sv c rasters 0 Hscan r py px Hr Hfl).
Qed.

Lemma exact_flooded_pixel_is_flooded_witness :
  exists pre raster post py px,
    [examples.raster1] = pre ++ raster :: post /\
    (forall r y x, In r pre ->
                   ~ exact_pixel_flooded examples.offline examples.wet_point r y x) /\
    exact_pixel_flooded examples.offline examples.wet_point raster py px /\
    List.filter (fun s => (flood_detection.b_segment s =? 1)%nat)
      (flood_detection.analyze_road_flood_impact examples.offline
         [examples.dry_point; examples.wet_point] [examples.raster1])
    = [{| flood_detection.b_segment := 1;
          flood_detection.b_coordinate := examples.wet_point;
          flood_detection.b_raster_index := raster;
          flood_detection.b_pixel_coords := (px, py);
          flood_detection.b_flood_value := 1 |}].
Proof.
  apply (proj2 (exact_flooded_pixel_is_flooded examples.offline)
               [examples.dry_point; examples.wet_point] [examples.raster1] 1%nat
               examples.wet_point).
  - reflexivity.
  - exists examples.raster1, 0%Z, 1%Z. split; [left; reflexivity |].
    exists (fun c => Ok c), examples.wet_point.
    split; [reflexivity |]. split; [| repeat split; (reflexivity || discriminate)].
    unfold in_raster_bounds. simpl. repeat split; discriminate.
Defined.

(** C1, as the code has it.  The route intersection analysis records a
    coordinate only for a raster in which its exact pixel is flooded, so a
    coordinate whose exact pixel is flooded in no raster is not recorded,
    whatever lies around it.  The near-flood class exists for road features
    only: a feature none of whose vertices has a flooded exact pixel, and
    one of whose vertices has a flooded pixel within 3 pixels in each axis
    (inside the raster), is put with the near-flood roads. *)
Theorem near_flood_is_for_road_features (sv : services) :
  (forall route_data rasters seg,
     In seg (flood_detection.analyze_road_flood_impact_improved sv route_data rasters) ->
     exists raster,
       nth_error rasters (flood_detection.raster_index seg) = Some raster /\
       exact_pixel_flooded sv (flood_detection.coordinate seg) raster
         (flood_detection.pixel_coords seg).2 (flood_detection.pixel_coords seg).1 /\
       flood_detection.flood_value seg = 1%Z) /\
  (forall roads flood_pixels flood_transform map_crs road_crs transformer affected near f,
     transformer_from_crs sv road_crs map_crs = Ok transformer ->
     disaster_management.analyze_road_impact sv roads flood_pixels flood_transform
       map_crs road_crs = Ok (affected, near) ->
     In f roads ->
     ~ has_flooded_vertex sv transformer flood_pixels flood_transform f ->
     has_near_vertex sv transformer flood_pixels flood_transform f ->
     In f near /\ ~ In f affected).
Proof.
  split.
  - intros route_data rasters seg.
    unfold flood_detection.analyze_road_flood_impact_improved.
    destruct rasters as [| r0 rasters]; [intros [] |].
    rewrite in_flat_map. intros ([vehicle_id info] & _ & Hin).
    eapply improved_loop_hits, Hin.
  - intros roads flood_pixels flood_transform map_crs road_crs transformer
      affected near f Htr Hrun Hin Hdry (c & py & px & Hc & Hv & Hw).
    unfold disaster_management.analyze_road_impact in Hrun. rewrite Htr in Hrun.
    apply features_loop_spec in Hrun as (Hok & Haff & Hnear).
    destruct (Hok f Hin) as (fl & nr & Hf).
    destruct (coords_loop_dry sv transformer flood_pixels flood_transform
                (coordinates f) false fl nr Hf) as [-> Hnr].
    { intros c0 py0 px0 Hc0 Hv0 Hp0. apply Hdry. exists c0, py0, px0. auto. }
    assert (nr = true) as -> by (apply Hnr; right; eauto 6).
    split.
    + apply Hnear. right. auto.
    + intros Ha. apply Haff in Ha as [[] | [_ (nr' & Ha)]]. congruence.
Qed.

Lemma near_flood_is_for_road_features_witness :
  In examples.dry_road [examples.dry_road] /\ ~ In examples.dry_road [].
Proof.
  apply (proj2 (near_flood_is_for_road_features examples.offline)
               [examples.dry_road] examples.flood_pixels examples.unit_affine
               "EPSG:32630"%string "EPSG:4326"%string (fun c => Ok c)).
  - reflexivity.
  - reflexivity.
  - left; reflexivity.
  - intros (c & py & px & [<- | []] & (proj & [= <-] & [= <- <-] & _) & Hp).
    discriminate Hp.
  - exists examples.dry_point, 0%Z, 0%Z. split; [left; reflexivity |].
    split; [exists examples.dry_point; repeat split; (reflexivity || discriminate) |].
    apply near_flood_at_spec. reflexivity.
Defined.

(** C1, as the claim has it, fails: a route point on a dry pixel right next
    to a flooded one is not recorded by the route intersection analysis. *)
Lemma near_flood_route_point_not_recorded :
  rowcol examples.offline (transform examples.raster1) examples.dry_point = Ok (0, 0)%Z /\
  pixel_at (pixels examples.raster1) 0 0 = 0%Z /\
  flooded_within_3 (pixels examples.raster1) 0 0 /\
  flood_detection.analyze_road_flood_impact_improved examples.offline
    examples.dry_route [examples.raster1] = [].
Proof.
  split; [reflexivity |]. split; [reflexivity |].
  split; [apply near_flood_at_spec; reflexivity | reflexivity].
Qed.

(** * Road attribution *)

Section road_attribution.
Import tabs_disaster_management.
Variable features : list feature.

















End road_attribution.





(** * Stored analysis result and results panel *)




(** A run in which the provider gave data and the route is dry: no vehicle
    is affected, flood data was found, and the panel shows "route clear". *)
Example dry_run_is_route_clear :
  exists results w',
    tabs_disaster_management.run_analysis examples.dry_provider examples.dry_route
      examples.date (1 # 10) empty_world = (Ok results, w') /\
    total_affected results = 0%nat /\
    flood_data_found results = true /\
    tabs_disaster_management.results_panel results
    = [tabs_disaster_management.SuccessRouteClear].
Proof.
  eexists _, _. split; [vm_compute; reflexivity |]. repeat split.
Qed.

(** * The examples, run *)

(** A 0.25 x 0.1 degree box and 0.1 degree tiles: three tiles, the last one
    reaching past the box. *)
Example tiles_of_small_box :
  List.map (fun t : bbox => let '(a, b, c, d) := t in (Qred a, Qred b, Qred c, Qred d))
           (flood_detection.generate_tiles (0, 0, 1 # 4, 1 # 10) (1 # 10))
  = [ (0, 0, 1 # 10, 1 # 10);
      (1 # 10, 0, 1 # 5, 1 # 10);
      (1 # 5, 0, 3 # 10, 1 # 10) ].
Proof. vm_compute. reflexivity. Qed.

(** The wet point is recorded once, with its pixel as (column, row). *)
Example wet_point_is_recorded :
  flood_detection.analyze_road_flood_impact_improved examples.offline
    [ (0%nat, {| flood_detection.coords := [examples.dry_point; examples.wet_point];
                 flood_detection.display := [];
                 flood_detection.distance := 0 |}) ]
    [examples.raster1; examples.raster1]
  = [ {| flood_detection.vehicle := 1; flood_detection.segment := 1;
         flood_detection.coordinate := examples.wet_point;
         flood_detection.raster_index := 0;
         flood_detection.pixel_coords := (1, 0)%Z;
         flood_detection.flood_value := 1 |} ].
Proof. vm_compute. reflexivity. Qed.

(** The wet point lies a few metres from the near road and is attached to
    it. *)
Example near_road_entry :
  tabs_disaster_management.convert_coordinates_to_road_names examples.near_roads
    [examples.wet_segment] [examples.raster1]
  = [ {| ri_description := "🚗 Fishlake Road (Main road)";
         ri_name := "Fishlake Road";
         ri_severity := "Partially flooded";
         ri_affected_points := 1;
         ri_coordinates := [(1 # 2, 3 # 2)] |} ].
Proof. vm_compute. reflexivity. Qed.

(** Without any road service the points go to the one fallback entry. *)
Example offline_roads_entry :
  tabs_disaster_management.convert_coordinates_to_road_names examples.offline
    [examples.wet_segment; examples.wet_segment] [examples.raster1]
  = [ {| ri_description := "🛤️ Roads near Fishlake area";
         ri_name := "Local roads";
         ri_severity := "Multiple sections flooded";
         ri_affected_points := 2;
         ri_coordinates := [(1 # 2, 3 # 2); (1 # 2, 3 # 2)] |} ].
Proof. vm_compute. reflexivity. Qed.

(** Capacities of the routing model: by the stop count and the vehicle
    count. *)
Example capacities_3_stops_2_vehicles :
  vehicle_capacities (route_planner.build_model examples.matrix4 2 3) = [2; 2]%Z.
Proof. reflexivity. Qed.

Example capacities_1_stop_2_vehicles :
  vehicle_capacities (route_planner.build_model examples.matrix2 2 1) = [2; 2]%Z /\
  disjunctions (route_planner.build_model examples.matrix2 2 1) = [].
Proof. split; reflexivity. Qed.

Example disjunctions_3_stops :
  disjunctions (route_planner.build_model examples.matrix4 2 3)
  = [([1%nat], 1000000%Z); ([2%nat], 1000000%Z); ([3%nat], 1000000%Z)].
Proof. reflexivity. Qed.

(** * Further properties of the tile grid *)

Section tile_grid_more.
Variables start stop step : Q.
Hypothesis step_pos : 0 < step.



End tile_grid_more.





Lemma fold_left_Qmin_le (l : list Q) : forall x,
  fold_left Qmin l x <= x /\ forall y, In y l -> fold_left Qmin l x <= y.
Proof.
  induction l as [| a l IH]; intros x; cbn [fold_left].
  - split; [apply Qle_refl | intros y []].
  - destruct (IH (Qmin x a)) as [Hx Hl]. split.
    + apply Qle_trans with (Qmin x a); [exact Hx | apply Q.le_min_l].
    + intros y [<- | Hy]; [| exact (Hl y Hy)].
      apply Qle_trans with (Qmin x a); [exact Hx | apply Q.le_min_r].
Qed.

Lemma fold_left_Qmax_ge (l : list Q) : forall x,
  x <= fold_left Qmax l x /\ forall y, In y l -> y <= fold_left Qmax l x.
Proof.
  induction l as [| a l IH]; intros x; cbn [fold_left].
  - split; [apply Qle_refl | intros y []].
  - destruct (IH (Qmax x a)) as [Hx Hl]. split.
    + apply Qle_trans with (Qmax x a); [apply Q.le_max_l | exact Hx].
    + intros y [<- | Hy]; [| exact (Hl y Hy)].
      apply Qle_trans with (Qmax x a); [apply Q.le_max_r | exact Hx].
Qed.



(** * Further properties of the hazard tile cache *)



(** X5.  The webhook request is memoised only when it succeeds.  A request
    that is not in the table and returns a URL returns a non-empty one and
    stores it: asking again returns it without changing the state (no
    second request, whatever the services do by then).  A request that
    raises stores nothing, so asking again runs the request again. *)
Theorem request_memoises_success_only (sv : services) (b : bbox)
    (analysis_date : string) (w w1 : world) (r : result string) :
  url_cache w !! (b, analysis_date) = None ->
  flood_detection.request_flood_map_from_n8n sv b analysis_date w = (r, w1) ->
  match r with
  | Ok url =>
      url <> ""%string /\
      calls w1 = calls w ++ [WebhookPost b analysis_date] /\
      forall sv',
        flood_detection.request_flood_map_from_n8n sv' b analysis_date w1 = (Ok url, w1)
  | Raise _ => url_cache w1 !! (b, analysis_date) = None
  end.
Proof.
  intros Hmiss. unfold flood_detection.request_flood_map_from_n8n at 1, cache_data.
  rewrite Hmiss.
  destruct (flood_detection.request_flood_map_from_n8n_body sv (b, analysis_date) w)
    as [[url | e] w0] eqn:Hbody; intros [= <- <-].
  - assert (Hurl : url <> ""%string /\ calls w0 = calls w ++ [WebhookPost b analysis_date]).
    { unfold flood_detection.request_flood_map_from_n8n_body in Hbody.
      run_m; split; auto; discriminate. }
    destruct Hurl as [Hne Hcalls]. split; [exact Hne |]. split; [exact Hcalls |].
    intros sv'. unfold flood_detection.request_flood_map_from_n8n, cache_data.
    cbn [url_cache set_url_cache]. rewrite lookup_insert_eq. reflexivity.
  - apply request_body_effect in Hbody as (_ & Hu & _). rewrite Hu. exact Hmiss.
Qed.

Lemma request_memoises_success_only_witness :
  let url := "http://store/flood.tif"%string in
  let w1 := set_url_cache (<[(examples.tile0, examples.date) := url]> ∅)
              (log_call (WebhookPost examples.tile0 examples.date) empty_world) in
  url <> ""%string /\
  calls w1 = calls empty_world ++ [WebhookPost examples.tile0 examples.date] /\
  forall sv',
    flood_detection.request_flood_map_from_n8n sv' examples.tile0 examples.date w1
    = (Ok url, w1).
Proof.
  intros url w1.
  apply (request_memoises_success_only examples.dry_provider examples.tile0
           examples.date empty_world w1 (Ok url)); reflexivity.
Defined.

(** X6.  A payload returned by [fetch_flood_geotiff] carries band 1, the
    transform and the CRS of the downloaded GeoTIFF, and the route analysis
    reports a coordinate as flooded in it only if the coordinate lies within
    the WGS84 bounds that [transform_bounds] gave for the file and the pixel
    it names holds 1 in band 1. *)
Theorem fetched_raster_flags_inside_bounds (sv : services) (url : string)
    (w w1 : world) (r : raster_data) :
  flood_detection.fetch_flood_geotiff sv url w = (Ok r, w1) ->
  exists resp src west south east north,
    requests_get sv (calls w) url = Ok resp /\ http_ok resp = true /\
    payload resp = Some src /\
    transform_bounds sv (src_crs src) "EPSG:4326" (src_bounds src)
    = Ok (west, south, east, north) /\
    pixels r = band1 src /\ transform r = src_transform src /\ crs r = src_crs src /\
    forall lon lat px py v,
      flood_detection.probe_raster sv (lon, lat) r = Ok (flood_detection.Flooded px py v) ->
      west <= lon /\ lon <= east /\ south <= lat /\ lat <= north /\
      pixel_at (band1 src) py px = 1%Z.
Proof.
  unfold flood_detection.fetch_flood_geotiff, bind, lift. intros H.
  destruct (requests_get sv (calls w) url) as [resp | e] eqn:Hget; [| discriminate].
  destruct (http_ok resp) eqn:Hok; cbn [negb] in H; [| discriminate].
  destruct (payload resp) as [src |] eqn:Hsrc; [| discriminate].
  destruct (transform_bounds sv (src_crs src) "EPSG:4326" (src_bounds src))
    as [[[[west south] east] north] | e] eqn:Hb; [| discriminate].
  unfold ret in H. injection H as <- <-.
  exists resp, src, west, south, east, north. repeat split; auto;
    apply probe_flooded_iff in H as [(tr & proj & _ & Hin & _ & _ & _ & _ & Hp) _];
    unfold in_raster_bounds in Hin; cbn in Hin, Hp; tauto.
Qed.

Lemma fetched_raster_flags_inside_bounds_witness :
  exists resp src west south east north,
    requests_get examples.dry_provider (calls empty_world) "http://store/flood.tif"
    = Ok resp /\ http_ok resp = true /\
    payload resp = Some src /\
    transform_bounds examples.dry_provider (src_crs src) "EPSG:4326" (src_bounds src)
    = Ok (west, south, east, north) /\
    pixels more_examples.dry_raster = band1 src /\
    transform more_examples.dry_raster = src_transform src /\
    crs more_examples.dry_raster = src_crs src /\
    forall lon lat px py v,
      flood_detection.probe_raster examples.dry_provider (lon, lat)
        more_examples.dry_raster = Ok (flood_detection.Flooded px py v) ->
      west <= lon /\ lon <= east /\ south <= lat /\ lat <= north /\
      pixel_at (band1 src) py px = 1%Z.
Proof.
  apply (fetched_raster_flags_inside_bounds examples.dry_provider
           "http://store/flood.tif" empty_world
           (log_call (Download "http://store/flood.tif") empty_world)
           more_examples.dry_raster).
  reflexivity.
Defined.

Section tile_loop_bounds.
Import flood_detection.
Variable sv : services.
Variable analysis_date : string.

Lemma process_tiles_loop_bounds tiles : forall acc w,
  exists res w' new,
    process_tiles_loop sv tiles analysis_date acc w = (Ok res, w') /\
    (length res <= length acc + length tiles)%nat /\
    calls w' = calls w ++ new /\
    (length (List.filter is_webhook_post new) <= length tiles)%nat /\
    (length (List.filter is_download new) <= length tiles)%nat.
Proof.
  induction tiles as [| t rest IH]; intros acc w; cbn [process_tiles_loop].
  - exists acc, w, []. unfold ret. rewrite app_nil_r. simpl. repeat split; lia.
  - unfold bind.
    destruct (get_flood_overlay_from_n8n sv t analysis_date w) as [r w1] eqn:Hget.
    apply lookup_effect in Hget as (v & -> & _ & _ & new1 & Hc1 & _ & Hw1 & Hd1).
    destruct (IH (match v with Some r => acc ++ [r] | None => acc end) w1)
      as (res & w' & new2 & Hloop & Hlen & Hc2 & Hw2 & Hd2).
    exists res, w', (new1 ++ new2). split; [exact Hloop |]. split; [| split; [| split]].
    + destruct v; [rewrite length_app in Hlen |]; simpl in *; lia.
    + rewrite Hc2, Hc1, app_assoc. reflexivity.
    + rewrite List.filter_app, length_app. simpl. lia.
    + rewrite List.filter_app, length_app. simpl. lia.
Qed.
End tile_loop_bounds.

(** X7.  The tile loop returns at most one raster per tile and sends at most
    one webhook request and one download per tile; an empty tile list
    returns nothing and leaves the process state as it was. *)
Theorem tile_loop_is_bounded (sv : services) (tiles : list bbox)
    (analysis_date : string) (w : world) :
  (exists rasters w' new,
     flood_detection.process_flood_tiles sv tiles analysis_date w = (Ok rasters, w') /\
     (length rasters <= length tiles)%nat /\
     calls w' = calls w ++ new /\
     (length (List.filter is_webhook_post new) <= length tiles)%nat /\
     (length (List.filter is_download new) <= length tiles)%nat) /\
  flood_detection.process_flood_tiles sv [] analysis_date w = (Ok [], w).
Proof.
  split; [| reflexivity].
  unfold flood_detection.process_flood_tiles. destruct tiles as [| t rest].
  - exists [], w, []. unfold ret. rewrite app_nil_r. simpl. repeat split; lia.
  - destruct (process_tiles_loop_bounds sv analysis_date (t :: rest) [] w)
      as (res & w' & new & Hloop & Hlen & Hc & Hw & Hd).
    exists res, w', new. repeat split; auto.
Qed.

(** X8.  A failed tile is not retried.  Once the provider round trip of a
    tile raised during a lookup, every later lookup of that tile returns "no
    data" and leaves the state as it is, whatever was looked up in between
    and even when the services would answer by then. *)
Theorem failed_tile_is_not_retried (sv sv' : services) (b : bbox)
    (analysis_date : string) (between : list (bbox * string))
    (w w1 : world) (e : exn) :
  overlay_cache w !! (b, analysis_date) = None ->
  provider_round_trip sv b analysis_date w = (Raise e, w1) ->
  let after_failure :=
    snd (flood_detection.get_flood_overlay_from_n8n sv b analysis_date w) in
  let later := lookup_all sv' between after_failure in
  flood_detection.get_flood_overlay_from_n8n sv' b analysis_date later = (Ok None, later).
Proof.
  intros Hmiss Hfail after_failure later.
  assert (Hstored : overlay_cache after_failure !! (b, analysis_date) = Some None).
  { unfold after_failure, flood_detection.get_flood_overlay_from_n8n, cache_data.
    rewrite Hmiss, (round_trip_raises sv analysis_date b w e w1 Hfail).
    cbn [snd overlay_cache set_overlay_cache]. apply lookup_insert_eq. }
  destruct (lookup_all_keeps sv' between after_failure b analysis_date None Hstored)
    as [Hkept _].
  apply lookup_hit. exact Hkept.
Qed.

Lemma failed_tile_is_not_retried_witness :
  let after_failure :=
    snd (flood_detection.get_flood_overlay_from_n8n examples.offline examples.tile0
           examples.date empty_world) in
  let later :=
    lookup_all examples.dry_provider [((1, 1, 2, 2), examples.date)] after_failure in
  flood_detection.get_flood_overlay_from_n8n examples.dry_provider examples.tile0
    examples.date later = (Ok None, later).
Proof.
  apply (failed_tile_is_not_retried examples.offline examples.dry_provider
           examples.tile0 examples.date [((1, 1, 2, 2), examples.date)] empty_world
           (log_call (WebhookPost examples.tile0 examples.date) empty_world)
           RequestException); reflexivity.
Defined.

(** * Further properties of the route intersection analysis *)

Section improved_analysis.
Import flood_detection.
Variable sv : services.

(** A record of the improved loop names its coordinate by position and the
    first raster of the list whose exact pixel at it is flooded. *)
Lemma improved_loop_sound vehicle_num cs rasters : forall i seg,
  In seg (improved_loop sv vehicle_num cs i rasters) ->
  vehicle seg = vehicle_num /\ (i <= segment seg)%nat /\
  nth_error cs (segment seg - i) = Some (coordinate seg) /\
  exists pre raster post,
    rasters = pre ++ raster :: post /\ raster_index seg = length pre /\
    (forall r y x, In r pre -> ~ exact_pixel_flooded sv (coordinate seg) r y x) /\
    exact_pixel_flooded sv (coordinate seg) raster (pixel_coords seg).2 (pixel_coords seg).1 /\
    flood_value seg = 1%Z.
Proof.
  induction cs as [| c cs IH]; intros i seg; [intros [] |].
  cbn [improved_loop].
  assert (Hrest : In seg (improved_loop sv vehicle_num cs (S i) rasters) ->
                  vehicle seg = vehicle_num /\ (i <= segment seg)%nat /\
                  nth_error (c :: cs) (segment seg - i) = Some (coordinate seg) /\
                  exists pre raster post,
                    rasters = pre ++ raster :: post /\ raster_index seg = length pre /\
                    (forall r y x, In r pre -> ~ exact_pixel_flooded sv (coordinate seg) r y x) /\
                    exact_pixel_flooded sv (coordinate seg) raster
                      (pixel_coords seg).2 (pixel_coords seg).1 /\
                    flood_value seg = 1%Z).
  { intros Hin. apply IH in Hin as (Hv & Hge & Hnth & Hex).
    split; [exact Hv |]. split; [lia |]. split; [| exact Hex].
    replace (segment seg - i)%nat with (S (segment seg - S i)) by lia. exact Hnth. }
  destruct (scan_rasters sv c rasters 0) as [[[[idx r] [px py]] v] |] eqn:Hscan;
    [| exact Hrest].
  intros [<- | Hin]; [| exact (Hrest Hin)].
  apply scan_rasters_some in Hscan as (pre & post & -> & -> & Hpre & Hf & ->).
  cbn. split; [reflexivity |]. split; [lia |]. rewrite Nat.sub_diag.
  split; [reflexivity |]. exists pre, r, post. repeat split; auto.
Qed.

Lemma improved_loop_segment_ge vehicle_num cs rasters i seg :
  In seg (improved_loop sv vehicle_num cs i rasters) -> (i <= segment seg)%nat.
Proof. intros H. apply improved_loop_sound in H. tauto. Qed.

(** The records of one vehicle come in route order, one per coordinate at
    most. *)
Lemma improved_loop_sorted vehicle_num cs rasters : forall i,
  StronglySorted (fun a b => (segment a < segment b)%nat)
    (improved_loop sv vehicle_num cs i rasters).
Proof.
  induction cs as [| c cs IH]; intros i; [constructor |].
  cbn [improved_loop].
  destruct (scan_rasters sv c rasters 0) as [[[[idx r] pc] v] |]; [| apply IH].
  constructor; [apply IH |]. apply List.Forall_forall. intros s Hs.
  apply improved_loop_segment_ge in Hs. simpl. lia.
Qed.

Lemma improved_loop_length vehicle_num cs rasters : forall i,
  (length (improved_loop sv vehicle_num cs i rasters) <= length cs)%nat.
Proof.
  induction cs as [| c cs IH]; intros i; [simpl; lia |].
  cbn [improved_loop].
  destruct (scan_rasters sv c rasters 0) as [[[[idx r] pc] v] |];
    specialize (IH (S i)); simpl; lia.
Qed.

Lemma improved_loop_NoDup vehicle_num cs rasters i :
  List.NoDup (List.map (fun s => (vehicle s, segment s))
                (improved_loop sv vehicle_num cs i rasters)).
Proof.
  pose proof (improved_loop_sorted vehicle_num cs rasters i) as Hs.
  induction Hs as [| a l Hl IH Ha]; [constructor |].
  cbn [List.map]. constructor; [| exact IH].
  rewrite in_map_iff. intros (s & [= _ Heq] & Hin).
  rewrite List.Forall_forall in Ha. apply Ha in Hin. lia.
Qed.

Lemma improved_loop_basic_loop vehicle_num cs rasters : forall i,
  Forall2 (same_record vehicle_num rasters)
    (improved_loop sv vehicle_num cs i rasters) (basic_loop sv cs i rasters).
Proof.
  induction cs as [| c cs IH]; intros i; [constructor |].
  cbn [improved_loop basic_loop].
  destruct (scan_rasters sv c rasters 0) as [[[[idx r] [px py]] v] |] eqn:Hscan;
    [| apply IH].
  constructor; [| apply IH].
  apply scan_rasters_some in Hscan as (pre & post & -> & -> & _).
  unfold same_record. cbn. repeat split.
  rewrite nth_error_app2 by lia. rewrite Nat.sub_diag. reflexivity.
Qed.

Lemma improved_loop_nil vehicle_num cs rasters : forall i,
  improved_loop sv vehicle_num cs i rasters = [] <->
  forall c r y x, In c cs -> In r rasters -> ~ exact_pixel_flooded sv c r y x.
Proof.
  induction cs as [| c cs IH]; intros i.
  - split; [intros _ ? ? ? ? [] | reflexivity].
  - cbn [improved_loop].
    destruct (scan_rasters sv c rasters 0) as [[[[idx r] [px py]] v] |] eqn:Hscan.
    + split; [discriminate |]. intros H. exfalso.
      apply scan_rasters_some in Hscan as (pre & post & -> & _ & _ & Hf & _).
      apply (H c r py px); [left; reflexivity | | exact Hf].
      apply in_or_app. right. left. reflexivity.
    + rewrite IH. split.
      * intros H c' r y x [<- | Hin] Hr; [| exact (H _ _ _ _ Hin Hr)].
        exact (scan_rasters_none sv _ _ _ Hscan _ _ _ Hr).
      * intros H c' r y x Hin. apply H. right. exact Hin.
Qed.
End improved_analysis.

(** X9.  Every record of the improved analysis belongs to a vehicle of
    [route_data], is numbered one above the vehicle's key, names a checked
    coordinate by its position, and names by its index the first raster of
    the list in which the exact pixel of that coordinate is flooded. *)
Theorem improved_record_names_first_flooded_raster (sv : services)
    (route_data : flood_detection.route_data_t) (rasters : list raster_data)
    (seg : flood_detection.affected_segment) :
  In seg (flood_detection.analyze_road_flood_impact_improved sv route_data rasters) ->
  exists vehicle_id route_info pre raster post,
    In (vehicle_id, route_info) route_data /\
    flood_detection.vehicle seg = (vehicle_id + 1)%nat /\
    nth_error (flood_detection.coords_to_check sv (flood_detection.coords route_info))
              (flood_detection.segment seg)
    = Some (flood_detection.coordinate seg) /\
    rasters = pre ++ raster :: post /\
    flood_detection.raster_index seg = length pre /\
    (forall r y x, In r pre ->
                   ~ exact_pixel_flooded sv (flood_detection.coordinate seg) r y x) /\
    exact_pixel_flooded sv (flood_detection.coordinate seg) raster
      (flood_detection.pixel_coords seg).2 (flood_detection.pixel_coords seg).1 /\
    flood_detection.flood_value seg = 1%Z.
Proof.
  unfold flood_detection.analyze_road_flood_impact_improved.
  intros Hin.
  assert (Hflat : In seg (flat_map (fun '(vehicle_id, route_info) =>
                    flood_detection.improved_loop sv (vehicle_id + 1)
                      (flood_detection.coords_to_check sv (flood_detection.coords route_info))
                      0 rasters) route_data))
    by (destruct rasters; [destruct Hin | exact Hin]).
  apply in_flat_map in Hflat as ([vehicle_id route_info] & Hv & Hloop).
  apply improved_loop_sound in Hloop
    as (Hveh & _ & Hnth & pre & raster & post & Hr & Hidx & Hpre & Hf & Hval).
  rewrite Nat.sub_0_r in Hnth.
  exists vehicle_id, route_info, pre, raster, post. repeat split; auto.
Qed.

Lemma improved_record_names_first_flooded_raster_witness :
  exists vehicle_id route_info pre raster post,
    In (vehicle_id, route_info) more_examples.wet_route /\
    flood_detection.vehicle more_examples.wet_record = (vehicle_id + 1)%nat /\
    nth_error (flood_detection.coords_to_check examples.offline
                 (flood_detection.coords route_info))
              (flood_detection.segment more_examples.wet_record)
    = Some (flood_detection.coordinate more_examples.wet_record) /\
    [examples.raster1; examples.raster1] = pre ++ raster :: post /\
    flood_detection.raster_index more_examples.wet_record = length pre /\
    (forall r y x, In r pre ->
       ~ exact_pixel_flooded examples.offline
           (flood_detection.coordinate more_examples.wet_record) r y x) /\
    exact_pixel_flooded examples.offline
      (flood_detection.coordinate more_examples.wet_record) raster
      (flood_detection.pixel_coords more_examples.wet_record).2
      (flood_detection.pixel_coords more_examples.wet_record).1 /\
    flood_detection.flood_value more_examples.wet_record = 1%Z.
Proof.
  apply (improved_record_names_first_flooded_raster examples.offline
           more_examples.wet_route [examples.raster1; examples.raster1]
           more_examples.wet_record).
  vm_compute. left. reflexivity.
Defined.

(** X10.  No route point is counted twice.  With distinct vehicle keys, no
    two records share vehicle and position, though a point may be flooded in
    several rasters; and there are at most as many records as coordinates
    checked. *)
Theorem improved_analysis_counts_points_once (sv : services)
    (route_data : flood_detection.route_data_t) (rasters : list raster_data) :
  List.NoDup (List.map fst route_data) ->
  List.NoDup (List.map (fun s => (flood_detection.vehicle s, flood_detection.segment s))
                (flood_detection.analyze_road_flood_impact_improved sv route_data rasters)) /\
  (length (flood_detection.analyze_road_flood_impact_improved sv route_data rasters)
   <= list_sum (List.map (fun v => length (flood_detection.coords_to_check sv
                                             (flood_detection.coords (snd v))))
                         route_data))%nat.
Proof.
  unfold flood_detection.analyze_road_flood_impact_improved. intros Hkeys.
  destruct rasters as [| r0 rasters]; [split; [constructor | simpl; lia] |].
  induction route_data as [| [vehicle_id route_info] rest IH].
  - split; [constructor | simpl; lia].
  - cbn [List.map fst] in Hkeys. apply List.NoDup_cons_iff in Hkeys as [Hfresh Hkeys].
    destruct (IH Hkeys) as [IHn IHl]. cbn [flat_map List.map snd]. split.
    + rewrite List.map_app. apply List.NoDup_app.
      * apply improved_loop_NoDup.
      * exact IHn.
      * intros [v s] H1 H2.
        apply in_map_iff in H1 as (s1 & [= Hv1 _] & Hin1).
        apply in_map_iff in H2 as (s2 & [= Hv2 _] & Hin2).
        apply improved_loop_sound in Hin1 as [Hveh1 _].
        apply in_flat_map in Hin2 as ([vid2 info2] & Hin & Hloop).
        apply improved_loop_sound in Hloop as [Hveh2 _].
        apply Hfresh. apply in_map_iff. exists (vid2, info2).
        split; [simpl; lia | exact Hin].
    + rewrite length_app. unfold list_sum in *. cbn [fold_right].
      pose proof (improved_loop_length sv (vehicle_id + 1)
                    (flood_detection.coords_to_check sv (flood_detection.coords route_info))
                    (r0 :: rasters) 0).
      lia.
Qed.

Lemma improved_analysis_counts_points_once_witness :
  List.NoDup (List.map (fun s => (flood_detection.vehicle s, flood_detection.segment s))
                (flood_detection.analyze_road_flood_impact_improved examples.offline
                   more_examples.wet_route [examples.raster1; examples.raster1])) /\
  (length (flood_detection.analyze_road_flood_impact_improved examples.offline
             more_examples.wet_route [examples.raster1; examples.raster1])
   <= list_sum (List.map (fun v => length (flood_detection.coords_to_check examples.offline
                                             (flood_detection.coords (snd v))))
                         more_examples.wet_route))%nat.
Proof.
  apply (improved_analysis_counts_points_once examples.offline more_examples.wet_route
           [examples.raster1; examples.raster1]).
  simpl. constructor; [intros [] | constructor].
Defined.

(** X11.  The improved analysis is the basic analysis run for each vehicle
    on the coordinates checked for it: record by record the same position,
    coordinate, pixel and value, the basic record holding the raster that
    the improved record names by its index. *)
Theorem improved_analysis_is_basic_per_vehicle (sv : services)
    (route_data : flood_detection.route_data_t) (rasters : list raster_data) :
  exists per_vehicle,
    flood_detection.analyze_road_flood_impact_improved sv route_data rasters
    = concat per_vehicle /\
    Forall2 (fun records v =>
               Forall2 (same_record (fst v + 1) rasters) records
                 (flood_detection.analyze_road_flood_impact sv
                    (flood_detection.coords_to_check sv (flood_detection.coords (snd v)))
                    rasters))
            per_vehicle route_data.
Proof.
  unfold flood_detection.analyze_road_flood_impact_improved,
    flood_detection.analyze_road_flood_impact.
  destruct rasters as [| r0 rasters].
  - exists (List.map (fun _ => []) route_data). split.
    + induction route_data; [reflexivity | exact IHroute_data].
    + induction route_data; constructor; [constructor | assumption].
  - exists (List.map (fun v => flood_detection.improved_loop sv (fst v + 1)
                        (flood_detection.coords_to_check sv (flood_detection.coords (snd v)))
                        0 (r0 :: rasters)) route_data).
    split.
    + induction route_data as [| [vid info] rest IH]; [reflexivity |].
      cbn [flat_map List.map concat fst snd]. rewrite IH. reflexivity.
    + induction route_data as [| [vid info] rest IH]; constructor; [| exact IH].
      apply improved_loop_basic_loop.
Qed.

(** X12.  The improved analysis returns no record exactly when no checked
    coordinate has a flooded exact pixel in any raster; so it does for a
    route outside the bounds of every raster, and also when no projection
    into the CRS of the rasters can be built: that failure is swallowed and
    reads as a clear route. *)
Theorem improved_analysis_empty_iff (sv : services)
    (route_data : flood_detection.route_data_t) (rasters : list raster_data) :
  let checked c :=
    exists v, In v route_data /\
              In c (flood_detection.coords_to_check sv (flood_detection.coords (snd v))) in
  (flood_detection.analyze_road_flood_impact_improved sv route_data rasters = [] <->
   forall c r y x, checked c -> In r rasters -> ~ exact_pixel_flooded sv c r y x) /\
  ((forall c r, checked c -> In r rasters -> ~ in_raster_bounds c r) ->
   flood_detection.analyze_road_flood_impact_improved sv route_data rasters = []) /\
  ((forall r, In r rasters ->
              exists e, transformer_from_crs sv "EPSG:4326" (crs r) = Raise e) ->
   flood_detection.analyze_road_flood_impact_improved sv route_data rasters = []).
Proof.
  intros checked.
  assert (Hiff : flood_detection.analyze_road_flood_impact_improved sv route_data rasters = [] <->
                 forall c r y x, checked c -> In r rasters -> ~ exact_pixel_flooded sv c r y x).
  { unfold flood_detection.analyze_road_flood_impact_improved, checked.
    destruct rasters as [| r0 rasters]; [split; [intros _ ? ? ? ? _ [] | reflexivity] |].
    induction route_data as [| [vid info] rest IH].
    - split; [intros _ ? ? ? ? (? & [] & _) | reflexivity].
    - cbn [flat_map]. split.
      + intros H. apply app_eq_nil in H as [H1 H2].
        intros c r y x (v & [<- | Hv] & Hc) Hr.
        * cbn [snd] in Hc. exact (proj1 (improved_loop_nil sv _ _ _ _) H1 c r y x Hc Hr).
        * apply (proj1 IH H2 c r y x); [exists v; auto | exact Hr].
      + intros H.
        assert (H1 : flood_detection.improved_loop sv (vid + 1)
                       (flood_detection.coords_to_check sv (flood_detection.coords info))
                       0 (r0 :: rasters) = []).
        { apply improved_loop_nil. intros c r y x Hc Hr.
          apply H; [exists (vid, info); split; [left; reflexivity | exact Hc] | exact Hr]. }
        rewrite H1. apply IH. intros c r y x (v & Hv & Hc) Hr.
        apply H; [exists v; split; [right; exact Hv | exact Hc] | exact Hr]. }
  split; [exact Hiff |]. split.
  - intros Hout. apply Hiff. intros c r y x Hc Hr (tr & proj & _ & Hb & _).
    exact (Hout c r Hc Hr Hb).
  - intros Hfail. apply Hiff. intros c r y x Hc Hr (tr & proj & Htr & _).
    destruct (Hfail r Hr) as [e He]. congruence.
Qed.

Lemma improved_analysis_empty_iff_witness :
  flood_detection.analyze_road_flood_impact_improved examples.offline
    examples.stale_routes [examples.raster1] = [].
Proof.
  apply (proj1 (proj2 (improved_analysis_empty_iff examples.offline
                         examples.stale_routes [examples.raster1]))).
  intros c r (v & [<- | []] & Hc) [<- | []] (H & _).
  simpl in Hc. destruct Hc as [<- | [<- | [<- | []]]];
    unfold Qle in H; simpl in H; lia.
Defined.

(** * Further properties of the road-feature analysis *)

(** X13.  [overpass_to_geojson] turns the ways that carry a geometry, in
    their order, into LineString features with the vertices of the way;
    the properties are the tags of the way with the key "id" set to the id
    of the way, also when a tag of that name exists.  The conversion raises
    exactly when such a way has no id. *)
Theorem overpass_ways_become_line_features (elements : list overpass_element) :
  (forall features,
     disaster_management.overpass_to_geojson elements = Ok features ->
     Forall2 (fun element f =>
                geometry_type f = "LineString"%string /\
                el_geometry element = Some (coordinates f) /\
                properties f !! "id"%string = el_id element /\
                is_Some (el_id element) /\
                forall k, k <> "id"%string ->
                          properties f !! k = default ∅ (el_tags element) !! k)
             (List.filter is_way_with_geometry elements) features) /\
  ((exists e, disaster_management.overpass_to_geojson elements = Raise e) <->
   exists element,
     In element elements /\ is_way_with_geometry element = true /\ el_id element = None).
Proof.
  induction elements as [| el rest [IHok IHraise]].
  - split; [intros ? [= <-]; constructor |].
    split; [intros [? [=]] | intros (? & [] & _)].
  - cbn [disaster_management.overpass_to_geojson List.filter].
    unfold is_way_with_geometry at 1 3.
    destruct (bool_decide (el_type el = Some "way"%string)) eqn:Hway; cbn [andb].
    2:{ split; [exact IHok |]. rewrite IHraise. split.
        - intros (x & Hin & Hx). exists x. split; [right; exact Hin | exact Hx].
        - intros (x & [<- | Hin] & Hu & Hid); [| exists x; auto].
          unfold is_way_with_geometry in Hu. rewrite Hway in Hu. discriminate. }
    destruct (el_geometry el) as [geometry |] eqn:Hgeo.
    2:{ split; [exact IHok |]. rewrite IHraise. split.
        - intros (x & Hin & Hx). exists x. split; [right; exact Hin | exact Hx].
        - intros (x & [<- | Hin] & Hu & Hid); [| exists x; auto].
          unfold is_way_with_geometry in Hu. rewrite Hway, Hgeo in Hu. discriminate. }
    destruct (el_id el) as [id |] eqn:Hid.
    + destruct (disaster_management.overpass_to_geojson rest) as [fs | e] eqn:Hrest.
      * split.
        -- intros features [= <-]. constructor; [| apply IHok; reflexivity].
           cbn. split; [reflexivity |]. split; [exact Hgeo |].
           split; [rewrite Hid; apply lookup_insert_eq |]. split; [rewrite Hid; eauto |].
           intros k Hk. apply lookup_insert_ne. congruence.
        -- split; [intros [? [=]] |].
           intros (x & [<- | Hin] & Hu & Hx); [congruence |].
           destruct (proj2 IHraise) as [? [=]]. exists x. auto.
      * split; [discriminate |]. split; [| eauto].
        intros _. destruct (proj1 IHraise) as (x & Hin & Hx); [eauto |].
        exists x. split; [right; exact Hin | exact Hx].
    + split; [discriminate |]. split; [| eauto].
      intros _. exists el. split; [left; reflexivity |]. split; [| exact Hid].
      unfold is_way_with_geometry. rewrite Hway, Hgeo. reflexivity.
Qed.

Lemma overpass_ways_become_line_features_witness :
  Forall2 (fun element f =>
             geometry_type f = "LineString"%string /\
             el_geometry element = Some (coordinates f) /\
             properties f !! "id"%string = el_id element /\
             is_Some (el_id element) /\
             forall k, k <> "id"%string ->
                       properties f !! k = default ∅ (el_tags element) !! k)
          (List.filter is_way_with_geometry examples.near_elements)
          (examples.features_of examples.near_elements).
Proof.
  apply (proj1 (overpass_ways_become_line_features examples.near_elements)).
  reflexivity.
Defined.

Section road_classes.
Import disaster_management.
Variable sv : services.
Variable transformer : coord -> result coord.
Variable flood_pixels : ndarray.
Variable flood_transform : affine.

Lemma features_loop_filter features : forall affected near affected' near',
  features_loop sv transformer flood_pixels flood_transform features affected near
  = Ok (affected', near') ->
  affected' = affected ++
              List.filter (is_flooded_road sv transformer flood_pixels flood_transform)
                          features /\
  near' = near ++
          List.filter (is_near_flood_road sv transformer flood_pixels flood_transform)
                      features.
Proof.
  induction features as [| f rest IH]; intros affected near affected' near' H.
  - simpl in H. injection H as <- <-. simpl. rewrite !app_nil_r. auto.
  - cbn [features_loop List.filter] in *.
    unfold is_flooded_road at 1, is_near_flood_road at 1.
    destruct (coords_loop sv transformer flood_pixels flood_transform (coordinates f) false)
      as [[[|] [|]] | e]; [| | | | discriminate];
      apply IH in H as [-> ->]; rewrite <- ?app_assoc; auto.
Qed.

Lemma filter_sublist {A} (p : A -> bool) (l : list A) : sublist (List.filter p l) l.
Proof.
  induction l as [| a l IH]; [constructor |].
  simpl. destruct (p a); [apply sublist_skip | apply sublist_cons]; exact IH.
Qed.

Lemma exclusive_filters_length {A} (p q : A -> bool) (l : list A) :
  (forall a, p a = true -> q a = false) ->
  (length (List.filter p l) + length (List.filter q l) <= length l)%nat.
Proof.
  intros Hpq. induction l as [| a l IH]; [simpl; lia |].
  simpl. destruct (p a) eqn:Hp; [rewrite (Hpq a Hp) |]; [| destruct (q a)]; simpl; lia.
Qed.
End road_classes.

(** X14.  [analyze_road_impact] sorts the road features into two lists
    that keep the order of the input: the features whose vertex loop ended
    flooded, and those whose loop ended near a flood.  No feature is in
    both, the two lists together are no longer than the input, and a
    feature without vertices is in neither. *)
Theorem road_classes_partition_the_input (sv : services) (roads : list feature)
    (flood_pixels : ndarray) (flood_transform : affine) (map_crs road_crs : string)
    (transformer : coord -> result coord) (affected near : list feature) :
  transformer_from_crs sv road_crs map_crs = Ok transformer ->
  disaster_management.analyze_road_impact sv roads flood_pixels flood_transform
    map_crs road_crs = Ok (affected, near) ->
  affected = List.filter (is_flooded_road sv transformer flood_pixels flood_transform) roads /\
  near = List.filter (is_near_flood_road sv transformer flood_pixels flood_transform) roads /\
  sublist affected roads /\ sublist near roads /\
  (forall f, In f affected -> ~ In f near) /\
  (length affected + length near <= length roads)%nat /\
  (forall f, coordinates f = [] -> ~ In f affected /\ ~ In f near).
Proof.
  unfold disaster_management.analyze_road_impact. intros -> Hrun.
  apply features_loop_filter in Hrun as [-> ->]. cbn [app].
  split; [reflexivity |]. split; [reflexivity |].
  split; [apply filter_sublist |]. split; [apply filter_sublist |].
  assert (Hex : forall f, is_flooded_road sv transformer flood_pixels flood_transform f = true ->
                          is_near_flood_road sv transformer flood_pixels flood_transform f = false).
  { intros f. unfold is_flooded_road, is_near_flood_road.
    destruct (disaster_management.coords_loop sv transformer flood_pixels flood_transform
                (coordinates f) false) as [[[|] [|]] | e]; auto; discriminate. }
  split; [| split; [apply exclusive_filters_length; exact Hex |]].
  - intros f Ha Hn. apply filter_In in Ha as [_ Ha]. apply filter_In in Hn as [_ Hn].
    rewrite (Hex f Ha) in Hn. discriminate.
  - intros f Hnil. split; intros Hin; apply filter_In in Hin as [_ Hin];
      unfold is_flooded_road, is_near_flood_road in Hin; rewrite Hnil in Hin;
      discriminate.
Qed.

Lemma road_classes_partition_the_input_witness :
  let roads := examples.features_of examples.near_elements in
  let transformer := fun c : coord => Ok c in
  roads = List.filter (is_flooded_road examples.offline transformer examples.flood_pixels
                         examples.unit_affine) roads /\
  [] = List.filter (is_near_flood_road examples.offline transformer examples.flood_pixels
                      examples.unit_affine) roads /\
  sublist roads roads /\ sublist [] roads /\
  (forall f, In f roads -> ~ In f []) /\
  (length roads + length (@nil feature) <= length roads)%nat /\
  (forall f, coordinates f = [] -> ~ In f roads /\ ~ In f []).
Proof.
  apply (road_classes_partition_the_input examples.offline
           (examples.features_of examples.near_elements) examples.flood_pixels
           examples.unit_affine "EPSG:32630" "EPSG:4326" (fun c => Ok c)
           (examples.features_of examples.near_elements) []).
  - reflexivity.
  - vm_compute. reflexivity.
Defined.

(** * Further properties of the road attribution *)

Section road_entries.
Import tabs_disaster_management.
Variable features : list feature.







End road_entries.



Lemma overpass_way_without_id_raises (elements : list overpass_element) element :
  In element elements -> is_way_with_geometry element = true -> el_id element = None ->
  exists e, disaster_management.overpass_to_geojson elements = Raise e.
Proof.
  induction elements as [| el rest IH]; intros Hin Hu Hid; [destruct Hin |].
  cbn [disaster_management.overpass_to_geojson]. destruct Hin as [-> | Hin].
  - unfold is_way_with_geometry in Hu. apply andb_true_iff in Hu as [Hway Hgeo].
    rewrite Hway. destruct (el_geometry element); [| discriminate].
    rewrite Hid. eauto.
  - destruct (IH Hin Hu Hid) as [e He]. rewrite He.
    destruct (bool_decide (el_type el = Some "way"%string)); [| eauto].
    destruct (el_geometry el); [| eauto]. destruct (el_id el); eauto.
Qed.

(** X16.  A malformed answer of the road provider gives the fallback entry.
    When some way of the answer carries a geometry and no id, the conversion
    raises, and the affected points, if any, all go to the one entry named
    "Local roads", however far from any road they are. *)
Theorem malformed_road_answer_falls_back (sv : services)
    (segs : list flood_detection.affected_segment) (rasters : list raster_data)
    (elements : list overpass_element) (element : overpass_element) :
  (forall s w n e, get_road_data sv s w n e = Ok elements) ->
  In element elements -> is_way_with_geometry element = true -> el_id element = None ->
  segs <> [] ->
  tabs_disaster_management.convert_coordinates_to_road_names sv segs rasters
  = [tabs_disaster_management.fallback_impact segs] /\
  ri_affected_points (tabs_disaster_management.fallback_impact segs) = length segs /\
  length (ri_coordinates (tabs_disaster_management.fallback_impact segs)) = length segs.
Proof.
  intros Hroads Hin Hu Hid Hsegs.
  destruct (overpass_way_without_id_raises elements element Hin Hu Hid) as [e He].
  split; [| split; [reflexivity | apply length_map]].
  unfold tabs_disaster_management.convert_coordinates_to_road_names.
  destruct segs as [| seg segs]; [congruence |].
  cbn [List.map]. rewrite Hroads, He. reflexivity.
Qed.

Lemma malformed_road_answer_falls_back_witness :
  tabs_disaster_management.convert_coordinates_to_road_names more_examples.nameless_ways
    [examples.wet_segment] [examples.raster1]
  = [tabs_disaster_management.fallback_impact [examples.wet_segment]] /\
  ri_affected_points (tabs_disaster_management.fallback_impact [examples.wet_segment])
  = length [examples.wet_segment] /\
  length (ri_coordinates (tabs_disaster_management.fallback_impact [examples.wet_segment]))
  = length [examples.wet_segment].
Proof.
  apply (malformed_road_answer_falls_back more_examples.nameless_ways
           [examples.wet_segment] [examples.raster1] more_examples.ways_without_id
           more_examples.way_without_id).
  - reflexivity.
  - left. reflexivity.
  - reflexivity.
  - reflexivity.
  - discriminate.
Defined.

(** X17.  The road provider is asked for one box, the extent of the affected
    coordinates widened by 0.005 degrees on each side, and the entries
    depend on the services through the answer for that box alone. *)
Theorem road_query_covers_affected_points (sv sv' : services)
    (seg : flood_detection.affected_segment)
    (segs : list flood_detection.affected_segment) (rasters rasters' : list raster_data) :
  let '(south, west, north, east) :=
    road_query_box (flood_detection.coordinate seg)
                   (List.map flood_detection.coordinate segs) in
  (forall s, In s (seg :: segs) ->
     south + (5 # 1000) <= (flood_detection.coordinate s).2 /\
     (flood_detection.coordinate s).2 <= north - (5 # 1000) /\
     west + (5 # 1000) <= (flood_detection.coordinate s).1 /\
     (flood_detection.coordinate s).1 <= east - (5 # 1000)) /\
  (get_road_data sv south west north east = get_road_data sv' south west north east ->
   tabs_disaster_management.convert_coordinates_to_road_names sv (seg :: segs) rasters
   = tabs_disaster_management.convert_coordinates_to_road_names sv' (seg :: segs) rasters').
Proof.
  unfold road_query_box. split.
  - intros s Hs.
    assert (Hc : In (flood_detection.coordinate s)
                    (flood_detection.coordinate seg
                     :: List.map flood_detection.coordinate segs))
      by (destruct Hs as [<- | Hs]; [left; reflexivity | right; apply in_map; exact Hs]).
    assert (H1 : (flood_detection.coordinate s).1 = (flood_detection.coordinate seg).1 \/
                 In (flood_detection.coordinate s).1
                    (List.map fst (List.map flood_detection.coordinate segs)))
      by (destruct Hc as [<- | Hc]; [left; reflexivity | right; apply in_map; exact Hc]).
    assert (H2 : (flood_detection.coordinate s).2 = (flood_detection.coordinate seg).2 \/
                 In (flood_detection.coordinate s).2
                    (List.map snd (List.map flood_detection.coordinate segs)))
      by (destruct Hc as [<- | Hc]; [left; reflexivity | right; apply in_map; exact Hc]).
    destruct (fold_left_Qmin_le (List.map fst (List.map flood_detection.coordinate segs))
                (flood_detection.coordinate seg).1) as [Ha1 Hb1].
    destruct (fold_left_Qmax_ge (List.map fst (List.map flood_detection.coordinate segs))
                (flood_detection.coordinate seg).1) as [Hc1 Hd1].
    destruct (fold_left_Qmin_le (List.map snd (List.map flood_detection.coordinate segs))
                (flood_detection.coordinate seg).2) as [Ha2 Hb2].
    destruct (fold_left_Qmax_ge (List.map snd (List.map flood_detection.coordinate segs))
                (flood_detection.coordinate seg).2) as [Hc2 Hd2].
    destruct H1 as [H1 | H1]; [rewrite H1 | specialize (Hb1 _ H1); specialize (Hd1 _ H1)];
      (destruct H2 as [H2 | H2];
       [rewrite H2 | specialize (Hb2 _ H2); specialize (Hd2 _ H2)]);
      repeat split; lra.
  - intros Hsame. unfold tabs_disaster_management.convert_coordinates_to_road_names.
    cbn [List.map]. rewrite Hsame. reflexivity.
Qed.

Lemma road_query_covers_affected_points_witness :
  tabs_disaster_management.convert_coordinates_to_road_names examples.offline
    [examples.wet_segment] [examples.raster1]
  = tabs_disaster_management.convert_coordinates_to_road_names examples.dry_provider
      [examples.wet_segment] [].
Proof.
  apply (proj2 (road_query_covers_affected_points examples.offline examples.dry_provider
                  examples.wet_segment [] [examples.raster1] [])).
  reflexivity.
Defined.

Section first_nearest.
Import tabs_disaster_management.


End first_nearest.



(** * Further properties of the route planner *)

Section destinations.
Import route_planner.

Lemma unique_In x l : In x (unique l) <-> In x l.
Proof.
  induction l as [| y rest IH]; [reflexivity |].
  cbn [unique]. simpl. rewrite filter_In, IH, negb_true_iff. split.
  - intros [H | [H _]]; auto.
  - intros [H | H]; [left; exact H |].
    destruct (String.eqb y x) eqn:E; [left; apply String.eqb_eq, E | right; auto].
Qed.

Lemma NoDup_List_filter {A} (p : A -> bool) (l : list A) :
  NoDup l -> NoDup (List.filter p l).
Proof. rewrite !NoDup_ListNoDup. apply List.NoDup_filter. Qed.

Lemma unique_NoDup l : NoDup (unique l).
Proof.
  induction l as [| y rest IH]; [constructor |].
  cbn [unique]. constructor; [| apply NoDup_List_filter, IH].
  intros Hin. apply list_elem_of_In, filter_In in Hin as [_ Hin].
  rewrite String.eqb_refl in Hin. discriminate.
Qed.

Lemma unique_sublist l : sublist (unique l) l.
Proof.
  induction l as [| y rest IH]; [constructor |].
  cbn [unique]. apply sublist_skip.
  etransitivity; [apply filter_sublist | exact IH].
Qed.

Lemma unique_NoDup_id l : NoDup l -> unique l = l.
Proof.
  induction 1 as [| y rest Hy Hnd IH]; [reflexivity |].
  cbn [unique]. rewrite IH. f_equal.
  apply List.forallb_filter_id, forallb_forall. intros x Hx.
  apply negb_true_iff, String.eqb_neq. intros <-. apply Hy, list_elem_of_In, Hx.
Qed.

Lemma selected_destinations_In locs wd x :
  In x (selected_destinations locs wd) <->
  In x (List.map label_of locs) /\ x <> depot_label wd /\ checked wd x = true.
Proof.
  unfold selected_destinations.
  rewrite !filter_In, unique_In, negb_true_iff, String.eqb_neq. tauto.
Qed.

Lemma selected_destinations_NoDup locs wd : NoDup (selected_destinations locs wd).
Proof.
  unfold selected_destinations. apply NoDup_List_filter, NoDup_List_filter, unique_NoDup.
Qed.

Lemma filter_map_comm {A B} (f : A -> B) (p : B -> bool) (l : list A) :
  List.filter p (List.map f l) = List.map f (List.filter (fun a => p (f a)) l).
Proof.
  induction l as [| a l IH]; [reflexivity |].
  simpl. destruct (p (f a)); simpl; rewrite IH; reflexivity.
Qed.
End destinations.

(** X19.  The destinations handed to the optimiser are exactly the labels of
    the table that differ from the depot label and whose checkbox is
    ticked; each is listed once, in the order of its first row of the
    table. *)
Theorem selected_destinations_are_the_ticked_labels
    (logistics_locations : list route_planner.location) (wd : route_planner.widgets) :
  let selected := route_planner.selected_destinations logistics_locations wd in
  (forall label,
     In label selected <->
     (exists l, In l logistics_locations /\ route_planner.label_of l = label) /\
     label <> route_planner.depot_label wd /\
     route_planner.checked wd label = true) /\
  NoDup selected /\
  sublist selected (List.map route_planner.label_of logistics_locations).
Proof.
  intros selected. split; [| split].
  - intros label. unfold selected. rewrite selected_destinations_In, in_map_iff.
    split; intros [(l & H1 & H2) H]; (split; [exists l; auto | exact H]).
  - apply selected_destinations_NoDup.
  - unfold selected, route_planner.selected_destinations.
    etransitivity; [apply filter_sublist |].
    etransitivity; [apply filter_sublist | apply unique_sublist].
Qed.

(** X20.  The distance matrix is asked for one row per table row whose label
    is the depot label or a selected destination.  When the labels of the
    table are distinct and the depot label is one of them, that is one row
    more than there are selected destinations. *)
Theorem matrix_rows_are_depot_and_destinations
    (logistics_locations : list route_planner.location) (wd : route_planner.widgets) :
  NoDup (List.map route_planner.label_of logistics_locations) ->
  In (route_planner.depot_label wd)
     (List.map route_planner.label_of logistics_locations) ->
  length (route_planner.matrix_coords logistics_locations wd)
  = S (length (route_planner.selected_destinations logistics_locations wd)) /\
  length (route_planner.df_labels logistics_locations wd)
  = length (route_planner.matrix_coords logistics_locations wd).
Proof.
  intros Hnd Hdepot.
  set (selected := route_planner.selected_destinations logistics_locations wd).
  set (kept := List.map route_planner.label_of
                 (route_planner.selected_df logistics_locations wd)).
  assert (Hk : kept = List.filter (fun x => bool_decide
                                      (x ∈ route_planner.depot_label wd :: selected))
                        (List.map route_planner.label_of logistics_locations)).
  { unfold kept, route_planner.selected_df. symmetry.
    apply (filter_map_comm route_planner.label_of
             (fun x => bool_decide (x ∈ route_planner.depot_label wd :: selected))). }
  assert (Hkept : kept ≡ₚ route_planner.depot_label wd :: selected).
  { apply NoDup_Permutation.
    - rewrite Hk. apply NoDup_List_filter, Hnd.
    - constructor; [| apply selected_destinations_NoDup].
      intros Hin. apply list_elem_of_In, selected_destinations_In in Hin. tauto.
    - intros x. rewrite Hk.
      rewrite !list_elem_of_In, filter_In, bool_decide_eq_true, list_elem_of_In.
      split; [tauto |]. intros H. split; [| exact H].
      destruct H as [<- | H]; [exact Hdepot |].
      apply selected_destinations_In in H. tauto. }
  assert (Hlen : length (route_planner.matrix_coords logistics_locations wd)
                 = S (length selected)).
  { unfold route_planner.matrix_coords. rewrite length_map.
    rewrite <- (length_map route_planner.label_of). fold kept.
    rewrite (Permutation_length Hkept). reflexivity. }
  split; [exact Hlen |].
  unfold route_planner.df_labels. fold kept.
  unfold route_planner.matrix_coords. rewrite length_map.
  rewrite <- (length_map route_planner.label_of). fold kept.
  destruct kept; reflexivity.
Qed.

Lemma matrix_rows_are_depot_and_destinations_witness :
  length (route_planner.matrix_coords examples.locations examples.all_ticked)
  = S (length (route_planner.selected_destinations examples.locations examples.all_ticked)) /\
  length (route_planner.df_labels examples.locations examples.all_ticked)
  = length (route_planner.matrix_coords examples.locations examples.all_ticked).
Proof.
  apply (matrix_rows_are_depot_and_destinations examples.locations examples.all_ticked).
  - vm_compute. repeat constructor; rewrite ?list_elem_of_In; simpl; intuition discriminate.
  - vm_compute. left. reflexivity.
Defined.

(** X21.  Node 0 of the routing problem, the row renamed to the depot, is
    the first row of the table whose label is the depot label or a selected
    destination.  It is the chosen depot only when no selected destination
    stands before it in the table: otherwise that destination is the start
    and end of every route. *)
Theorem routing_depot_is_first_kept_row
    (logistics_locations pre post : list route_planner.location)
    (l : route_planner.location) (wd : route_planner.widgets) :
  logistics_locations = pre ++ l :: post ->
  (forall l', In l' pre ->
     route_planner.label_of l' <> route_planner.depot_label wd /\
     ~ In (route_planner.label_of l')
          (route_planner.selected_destinations logistics_locations wd)) ->
  (route_planner.label_of l = route_planner.depot_label wd \/
   In (route_planner.label_of l)
      (route_planner.selected_destinations logistics_locations wd)) ->
  hd_error (route_planner.matrix_coords logistics_locations wd)
  = Some (route_planner.longitude l, route_planner.latitude l) /\
  hd_error (route_planner.df_labels logistics_locations wd) = Some "🏭 DEPOT"%string /\
  forall labels distance_matrix stops,
    hd_error (flood_detection.coords
                (route_planner.build_route labels
                   (route_planner.matrix_coords logistics_locations wd)
                   distance_matrix stops))
    = Some (route_planner.longitude l, route_planner.latitude l) /\
    List.last (flood_detection.coords
            (route_planner.build_route labels
               (route_planner.matrix_coords logistics_locations wd)
               distance_matrix stops)) (0, 0)
    = (route_planner.longitude l, route_planner.latitude l).
Proof.
  intros Hlocs Hpre Hl.
  set (selected := route_planner.selected_destinations logistics_locations wd) in *.
  assert (Hdf : route_planner.selected_df logistics_locations wd
                = l :: List.filter
                         (fun l' => bool_decide (route_planner.label_of l'
                                                 ∈ route_planner.depot_label wd :: selected))
                         post).
  { unfold route_planner.selected_df. fold selected. rewrite Hlocs at 1.
    rewrite List.filter_app. cbn [List.filter].
    rewrite bool_decide_eq_true_2
      by (apply list_elem_of_In; destruct Hl as [<- | Hl]; [left | right]; auto).
    rewrite filter_none; [reflexivity |].
    intros l' Hin. apply bool_decide_eq_false_2. rewrite list_elem_of_In.
    destruct (Hpre l' Hin) as [H1 H2]. intros [H | H]; [congruence | exact (H2 H)]. }
  assert (Hmc : exists rest, route_planner.matrix_coords logistics_locations wd
                             = (route_planner.longitude l, route_planner.latitude l) :: rest).
  { unfold route_planner.matrix_coords. rewrite Hdf. cbn [List.map]. eauto. }
  destruct Hmc as [rest Hmc]. split; [rewrite Hmc; reflexivity |]. split.
  - unfold route_planner.df_labels. rewrite Hdf. reflexivity.
  - intros labels distance_matrix stops. rewrite Hmc.
    unfold route_planner.build_route. cbn [flood_detection.coords List.map nth app hd_error].
    split; [reflexivity |]. rewrite app_comm_cons. apply List.last_last.
Qed.

Lemma routing_depot_is_first_kept_row_witness :
  hd_error (route_planner.matrix_coords examples.locations more_examples.depot_thorne)
  = Some (-(11 # 10), 535 # 10) /\
  hd_error (route_planner.df_labels examples.locations more_examples.depot_thorne)
  = Some "🏭 DEPOT"%string /\
  forall labels distance_matrix stops,
    hd_error (flood_detection.coords
                (route_planner.build_route labels
                   (route_planner.matrix_coords examples.locations more_examples.depot_thorne)
                   distance_matrix stops))
    = Some (-(11 # 10), 535 # 10) /\
    List.last (flood_detection.coords
            (route_planner.build_route labels
               (route_planner.matrix_coords examples.locations more_examples.depot_thorne)
               distance_matrix stops)) (0, 0)
    = (-(11 # 10), 535 # 10).
Proof.
  apply (routing_depot_is_first_kept_row examples.locations []
           (tl examples.locations)
           {| route_planner.loc_type := "Depot"; route_planner.loc_name := "Doncaster";
              route_planner.latitude := 535 # 10;
              route_planner.longitude := -(11 # 10) |}
           more_examples.depot_thorne).
  - reflexivity.
  - intros l' [].
  - right. vm_compute. left. reflexivity.
Defined.

Section stored_routes.
Import route_planner.
Variable labels : list string.
Variable matrix_coords : list coord.
Variable distance_matrix : list (list Z).
Variable solution : assignment.

Lemma build_route_lengths stops :
  length (flood_detection.coords (build_route labels matrix_coords distance_matrix stops))
  = (length stops + 2)%nat /\
  length (flood_detection.display (build_route labels matrix_coords distance_matrix stops))
  = (length stops + 1)%nat.
Proof.
  unfold build_route. cbn [flood_detection.coords flood_detection.display].
  rewrite length_app, !length_map. simpl. lia.
Qed.

Lemma routes_loop_spec vehicle_ids :
  List.map fst (routes_loop labels matrix_coords distance_matrix solution vehicle_ids)
  = List.filter (has_stops solution) vehicle_ids /\
  forall vehicle_id r,
    In (vehicle_id, r)
       (routes_loop labels matrix_coords distance_matrix solution vehicle_ids) ->
    In vehicle_id vehicle_ids /\ has_stops solution vehicle_id = true /\
    r = build_route labels matrix_coords distance_matrix (nth vehicle_id solution []).
Proof.
  induction vehicle_ids as [| v rest [IHk IHr]]; [split; [reflexivity | intros ? ? []] |].
  cbn [routes_loop List.filter].
  destruct (build_route_lengths (nth v solution [])) as [Hlen _].
  unfold has_stops at 1 3.
  destruct (nth v solution []) as [| s stops] eqn:Hv.
  - replace (2 <? _)%nat with false by (symmetry; apply Nat.ltb_ge; rewrite Hlen; simpl; lia).
    split; [exact IHk |]. intros vid r Hin. destruct (IHr vid r Hin) as (H1 & H2 & H3).
    split; [right; exact H1 | auto].
  - replace (2 <? _)%nat with true by (symmetry; apply Nat.ltb_lt; rewrite Hlen; simpl; lia).
    cbn [List.map fst]. split; [f_equal; exact IHk |].
    intros vid r [[= <- <-] | Hin].
    + split; [left; reflexivity |]. unfold has_stops. rewrite Hv. auto.
    + destruct (IHr vid r Hin) as (H1 & H2 & H3). split; [right; exact H1 | auto].
Qed.
End stored_routes.

(** X22.  When the solver returns a solution, ["route_data"] is replaced by
    one entry per vehicle whose route visits a stop, keyed by the vehicle
    number in increasing order; a vehicle that stays at the depot leaves no
    entry.  Each entry has one coordinate per visited node plus the closing
    depot visit, starting and ending at the coordinate of node 0, and one
    label per visited node.  The other keys of the session stay as they
    were, and the success message is shown exactly when an entry exists. *)
Theorem solved_routes_are_stored (sv : services)
    (logistics_locations : list route_planner.location)
    (wd : route_planner.widgets) (ss : gmap string session_value)
    (distance_matrix : list (list Z)) (solution : assignment) :
  route_planner.selected_destinations logistics_locations wd <> [] ->
  get_distance_matrix sv (route_planner.matrix_coords logistics_locations wd)
    = Ok distance_matrix ->
  solve_with_parameters sv
    (route_planner.build_model distance_matrix (route_planner.num_vehicles_input wd)
       (length (route_planner.selected_destinations logistics_locations wd)))
    = Some solution ->
  let after := route_planner.render sv logistics_locations wd ss in
  let depot_coord := nth 0%nat (route_planner.matrix_coords logistics_locations wd) (0, 0) in
  exists new_route_data,
    fst after !! ROUTE_DATA = Some (VRouteData new_route_data) /\
    (forall k, k <> ROUTE_DATA -> fst after !! k = ss !! k) /\
    List.map fst new_route_data
    = List.filter (has_stops solution)
                  (seq 0 (Z.to_nat (route_planner.num_vehicles_input wd))) /\
    (forall vehicle_id r, In (vehicle_id, r) new_route_data ->
       let stops := nth vehicle_id solution [] in
       stops <> [] /\
       (Z.of_nat vehicle_id < route_planner.num_vehicles_input wd)%Z /\
       length (flood_detection.coords r) = (length stops + 2)%nat /\
       length (flood_detection.display r) = (length stops + 1)%nat /\
       hd_error (flood_detection.coords r) = Some depot_coord /\
       List.last (flood_detection.coords r) (0, 0) = depot_coord /\
       flood_detection.distance r
       = route_planner.path_cost distance_matrix (0%nat :: stops ++ [0%nat])) /\
    (In route_planner.SuccessRoutesGenerated (snd after) <-> new_route_data <> []).
Proof.
  intros Hsel Hdm Hsolve after depot_coord.
  set (rd := route_planner.routes_loop (route_planner.df_labels logistics_locations wd)
               (route_planner.matrix_coords logistics_locations wd)
               distance_matrix solution
               (seq 0 (Z.to_nat (route_planner.num_vehicles_input wd)))).
  set (n_selected := length (route_planner.selected_destinations logistics_locations wd)) in *.
  set (total := route_planner.sum (List.map (fun kv => flood_detection.distance kv.2) rd)).
  assert (Hafter : after =
            (<[ROUTE_DATA := VRouteData rd]> ss,
             (if (n_selected =? 1)%nat then [route_planner.InfoTipSelectMultiple] else [])
             ++ List.map (fun kv => route_planner.VehicleRoute kv.1 kv.2) rd
             ++ (if (0 <? total)%Z
                 then [route_planner.MetricTotalFleetDistance total] else [])
             ++ (match rd with [] => [] | _ => [route_planner.SuccessRoutesGenerated] end))).
  { unfold after, route_planner.render. fold n_selected.
    destruct (route_planner.selected_destinations logistics_locations wd) eqn:E;
      [congruence |].
    rewrite Hdm, Hsolve. reflexivity. }
  destruct (routes_loop_spec (route_planner.df_labels logistics_locations wd)
              (route_planner.matrix_coords logistics_locations wd) distance_matrix solution
              (seq 0 (Z.to_nat (route_planner.num_vehicles_input wd)))) as [Hkeys Hrs].
  fold rd in Hkeys, Hrs.
  exists rd. rewrite Hafter. cbn [fst snd].
  split; [apply lookup_insert_eq |].
  split; [intros k Hk; apply lookup_insert_ne; congruence |].
  split; [exact Hkeys |]. split.
  - intros vid r Hin. destruct (Hrs vid r Hin) as (Hid & Hst & ->).
    set (stops := nth vid solution []) in *.
    apply in_seq in Hid.
    destruct (build_route_lengths (route_planner.df_labels logistics_locations wd)
                (route_planner.matrix_coords logistics_locations wd) distance_matrix stops)
      as [Hl1 Hl2].
    split; [| split; [lia | split; [exact Hl1 | split; [exact Hl2 |]]]].
    + unfold has_stops in Hst. fold stops in Hst. destruct stops; [discriminate | discriminate].
    + unfold route_planner.build_route.
      cbn [flood_detection.coords flood_detection.distance List.map app hd_error].
      split; [reflexivity |]. split; [| reflexivity].
      rewrite app_comm_cons. apply List.last_last.
  - split.
    + intros Hin Hnil. rewrite Hnil in Hin. cbn [List.map app] in Hin.
      rewrite app_nil_r in Hin. apply in_app_or in Hin as [Hin | Hin].
      * destruct (n_selected =? 1)%nat; [destruct Hin as [? | []] |]; [discriminate | destruct Hin].
      * destruct (0 <? total)%Z; [destruct Hin as [? | []]; discriminate | destruct Hin].
    + intros Hne. apply in_or_app. right. apply in_or_app. right. apply in_or_app. right.
      destruct rd; [congruence | left; reflexivity].
Qed.

Lemma solved_routes_are_stored_witness :
  let solution := [[1%nat; 2%nat]; [3%nat]] in
  let ss : gmap string session_value :=
    {[ ROUTE_DATA := VRouteData examples.stale_routes ]} in
  let after := route_planner.render more_examples.route_found examples.locations
                 examples.all_ticked ss in
  let depot_coord :=
    nth 0%nat (route_planner.matrix_coords examples.locations examples.all_ticked) (0, 0) in
  exists new_route_data,
    fst after !! ROUTE_DATA = Some (VRouteData new_route_data) /\
    (forall k, k <> ROUTE_DATA -> fst after !! k = ss !! k) /\
    List.map fst new_route_data
    = List.filter (has_stops solution)
                  (seq 0 (Z.to_nat (route_planner.num_vehicles_input examples.all_ticked))) /\
    (forall vehicle_id r, In (vehicle_id, r) new_route_data ->
       let stops := nth vehicle_id solution [] in
       stops <> [] /\
       (Z.of_nat vehicle_id < route_planner.num_vehicles_input examples.all_ticked)%Z /\
       length (flood_detection.coords r) = (length stops + 2)%nat /\
       length (flood_detection.display r) = (length stops + 1)%nat /\
       hd_error (flood_detection.coords r) = Some depot_coord /\
       List.last (flood_detection.coords r) (0, 0) = depot_coord /\
       flood_detection.distance r
       = route_planner.path_cost examples.matrix4 (0%nat :: stops ++ [0%nat])) /\
    (In route_planner.SuccessRoutesGenerated (snd after) <-> new_route_data <> []).
Proof.
  apply (solved_routes_are_stored more_examples.route_found examples.locations
           examples.all_ticked {[ ROUTE_DATA := VRouteData examples.stale_routes ]}
           examples.matrix4 [[1%nat; 2%nat]; [3%nat]]).
  - vm_compute. discriminate.
  - reflexivity.
  - reflexivity.
Defined.

(** X23.  Without a selected destination, or when the distance service
    fails, the route planner returns early and leaves the session state as
    it was: routes stored by an earlier run stay there.  In every case the
    planner touches no key but ["route_data"]. *)
Theorem planner_early_return_keeps_routes (sv : services)
    (logistics_locations : list route_planner.location)
    (wd : route_planner.widgets) (ss : gmap string session_value) :
  (route_planner.selected_destinations logistics_locations wd = [] ->
   route_planner.render sv logistics_locations wd ss
   = (ss, [route_planner.WarningSelectDestination])) /\
  (forall e,
     get_distance_matrix sv (route_planner.matrix_coords logistics_locations wd) = Raise e ->
     fst (route_planner.render sv logistics_locations wd ss) = ss /\
     (route_planner.selected_destinations logistics_locations wd <> [] ->
      In (route_planner.ErrorCalculatingDistances e)
         (snd (route_planner.render sv logistics_locations wd ss)))) /\
  (forall k, k <> ROUTE_DATA ->
     fst (route_planner.render sv logistics_locations wd ss) !! k = ss !! k).
Proof.
  unfold route_planner.render. split; [| split].
  - intros ->. reflexivity.
  - intros e He. rewrite He.
    destruct (route_planner.selected_destinations logistics_locations wd) eqn:E.
    + split; [reflexivity | congruence].
    + split; [reflexivity |]. intros _. apply in_or_app. right. left. reflexivity.
  - intros k Hk.
    destruct (route_planner.selected_destinations logistics_locations wd); [reflexivity |].
    destruct (get_distance_matrix sv (route_planner.matrix_coords logistics_locations wd));
      [| reflexivity].
    destruct (solve_with_parameters sv _); cbn [fst].
    + apply lookup_insert_ne. congruence.
    + apply lookup_delete_ne. congruence.
Qed.

Lemma planner_early_return_keeps_routes_witness :
  let ss : gmap string session_value :=
    {[ ROUTE_DATA := VRouteData examples.stale_routes ]} in
  fst (route_planner.render examples.offline examples.locations examples.all_ticked ss)
  = ss /\
  (route_planner.selected_destinations examples.locations examples.all_ticked <> [] ->
   In (route_planner.ErrorCalculatingDistances RequestException)
      (snd (route_planner.render examples.offline examples.locations
              examples.all_ticked ss))).
Proof.
  apply (proj1 (proj2 (planner_early_return_keeps_routes examples.offline
                         examples.locations examples.all_ticked
                         {[ ROUTE_DATA := VRouteData examples.stale_routes ]}))).
  reflexivity.
Defined.

Section dealing_stops.
Import route_planner.

Lemma deal_length cap stops k : length (deal cap stops k) = k.
Proof.
  revert stops. induction k as [| k IH]; intros stops; [reflexivity |].
  cbn [deal length]. rewrite IH. reflexivity.
Qed.

Lemma deal_concat cap k : forall stops,
  (length stops <= k * cap)%nat -> concat (deal cap stops k) = stops.
Proof.
  induction k as [| k IH]; intros stops Hlen.
  - destruct stops; [reflexivity | simpl in Hlen; lia].
  - cbn [deal concat]. rewrite IH; [apply firstn_skipn |].
    rewrite length_skipn. simpl in Hlen. lia.
Qed.

Lemma deal_routes cap k : forall stops,
  List.Forall (fun r => (length r <= cap)%nat) (deal cap stops k).
Proof.
  induction k as [| k IH]; intros stops; [constructor |].
  cbn [deal]. constructor; [apply firstn_le_length | apply IH].
Qed.

Lemma within_capacities_short_routes distance_matrix num_vehicles n_selected cap :
  forall sol,
    List.Forall (fun r => (length r <= cap)%nat) sol ->
    within_capacities (build_model distance_matrix num_vehicles n_selected) sol
      (repeat (Z.of_nat cap) (length sol)) = true.
Proof.
  induction 1 as [| r sol Hr Hsol IH]; [reflexivity |].
  cbn [length repeat within_capacities]. rewrite IH, andb_true_r. apply Z.leb_le.
  unfold route_load. cbn [build_model demands depot List.map fold_right].
  change (nth 0 (0%Z :: repeat 1%Z (length distance_matrix - 1)) 0%Z) with 0%Z.
  pose proof (load_le_length (length distance_matrix - 1) r). lia.
Qed.

(** The capacities given to the vehicles: the same for each, at least 1,
    and together enough for every stop. *)
Lemma capacities_suffice distance_matrix num_vehicles n_selected :
  (1 <= num_vehicles)%Z ->
  exists cap,
    vehicle_capacities (build_model distance_matrix num_vehicles n_selected)
    = repeat (Z.of_nat cap) (Z.to_nat num_vehicles) /\
    (length distance_matrix - 1 < Z.to_nat num_vehicles * cap)%nat.
Proof.
  intros Hv. unfold build_model. cbn [vehicle_capacities].
  set (n1 := (length distance_matrix - 1)%nat).
  destruct (n_selected =? 1)%nat.
  - exists (S n1). split.
    + cbn [length]. rewrite repeat_length. reflexivity.
    + nia.
  - rewrite sum_demands.
    set (q := (Z.of_nat n1 / num_vehicles)%Z).
    assert (Hq : (0 <= q)%Z) by (apply Z.div_pos; lia).
    exists (Z.to_nat (q + 1)). split.
    + f_equal. lia.
    + pose proof (Z.div_mod (Z.of_nat n1) num_vehicles ltac:(lia)) as Hdm.
      pose proof (Z.mod_pos_bound (Z.of_nat n1) num_vehicles ltac:(lia)) as Hm.
      fold q in Hdm. nia.
Qed.
End dealing_stops.

(** X24.  The capacities never force a stop to be dropped.  With at least
    one vehicle the routing model has, by the contract of the solver, a
    solution that serves every stop: the stops dealt out to the vehicles in
    runs of one capacity each.  So a run that ends without a solution, or
    with a dropped stop, is not owed to the capacities. *)
Theorem capacities_admit_every_stop (distance_matrix : list (list Z))
    (n_vehicles : Z) (n_selected : nat) :
  (1 <= n_vehicles)%Z ->
  let m := route_planner.build_model distance_matrix n_vehicles n_selected in
  exists sol,
    feasible m sol = true /\
    concat sol = seq 1 (num_nodes m - 1) /\
    (route_planner.sum (demands m) < route_planner.sum (vehicle_capacities m))%Z.
Proof.
  intros Hv m.
  destruct (capacities_suffice distance_matrix n_vehicles n_selected Hv)
    as (cap & Hcaps & Hcap).
  fold m in Hcaps.
  set (n := length distance_matrix) in *.
  set (k := Z.to_nat n_vehicles) in *.
  set (sol := deal cap (seq 1 (n - 1)) k).
  assert (Hconcat : concat sol = seq 1 (n - 1))
    by (apply deal_concat; rewrite List.length_seq; lia).
  exists sol. split; [| split; [exact Hconcat |]].
  - unfold feasible. rewrite Hconcat, Hcaps.
    change (num_vehicles m) with n_vehicles.
    repeat (apply andb_true_iff; split).
    + apply Z.eqb_eq. unfold sol. rewrite deal_length. unfold k. lia.
    + apply forallb_forall. intros x Hx. apply in_seq in Hx.
      change (depot m) with 0%nat. change (num_nodes m) with n.
      apply andb_true_iff. split; [apply negb_true_iff, Nat.eqb_neq | apply Nat.ltb_lt]; lia.
    + apply bool_decide_eq_true. apply NoDup_ListNoDup, List.seq_NoDup.
    + apply forallb_forall. intros x Hx. apply in_seq in Hx.
      change (depot m) with 0%nat. change (num_nodes m) with n in Hx.
      destruct x as [| x]; [reflexivity |].
      rewrite orb_true_iff. right. apply bool_decide_eq_true, list_elem_of_In, in_seq. lia.
    + pose proof (within_capacities_short_routes distance_matrix n_vehicles n_selected
                    cap sol (deal_routes cap k (seq 1 (n - 1)))) as Hw.
      unfold sol in Hw at 2. rewrite deal_length in Hw. exact Hw.
  - rewrite Hcaps. change (demands m) with (0%Z :: repeat 1%Z (n - 1)).
    rewrite sum_demands.
    assert (Hsum : forall c j, route_planner.sum (repeat c j) = (Z.of_nat j * c)%Z).
    { intros c j. induction j as [| j IH]; [reflexivity |].
      unfold route_planner.sum in *. cbn [repeat fold_right]. rewrite IH. lia. }
    rewrite Hsum. lia.
Qed.

Lemma capacities_admit_every_stop_witness :
  let m := route_planner.build_model examples.matrix4 2 3 in
  exists sol,
    feasible m sol = true /\
    concat sol = seq 1 (num_nodes m - 1) /\
    (route_planner.sum (demands m) < route_planner.sum (vehicle_capacities m))%Z.
Proof.
  apply (capacities_admit_every_stop examples.matrix4 2 3). lia.
Defined.

(** * Further properties of the hazard tab *)

Section analysis_run.
Import tabs_disaster_management.
Variable sv : services.

Lemma improved_per_vehicle route_data rasters :
  flat_map (fun kv => flood_detection.analyze_road_flood_impact_improved sv [kv] rasters)
           route_data
  = flood_detection.analyze_road_flood_impact_improved sv route_data rasters.
Proof.
  unfold flood_detection.analyze_road_flood_impact_improved.
  destruct rasters as [| r rasters].
  - induction route_data as [| kv rest IH]; [reflexivity | exact IH].
  - apply List.flat_map_ext. intros kv. cbn [flat_map]. apply app_nil_r.
Qed.

Lemma vehicles_loop_spec route_data rasters : forall total segs,
  vehicles_loop sv route_data rasters total segs
  = ((total + length (List.filter (vehicle_is_affected sv rasters) route_data))%nat,
     segs ++ flat_map (fun kv => flood_detection.analyze_road_flood_impact_improved
                                   sv [kv] rasters) route_data).
Proof.
  induction route_data as [| kv rest IH]; intros total segs.
  - simpl. rewrite Nat.add_0_r, app_nil_r. reflexivity.
  - cbn [vehicles_loop List.filter flat_map]. unfold vehicle_is_affected at 1.
    destruct (flood_detection.analyze_road_flood_impact_improved sv [kv] rasters)
      as [| s l] eqn:Hkv; rewrite IH.
    + f_equal.
    + cbn [length]. f_equal; [lia | rewrite <- app_assoc; reflexivity].
Qed.

Lemma run_analysis_cases route_data analysis_date selected_tile_size w :
  (all_coords route_data = [] /\
   run_analysis sv route_data analysis_date selected_tile_size w
   = (Ok (failed_results OtherException), w)) \/
  (exists c cs rasters w',
     all_coords route_data = c :: cs /\
     flood_detection.process_flood_tiles sv
       (flood_detection.generate_tiles (overall_bbox c cs) selected_tile_size)
       analysis_date w = (Ok rasters, w') /\
     let segs := flood_detection.analyze_road_flood_impact_improved sv route_data rasters in
     run_analysis sv route_data analysis_date selected_tile_size w
     = (Ok {| total_affected :=
                length (List.filter (vehicle_is_affected sv rasters) route_data);
              flood_data_found := match rasters with [] => false | _ => true end;
              all_flood_rasters := rasters;
              road_impacts := convert_coordinates_to_road_names sv segs rasters;
              affected_segments := segs;
              error := None |}, w')).
Proof.
  unfold run_analysis, try_except.
  destruct (all_coords route_data) as [| c cs] eqn:Hc; [left; auto |].
  right. unfold bind.
  destruct (process_tiles_loop_bounds sv analysis_date
              (flood_detection.generate_tiles (overall_bbox c cs) selected_tile_size) [] w)
    as (res & w' & new & Hloop & _).
  assert (Htiles : flood_detection.process_flood_tiles sv
                     (flood_detection.generate_tiles (overall_bbox c cs) selected_tile_size)
                     analysis_date w
                   = (Ok (match flood_detection.generate_tiles (overall_bbox c cs)
                                  selected_tile_size with [] => [] | _ => res end),
                      match flood_detection.generate_tiles (overall_bbox c cs)
                              selected_tile_size with [] => w | _ => w' end)).
  { unfold flood_detection.process_flood_tiles.
    destruct (flood_detection.generate_tiles (overall_bbox c cs) selected_tile_size);
      [reflexivity | exact Hloop]. }
  eexists c, cs, _, _. split; [reflexivity |]. split; [exact Htiles |].
  cbv zeta. rewrite Htiles, vehicles_loop_spec, improved_per_vehicle. reflexivity.
Qed.
End analysis_run.


(** X25.  An analysis run always ends with a stored result, and the result
    is consistent: the affected segments are those of the improved analysis
    of all vehicles against the rasters kept in the result, the affected
    count is the number of vehicles with a record (so no more than there are
    vehicles, and zero exactly when there is no segment), the road entries
    are those of these segments, "flood data found" says that a raster
    was obtained, and an error is recorded only for a route without
    coordinates.  The alert panel is shown exactly when a segment was
    recorded. *)
Theorem analysis_result_is_consistent (sv : services)
    (route_data : flood_detection.route_data_t) (analysis_date : string)
    (selected_tile_size : Q) (w : world) :
  exists results w',
    tabs_disaster_management.run_analysis sv route_data analysis_date
      selected_tile_size w = (Ok results, w') /\
    affected_segments results
    = flood_detection.analyze_road_flood_impact_improved sv route_data
        (all_flood_rasters results) /\
    total_affected results
    = length (List.filter (vehicle_is_affected sv (all_flood_rasters results)) route_data) /\
    (total_affected results <= length route_data)%nat /\
    (total_affected results = 0%nat <-> affected_segments results = []) /\
    road_impacts results
    = tabs_disaster_management.convert_coordinates_to_road_names sv
        (affected_segments results) (all_flood_rasters results) /\
    (flood_data_found results = false <-> all_flood_rasters results = []) /\
    (error results = None <-> tabs_disaster_management.all_coords route_data <> []) /\
    (tabs_disaster_management.results_panel results
     = [tabs_disaster_management.ErrorRouteSafetyAlert (road_impacts results)] <->
     affected_segments results <> []).
Proof.
  assert (Hzero : forall rasters,
            length (List.filter (vehicle_is_affected sv rasters) route_data) = 0%nat <->
            flood_detection.analyze_road_flood_impact_improved sv route_data rasters = []).
  { intros rasters. rewrite <- improved_per_vehicle.
    induction route_data as [| kv rest IH]; [simpl; tauto |].
    cbn [List.filter flat_map]. unfold vehicle_is_affected at 1.
    destruct (flood_detection.analyze_road_flood_impact_improved sv [kv] rasters);
      [exact IH | simpl; split; discriminate]. }
  assert (Hpanel : forall results,
            (total_affected results = 0%nat <-> affected_segments results = []) ->
            tabs_disaster_management.results_panel results
            = [tabs_disaster_management.ErrorRouteSafetyAlert (road_impacts results)] <->
            affected_segments results <> []).
  { intros results Hz. unfold tabs_disaster_management.results_panel.
    destruct (total_affected results) as [| n] eqn:Ht.
    - cbn. split.
      + destruct (flood_data_found results); discriminate.
      + intros Hne. exfalso. apply Hne, Hz. reflexivity.
    - cbn. split; [| reflexivity]. intros _ Hnil. apply Hz in Hnil. discriminate. }
  destruct (run_analysis_cases sv route_data analysis_date selected_tile_size w)
    as [[Hnil Hrun] | (c & cs & rasters & w' & Hcs & _ & Hrun)].
  - exists (tabs_disaster_management.failed_results OtherException), w.
    split; [exact Hrun |]. cbn.
    assert (Hrd : List.filter (vehicle_is_affected sv []) route_data = []).
    { apply filter_none. intros kv _. reflexivity. }
    rewrite Hrd. cbn.
    repeat split; auto; try lia; try discriminate; try congruence.
  - cbv zeta in Hrun. eexists _, w'. split; [exact Hrun |].
    cbn [affected_segments all_flood_rasters total_affected road_impacts
         flood_data_found error].
    split; [reflexivity |]. split; [reflexivity |].
    split; [apply List.filter_length_le |]. split; [apply Hzero |].
    split; [reflexivity |]. split; [| split].
    + destruct rasters; split; (reflexivity || discriminate).
    + rewrite Hcs. split; [discriminate | reflexivity].
    + apply Hpanel. cbn. apply Hzero.
Qed.





(** X28.  The two buttons.  With routes in the session, "Analyze Route
    Safety" stores the tile size of the slider and sets the analysis flag,
    "Clear Analysis" removes the stored result and the flag; both reach no
    provider, keep the routes and ask for a rerun.  After a clear the tab
    shows the invitation to click analyze and nothing else. *)
Theorem buttons_set_and_clear_the_analysis (sv : services)
    (wd : tabs_disaster_management.widgets) (ss : gmap string session_value)
    (route_data : flood_detection.route_data_t) (w : world) :
  ss !! ROUTE_DATA = Some (VRouteData route_data) -> route_data <> [] ->
  (tabs_disaster_management.analyze_clicked wd = true ->
   exists ss',
     tabs_disaster_management.render_improved_hazard_analysis sv wd ss w
     = (Ok (ss', [], tabs_disaster_management.Rerun), w) /\
     ss' !! RUN_IMPROVED_ANALYSIS = Some (VBool true) /\
     tabs_disaster_management.selected_tile_size_of ss'
     = tabs_disaster_management.tile_size wd /\
     ss' !! ROUTE_DATA = Some (VRouteData route_data) /\
     ss' !! IMPROVED_ANALYSIS_RESULTS = ss !! IMPROVED_ANALYSIS_RESULTS) /\
  (tabs_disaster_management.analyze_clicked wd = false ->
   tabs_disaster_management.clear_clicked wd = true ->
   exists ss',
     tabs_disaster_management.render_improved_hazard_analysis sv wd ss w
     = (Ok (ss', [], tabs_disaster_management.Rerun), w) /\
     ss' !! RUN_IMPROVED_ANALYSIS = None /\
     ss' !! IMPROVED_ANALYSIS_RESULTS = None /\
     ss' !! ROUTE_DATA = Some (VRouteData route_data) /\
     forall sv' wd' w2,
       tabs_disaster_management.analyze_clicked wd' = false ->
       tabs_disaster_management.clear_clicked wd' = false ->
       tabs_disaster_management.render_improved_hazard_analysis sv' wd' ss' w2
       = (Ok (ss', [tabs_disaster_management.InfoClickAnalyze],
              tabs_disaster_management.Finished), w2)).
Proof.
  intros Hroutes Hne. split.
  - intros Hanalyze. eexists. split; [| split; [| split; [| split]]].
    + unfold tabs_disaster_management.render_improved_hazard_analysis.
      rewrite Hroutes, Hanalyze.
      destruct route_data as [| kv rest]; [congruence | reflexivity].
    + rewrite lookup_insert_ne by discriminate. apply lookup_insert_eq.
    + unfold tabs_disaster_management.selected_tile_size_of.
      rewrite lookup_insert_eq. reflexivity.
    + rewrite !lookup_insert_ne by discriminate. exact Hroutes.
    + rewrite !lookup_insert_ne by discriminate. reflexivity.
  - intros Hanalyze Hclear. eexists. split; [| split; [| split; [| split]]].
    + unfold tabs_disaster_management.render_improved_hazard_analysis.
      rewrite Hroutes, Hanalyze, Hclear.
      destruct route_data as [| kv rest]; [congruence | reflexivity].
    + apply lookup_delete_eq.
    + rewrite lookup_delete_ne by discriminate. apply lookup_delete_eq.
    + rewrite !lookup_delete_ne by discriminate. exact Hroutes.
    + intros sv' wd' w2 Hanalyze' Hclear'.
      unfold tabs_disaster_management.render_improved_hazard_analysis.
      rewrite !lookup_delete_ne by discriminate. rewrite Hroutes, Hanalyze', Hclear'.
      rewrite lookup_delete_eq.
      rewrite (lookup_delete_ne _ RUN_IMPROVED_ANALYSIS IMPROVED_ANALYSIS_RESULTS)
        by discriminate.
      rewrite lookup_delete_eq.
      destruct route_data as [| kv rest]; [congruence | reflexivity].
Qed.

Lemma buttons_set_and_clear_the_analysis_witness :
  exists ss',
    tabs_disaster_management.render_improved_hazard_analysis examples.offline
      more_examples.analyze_click {[ ROUTE_DATA := VRouteData examples.dry_route ]}
      empty_world
    = (Ok (ss', [], tabs_disaster_management.Rerun), empty_world) /\
    ss' !! RUN_IMPROVED_ANALYSIS = Some (VBool true) /\
    tabs_disaster_management.selected_tile_size_of ss'
    = tabs_disaster_management.tile_size more_examples.analyze_click /\
    ss' !! ROUTE_DATA = Some (VRouteData examples.dry_route) /\
    ss' !! IMPROVED_ANALYSIS_RESULTS
    = ({[ ROUTE_DATA := VRouteData examples.dry_route ]} : gmap string session_value)
        !! IMPROVED_ANALYSIS_RESULTS.
Proof.
  refine (proj1 (buttons_set_and_clear_the_analysis examples.offline
                   more_examples.analyze_click
                   {[ ROUTE_DATA := VRouteData examples.dry_route ]}
                   examples.dry_route empty_world _ _) _).
  - reflexivity.
  - discriminate.
  - reflexivity.
Defined.

(** * The alternative routes *)





(** * The coordinates that are checked *)

(** X30.  When the directions service gives a non-empty list of features,
    the improved analysis checks the vertices of its LineString features, in
    order, and not the route points themselves; so when none of the features
    is a LineString nothing is checked and the vehicle gets no record,
    whatever the rasters show at its route points.  When the service
    raises, gives nothing or gives no feature, the route points are
    checked. *)
Theorem dense_geometry_replaces_route_points (sv : services)
    (route_coords : list coord) :
  (forall features,
     get_directions sv route_coords = Ok (Some features) -> features <> [] ->
     flood_detection.coords_to_check sv route_coords
     = concat (List.map coordinates
                 (List.filter (fun f => String.eqb (geometry_type f) "LineString")
                              features)) /\
     ((forall f, In f features -> geometry_type f <> "LineString"%string) ->
      forall vehicle_id display distance rasters,
        flood_detection.analyze_road_flood_impact_improved sv
          [(vehicle_id, {| flood_detection.coords := route_coords;
                           flood_detection.display := display;
                           flood_detection.distance := distance |})] rasters = [])) /\
  ((get_directions sv route_coords = Ok None \/
    get_directions sv route_coords = Ok (Some []) \/
    exists e, get_directions sv route_coords = Raise e) ->
   flood_detection.coords_to_check sv route_coords = route_coords).
Proof.
  unfold flood_detection.coords_to_check. split.
  - intros features H Hne. rewrite H.
    assert (Hflat : flat_map (fun f => if String.eqb (geometry_type f) "LineString"
                                       then coordinates f else []) features
                    = concat (List.map coordinates
                                (List.filter
                                   (fun f => String.eqb (geometry_type f) "LineString")
                                   features))).
    { clear H Hne. induction features as [| f rest IH]; [reflexivity |].
      cbn [flat_map List.filter].
      destruct (String.eqb (geometry_type f) "LineString");
        cbn [List.map concat app]; rewrite IH; reflexivity. }
    destruct features as [| f0 rest]; [congruence |].
    change (0 <? length (f0 :: rest))%nat with true. cbv iota.
    split; [exact Hflat |].
    intros Hnone vehicle_id display distance rasters.
    unfold flood_detection.analyze_road_flood_impact_improved.
    destruct rasters as [| r rasters]; [reflexivity |].
    cbn [flat_map flood_detection.coords]. unfold flood_detection.coords_to_check.
    rewrite H. change (0 <? length (f0 :: rest))%nat with true. cbv iota.
    rewrite Hflat, filter_none; [reflexivity |].
    intros f Hf. apply String.eqb_neq, Hnone, Hf.
  - intros [-> | [-> | [e ->]]]; reflexivity.
Qed.

Lemma dense_geometry_replaces_route_points_witness :
  flood_detection.analyze_road_flood_impact_improved more_examples.points_only
    [(0%nat, {| flood_detection.coords := [examples.wet_point];
                flood_detection.display := [];
                flood_detection.distance := 0 |})] [examples.raster1] = [].
Proof.
  refine (proj2 (proj1 (dense_geometry_replaces_route_points more_examples.points_only
                          [examples.wet_point])
                   [more_examples.point_feature] _ _) _ 0%nat [] 0%Z [examples.raster1]).
  - reflexivity.
  - discriminate.
  - intros f [<- | []]. discriminate.
Defined.
